(** * Bharat-mail: the mailbox store, the spam classifier and the analytics
      aggregation of [src/main.py], embedded in Rocq.

    Python [str] values are modelled as [string]; a character stands for a
    code point of the range U+0000..U+00FF, on which [str.lower] and
    [str.strip] are the functions [lower] and [strip] below.  SQL columns
    that may hold NULL are [option] values and conditions are evaluated in
    SQL's three-valued logic.  The [emails] table is a list of rows in rowid
    order, which is the order in which a table scan returns them. *)

From Stdlib Require Import List Strings.String Strings.Ascii Strings.Byte Bool ZArith NArith Arith Lia.
From Stdlib Require Import Sorting.Sorted Sorting.Permutation.
From Stdlib Require Import DecimalString.
Import ListNotations.
Open Scope string_scope.
Open Scope Z_scope.

(* ================================================================= *)
(** ** Text primitives of the Python runtime *)

Module Text.

(** [c.lower()] for a code point below U+0100: the letters A..Z and the
    Latin-1 capitals U+00C0..U+00DE (the sign U+00D7 apart) move up by 32. *)
Definition lower_char (c : ascii) : ascii :=
  let n := N_of_ascii c in
  if ((65 <=? n) && (n <=? 90)
      || (192 <=? n) && (n <=? 222) && negb (n =? 215))%N
  then ascii_of_N (n + 32) else c.

Fixpoint lower (s : string) : string :=
  match s with
  | EmptyString => EmptyString
  | String c t => String (lower_char c) (lower t)
  end.

(** [c.isspace()] below U+0100. *)
Definition isspace (c : ascii) : bool :=
  let n := N_of_ascii c in
  ((9 <=? n) && (n <=? 13) || (28 <=? n) && (n <=? 32)
   || (n =? 133) || (n =? 160))%N.

Fixpoint lstrip (s : string) : string :=
  match s with
  | EmptyString => EmptyString
  | String c t => if isspace c then lstrip t else s
  end.

(** [rstrip] drops the longest all-blank suffix. *)
Fixpoint rstrip (s : string) : string :=
  match s with
  | EmptyString => EmptyString
  | String c t =>
      match rstrip t with
      | EmptyString => if isspace c then EmptyString else String c EmptyString
      | t' => String c t'
      end
  end.

Definition strip (s : string) : string := rstrip (lstrip s).

(** Python truthiness of a [str]. *)
Definition truthy (s : string) : bool :=
  match s with EmptyString => false | _ => true end.

(** [w in text]: [w] starts at some position of [text]. *)
Fixpoint contains (w text : string) : bool :=
  String.prefix w text
  || match text with
     | EmptyString => false
     | String _ t => contains w t
     end.

(** The mathematical notion the membership test decides. *)
Definition is_substring (w text : string) : Prop :=
  exists pre post, text = pre ++ w ++ post.

(** [s[:n]] on characters. *)
Definition take (n : nat) (s : string) : string := String.substring 0 n s.

End Text.

(* ================================================================= *)
(** ** Classifier: [EmailApp.detect_spam] *)

Module Classifier.
Import Text.

Definition spam_keywords : list string :=
  [ "lottery"; "win money"; "prize"; "free offer"; "urgent";
    "cash"; "credit"; "loan"; "congratulations"; "claim now"; "click here" ].

(** [text = f"{subject} {body}".lower()] *)
Definition spam_text (subject body : string) : string :=
  lower (subject ++ " " ++ body).

(** The [for w in spam_keywords: if w in text: return True] loop. *)
Fixpoint scan (kws : list string) (text : string) : bool :=
  match kws with
  | [] => false
  | w :: rest => if contains w text then true else scan rest text
  end.

Definition detect_spam (subject body : string) : bool :=
  scan spam_keywords (spam_text subject body).

End Classifier.

(* ================================================================= *)
(** ** SQL values and three-valued conditions *)

Module Sql.

(** The value of a condition: [Some b] for true/false, [None] for NULL. *)
Definition tv := option bool.

(** [col = ?] on a TEXT column. *)
Definition eq_text (col : option string) (p : string) : tv :=
  option_map (fun s => String.eqb s p) col.

(** [col = n] on an INTEGER column. *)
Definition eq_int (col : option Z) (n : Z) : tv :=
  option_map (fun z => z =? n) col.

(** [col >= ?] on a TEXT column (BINARY collation: code point order). *)
Definition ge_text (col : option string) (p : string) : tv :=
  option_map (fun s => String.leb p s) col.

Definition and3 (a b : tv) : tv :=
  match a, b with
  | Some false, _ | _, Some false => Some false
  | Some true, Some true => Some true
  | _, _ => None
  end.

Definition or3 (a b : tv) : tv :=
  match a, b with
  | Some true, _ | _, Some true => Some true
  | Some false, Some false => Some false
  | _, _ => None
  end.

(** A WHERE clause keeps the rows on which the condition is true. *)
Definition holds (c : tv) : bool :=
  match c with Some true => true | _ => false end.

End Sql.

(* ================================================================= *)
(** ** Store: the [users] and [emails] tables and the handlers that write them *)

Module Store.
Import Text Sql.

(** A row of [emails].  Every column but the key may hold NULL. *)
Record email := mkEmail {
  id : Z;
  recipient : option string;
  sender : option string;
  subject : option string;
  body : option string;
  attachment : option string;
  timestamp : option string;
  is_spam : option Z
}.

(** [last_id] is the AUTOINCREMENT counter kept in [sqlite_sequence]. *)
Record db := mkDb {
  users : list (string * string);
  emails : list email;
  last_id : Z
}.

(** What a handler reports through [messagebox]. *)
Inductive notice :=
| ShowError (title msg : string)
| ShowInfo (title msg : string)
| ShowWarning (title msg : string).

Definition is_error (n : notice) : bool :=
  match n with ShowError _ _ => true | _ => false end.

(** The notices that carry the error kinds of the specification. *)
Definition InvalidInput : notice := ShowError "Error" "All fields are required!".
Definition UnknownRecipient : notice := ShowError "Error" "Recipient not found!".
Definition RegistrationRejected : notice :=
  ShowError "Error" "Username and password required".
Definition DuplicateAccount : notice := ShowError "Error" "User already exists!".

(** [SELECT * FROM users WHERE username=?] followed by [fetchone()]. *)
Definition user_exists (d : db) (name : string) : bool :=
  existsb (fun u => String.eqb (fst u) name) (users d).

(** Some row of [emails] has the id [i]. *)
Definition id_present (d : db) (i : Z) : bool :=
  existsb (fun e => id e =? i) (emails d).

(** [EmailApp.register.handle_reg]; the INSERT raises IntegrityError on a
    username that is already a key. *)
Definition handle_reg (d : db) (username password : string) : db * notice :=
  if negb (truthy username) || negb (truthy password) then
    (d, RegistrationRejected)
  else if user_exists d username then
    (d, DuplicateAccount)
  else
    (mkDb (users d ++ [(username, password)]) (emails d) (last_id d),
     ShowInfo "Success" "Registration successful!").

(** [EmailApp.send_email.handle_send].  [to_field], [subject_field] and
    [message_field] are what the three widgets return, [attach] is
    [attach_data["file"]] and [now] is [datetime.now().isoformat()]. *)
Definition handle_send (d : db) (current_user : string)
    (to_field subject_field message_field : string)
    (attach : option string) (now : string) : db * notice :=
  let recipient := strip to_field in
  let subject := strip subject_field in
  let body := strip message_field in
  if negb (truthy recipient) || negb (truthy subject) || negb (truthy body)
  then (d, InvalidInput)
  else if negb (user_exists d recipient) then (d, UnknownRecipient)
  else
    let is_spam := if Classifier.detect_spam subject body then 1 else 0 in
    let row := mkEmail (last_id d + 1) (Some recipient) (Some current_user)
                 (Some subject) (Some body) attach (Some now) (Some is_spam) in
    (mkDb (users d) (emails d ++ [row]) (last_id d + 1),
     if is_spam =? 0
     then ShowInfo "Sent" "Email sent successfully!"
     else ShowWarning "Spam"
            "This email was flagged as spam and delivered to Spam folder.").

(** [UPDATE emails SET is_spam=1 WHERE id=?] *)
Definition set_spam (i : Z) (e : email) : email :=
  if id e =? i
  then mkEmail (id e) (recipient e) (sender e) (subject e) (body e)
         (attachment e) (timestamp e) (Some 1)
  else e.

(** [EmailApp.mark_as_spam] *)
Definition mark_as_spam (d : db) (email_id : Z) : db * notice :=
  (mkDb (users d) (map (set_spam email_id) (emails d)) (last_id d),
   ShowInfo "Marked" "Email moved to Spam folder").

(** [EmailApp.delete_email]; [confirmed] is the answer to the yes/no box. *)
Definition delete_email (d : db) (confirmed : bool) (email_id : Z) : db :=
  if confirmed
  then mkDb (users d) (filter (fun e => negb (id e =? email_id)) (emails d))
         (last_id d)
  else d.

End Store.

(* ================================================================= *)
(** ** Mailbox: the queries, the search filter and the sort of [refresh] *)

Module Mailbox.
Import Text Sql Store.

(** A fetched tuple: [(id, sender-or-recipient, subject, body, attachment,
    timestamp)]. *)
Record row := mkRow {
  rid : Z;
  person : option string;
  rsubject : option string;
  rbody : option string;
  rattachment : option string;
  rtimestamp : option string
}.

Definition row_from (e : email) : row :=
  mkRow (id e) (sender e) (subject e) (body e) (attachment e) (timestamp e).

Definition row_to (e : email) : row :=
  mkRow (id e) (recipient e) (subject e) (body e) (attachment e) (timestamp e).

(** The three SELECT statements of [refresh], chosen by the tab's flags. *)
Definition fetch (inbox spam : bool) (user : string) (d : db) : list row :=
  if spam then
    map row_from
      (filter (fun e => holds (and3 (eq_text (recipient e) user)
                                    (eq_int (is_spam e) 1))) (emails d))
  else if inbox then
    map row_from (filter (fun e => holds (eq_text (recipient e) user)) (emails d))
  else
    map row_to (filter (fun e => holds (eq_text (sender e) user)) (emails d)).

(** [x or ""] *)
Definition or_empty (o : option string) : string :=
  match o with
  | Some s => if truthy s then s else ""
  | None => ""
  end.

(** The search filter; [search] is [search_var.get()]. *)
Definition search_filter (search : string) (emails : list row) : list row :=
  let kw := lower search in
  if truthy kw then
    filter (fun e =>
              contains kw (lower (or_empty (person e)))
              || contains kw (lower (or_empty (rsubject e)))
              || contains kw (lower (or_empty (rbody e)))) emails
  else emails.

(** [list.sort(key=...)]: a stable sort that compares keys with [<] only. *)
Section Sorting.
Context {A : Type} (key : A -> string).

Fixpoint insert_by (x : A) (l : list A) : list A :=
  match l with
  | [] => [x]
  | y :: ys =>
      if String.ltb (key y) (key x) then y :: insert_by x ys else x :: l
  end.

Definition sort_by (l : list A) : list A := fold_right insert_by [] l.

(** [reverse=True] keeps the original order of equal keys. *)
Definition sort_by_reverse (l : list A) : list A := rev (sort_by (rev l)).

(** Ascending order of keys. *)
Definition key_le (a b : A) : Prop := String.leb (key a) (key b) = true.
End Sorting.

Definition subject_key (x : row) : string := lower (or_empty (rsubject x)).
Definition contact_key (x : row) : string := lower (or_empty (person x)).
Definition extract_date (e : row) : string := or_empty (rtimestamp e).

(** The sort step; [sort] is [sort_var.get()]. *)
Definition sort_rows (sort : string) (emails : list row) : list row :=
  if String.eqb sort "Subject" then sort_by subject_key emails
  else if String.eqb sort "Sender/Recipient" then sort_by contact_key emails
  else sort_by_reverse extract_date emails.

(** The list of cards [refresh] draws. *)
Definition refresh (inbox spam : bool) (user : string) (d : db)
    (search sort : string) : list row :=
  sort_rows sort (search_filter search (fetch inbox spam user d)).

End Mailbox.

(* ================================================================= *)
(** ** Calendar: [datetime.date], [timedelta] and [isoformat] *)

Module Calendar.

Record date := mkDate { year : Z; month : Z; day : Z }.

Definition is_leap (y : Z) : bool :=
  (y mod 4 =? 0) && (negb (y mod 100 =? 0) || (y mod 400 =? 0)).

Definition days_in_month (y m : Z) : Z :=
  if m =? 2 then (if is_leap y then 29 else 28)
  else if (m =? 4) || (m =? 6) || (m =? 9) || (m =? 11) then 30
  else 31.

(** The dates Python can hold: 0001-01-01 .. 9999-12-31. *)
Definition valid (d : date) : Prop :=
  1 <= year d <= 9999 /\ 1 <= month d <= 12 /\
  1 <= day d <= days_in_month (year d) (month d).

(** [d + timedelta(days=1)] and [d - timedelta(days=1)]. *)
Definition next_day (d : date) : date :=
  if day d <? days_in_month (year d) (month d)
  then mkDate (year d) (month d) (day d + 1)
  else if month d <? 12 then mkDate (year d) (month d + 1) 1
  else mkDate (year d + 1) 1 1.

Definition prev_day (d : date) : date :=
  if 1 <? day d then mkDate (year d) (month d) (day d - 1)
  else if 1 <? month d
  then mkDate (year d) (month d - 1) (days_in_month (year d) (month d - 1))
  else mkDate (year d - 1) 12 31.

(** [d + timedelta(days=n)] and [d - timedelta(days=n)] for [n >= 0].
    Python raises OverflowError when the result leaves its range of dates;
    the theorems below keep [today] in the years where that cannot happen. *)
Definition add_days (d : date) (n : nat) : date := Nat.iter n next_day d.
Definition sub_days (d : date) (n : nat) : date := Nat.iter n prev_day d.

(** [d.replace(day=1)] *)
Definition first_of_month (d : date) : date := mkDate (year d) (month d) 1.

Definition digit (n : Z) : ascii := ascii_of_N (48 + Z.to_N (n mod 10)).

(** [f"{n:02d}"] for [0 <= n <= 99] and [f"{n:04d}"] for [0 <= n <= 9999]. *)
Definition pad2 (n : Z) : string :=
  String (digit (n / 10)) (String (digit n) EmptyString).
Definition pad4 (n : Z) : string :=
  String (digit (n / 1000)) (String (digit (n / 100))
    (String (digit (n / 10)) (String (digit n) EmptyString))).

(** [d.isoformat()]: YYYY-MM-DD. *)
Definition isoformat (d : date) : string :=
  pad4 (year d) ++ "-" ++ pad2 (month d) ++ "-" ++ pad2 (day d).

(** Calendar order. *)
Definition date_lt (a b : date) : Prop :=
  year a < year b
  \/ (year a = year b /\ (month a < month b
                          \/ (month a = month b /\ day a < day b))).

End Calendar.

(* ================================================================= *)
(** ** Analytics: the per-day and per-month series of [open_analytics] *)

Module Analytics.
Import Text Sql Store Calendar.

(** A Python [dict] from [str] to [int], in insertion order. *)
Definition dict := list (string * Z).

Fixpoint dict_mem (k : string) (d : dict) : bool :=
  match d with
  | [] => false
  | (k', _) :: rest => String.eqb k' k || dict_mem k rest
  end.

Fixpoint dict_get (k : string) (d : dict) : option Z :=
  match d with
  | [] => None
  | (k', v) :: rest => if String.eqb k' k then Some v else dict_get k rest
  end.

(** [d[k] = v]: an existing key keeps its place, a new one goes last. *)
Fixpoint dict_set (k : string) (v : Z) (d : dict) : dict :=
  match d with
  | [] => [(k, v)]
  | (k', v') :: rest =>
      if String.eqb k' k then (k', v) :: rest else (k', v') :: dict_set k v rest
  end.

Definition dict_keys (d : dict) : list string := map fst d.
Definition dict_values (d : dict) : list Z := map snd d.

(** [GROUP BY k ORDER BY k] with [COUNT( * )]: one row per distinct key, in
    ascending key order. *)
Fixpoint bump (k : string) (rows : list (string * Z)) : list (string * Z) :=
  match rows with
  | [] => [(k, 1)]
  | (k', n) :: rest =>
      match String.compare k k' with
      | Eq => (k', n + 1) :: rest
      | Lt => (k, 1) :: rows
      | Gt => (k', n) :: bump k rest
      end
  end.

Definition group_count (ks : list string) : list (string * Z) :=
  fold_left (fun acc k => bump k acc) ks [].

(** [(sender=? OR recipient=?)] *)
Definition involves (user : string) (e : email) : tv :=
  or3 (eq_text (sender e) user) (eq_text (recipient e) user).

(** [SUBSTR(timestamp,1,n)] of the rows a WHERE clause keeps.  Each of the
    two queries requires [timestamp >= ?], which no NULL timestamp passes. *)
Definition stamps (n : nat) (cond : email -> tv) (es : list email) : list string :=
  flat_map (fun e =>
              if holds (cond e)
              then match timestamp e with
                   | Some ts => [take n ts]
                   | None => []
                   end
              else []) es.

(** The [for k, cnt in rows: if k in counts: counts[k] = cnt] loops. *)
Definition fill (rows : list (string * Z)) (counts : dict) : dict :=
  fold_left (fun acc r => if dict_mem (fst r) acc
                          then dict_set (fst r) (snd r) acc else acc)
            rows counts.

(** *** Emails per day *)

Definition daily_cond (user start_iso : string) (e : email) : tv :=
  and3 (involves user e) (ge_text (timestamp e) start_iso).

Definition daily_rows (user start_iso : string) (d : db) : list (string * Z) :=
  group_count (stamps 10 (daily_cond user start_iso) (emails d)).

(** [{(start_date + timedelta(days=i)).isoformat(): 0 for i in range(30)}] *)
Definition daily_init (start_date : date) : dict :=
  fold_left (fun acc i => dict_set (isoformat (add_days start_date i)) 0 acc)
            (seq 0 30) [].

Definition daily_counts (user : string) (today : date) (d : db) : dict :=
  let start_date := sub_days today 29 in
  fill (daily_rows user (isoformat start_date) d) (daily_init start_date).

(** *** Spam per month *)

(** [while month <= 0: month += 12; year -= 1] *)
Fixpoint wrap_month (fuel : nat) (y m : Z) : Z * Z :=
  if m <=? 0 then
    match fuel with
    | O => (y, m)
    | S f => wrap_month f (y - 1) (m + 12)
    end
  else (y, m).

(** The key of the month [i] months before [today]'s; the loop needs no
    more than [1 - month] rounds. *)
Definition month_key (today : date) (i : Z) : string :=
  let m0 := month today - i in
  let '(y, m) := wrap_month (Z.to_nat (1 - m0)) (year today) m0 in
  pad4 y ++ "-" ++ pad2 m.

(** The keys for [i in range(5, -1, -1)]. *)
Definition months (today : date) : list string :=
  map (month_key today) [5; 4; 3; 2; 1; 0].

Definition monthly_init (today : date) : dict :=
  fold_left (fun acc k => dict_set k 0 acc) (months today) [].

Definition six_months_ago (today : date) : string :=
  isoformat (sub_days (first_of_month today) 180).

Definition monthly_cond (user since : string) (e : email) : tv :=
  and3 (and3 (involves user e) (eq_int (is_spam e) 1))
       (ge_text (timestamp e) since).

Definition monthly_rows (user since : string) (d : db) : list (string * Z) :=
  group_count (stamps 7 (monthly_cond user since) (emails d)).

Definition month_counts (user : string) (today : date) (d : db) : dict :=
  fill (monthly_rows user (six_months_ago today) d) (monthly_init today).

End Analytics.

(* ================================================================= *)
(** ** Base64: [base64.b64encode] and [base64.b64decode] *)

Module Base64.

Definition table_b2a_base64 : string :=
  "ABCDEFGHIJKLMNOPQRSTUVWXYZabcdefghijklmnopqrstuvwxyz0123456789+/".

Definition BASE64_PAD : ascii := "="%char.

Definition b2a (v : N) : ascii :=
  match String.get (N.to_nat v) table_b2a_base64 with
  | Some c => c
  | None => BASE64_PAD
  end.

Fixpoint index_of (c : ascii) (s : string) (i : N) : option N :=
  match s with
  | EmptyString => None
  | String c' t => if Ascii.eqb c' c then Some i else index_of c t (i + 1)%N
  end.

(** The inverse table: [None] for a character outside the alphabet. *)
Definition a2b (c : ascii) : option N := index_of c table_b2a_base64 0%N.

(** Storing into an [unsigned char]. *)
Definition to_byte (n : N) : byte :=
  match Byte.of_N (n mod 256) with
  | Some b => b
  | None => x00
  end.

Definition shl (a : N) (n : N) : N := N.shiftl a n.
Definition shr (a : N) (n : N) : N := N.shiftr a n.

(** The four sextets of a group of three bytes [x], [y], [z]. *)
Definition s0 (x : N) : N := shr x 2.
Definition s1 (x y : N) : N := N.lor (shl (N.land x 3) 4) (shr y 4).
Definition s2 (y z : N) : N := N.lor (shl (N.land y 15) 2) (shr z 6).
Definition s3 (z : N) : N := N.land z 63.

(** [base64.b64encode(data).decode("utf-8")]: three bytes give four
    characters, a last group of one or two bytes is padded with [=]. *)
Fixpoint b64encode (data : list byte) : string :=
  match data with
  | [] => EmptyString
  | [a] =>
      let x := Byte.to_N a in
      String (b2a (s0 x))
        (String (b2a (shl (N.land x 3) 4))
           (String BASE64_PAD (String BASE64_PAD EmptyString)))
  | [a; b] =>
      let x := Byte.to_N a in
      let y := Byte.to_N b in
      String (b2a (s0 x))
        (String (b2a (s1 x y))
           (String (b2a (shl (N.land y 15) 2))
              (String BASE64_PAD EmptyString)))
  | a :: b :: c :: rest =>
      let x := Byte.to_N a in
      let y := Byte.to_N b in
      let z := Byte.to_N c in
      String (b2a (s0 x))
        (String (b2a (s1 x y))
           (String (b2a (s2 y z))
              (String (b2a (s3 z)) (b64encode rest))))
  end.

(** The loop of [binascii.a2b_base64] in its default, non-strict mode:
    characters outside the alphabet are skipped, a pad that completes a
    quad ends the input, and a quad left open at the end is an error
    ([None]).  [acc] holds the decoded bytes, last one first. *)
Fixpoint a2b_loop (s : string) (quad_pos : N) (leftchar : N) (pads : N)
    (acc : list byte) : option (list byte) :=
  match s with
  | EmptyString => if (quad_pos =? 0)%N then Some (rev acc) else None
  | String this_ch rest =>
      if Ascii.eqb this_ch BASE64_PAD then
        if (2 <=? quad_pos)%N then
          if (4 <=? quad_pos + (pads + 1))%N then Some (rev acc)
          else a2b_loop rest quad_pos leftchar (pads + 1)%N acc
        else a2b_loop rest quad_pos leftchar pads acc
      else
        match a2b this_ch with
        | None => a2b_loop rest quad_pos leftchar pads acc
        | Some v =>
            if (quad_pos =? 0)%N then a2b_loop rest 1%N v 0%N acc
            else if (quad_pos =? 1)%N then
              a2b_loop rest 2%N (N.land v 15) 0%N
                (to_byte (N.lor (shl leftchar 2) (shr v 4)) :: acc)
            else if (quad_pos =? 2)%N then
              a2b_loop rest 3%N (N.land v 3) 0%N
                (to_byte (N.lor (shl leftchar 4) (shr v 2)) :: acc)
            else
              a2b_loop rest 0%N 0%N 0%N
                (to_byte (N.lor (shl leftchar 6) v) :: acc)
        end
  end.

(** A [str] argument must be ASCII before it reaches the decoder. *)
Fixpoint only_ascii (s : string) : bool :=
  match s with
  | EmptyString => true
  | String c t => (N_of_ascii c <? 128)%N && only_ascii t
  end.

(** [base64.b64decode(data)] on a [str]; [None] stands for the ValueError
    of a non-ASCII argument and for [binascii.Error]. *)
Definition b64decode (data : string) : option (list byte) :=
  if only_ascii data then a2b_loop data 0%N 0%N 0%N [] else None.

(** [choose_file] stores the encoded text of the file's bytes. *)
Definition choose_file (data : list byte) : option string :=
  Some (b64encode data).

(** The download button of a card exists under [if attachment:]. *)
Definition download_offered (attachment : option string) : bool :=
  match attachment with
  | Some s => Text.truthy s
  | None => false
  end.

(** [save_attachment]: the bytes written to the chosen file. *)
Definition save_attachment (data : string) : option (list byte) :=
  b64decode data.

(** The numbers below [n], for exhaustive checks of byte arithmetic. *)
Definition below (n : nat) : list N := map N.of_nat (seq 0 n).

End Base64.

(* ================================================================= *)
(** ** The vocabulary of the specification *)

Module Views.
Import Text Store.

(** "recipient = user", "sender = user" and "is_spam = true" on a message. *)
Definition received_by (user : string) (e : email) : bool :=
  match recipient e with Some r => String.eqb r user | None => false end.

Definition sent_by (user : string) (e : email) : bool :=
  match sender e with Some s => String.eqb s user | None => false end.

Definition flagged (e : email) : bool :=
  match is_spam e with Some v => v =? 1 | None => false end.

(** "user is sender or recipient". *)
Definition involved (user : string) (e : email) : bool :=
  sent_by user e || received_by user e.

(** The date part (first [n] characters) of the timestamp is one of [keys]. *)
Definition stamp_in (n : nat) (keys : list string) (e : email) : bool :=
  match timestamp e with
  | Some ts => existsb (String.eqb (take n ts)) keys
  | None => false
  end.

(** The date part of the timestamp is [k]. *)
Definition stamp_is (n : nat) (k : string) (e : email) : bool :=
  match timestamp e with
  | Some ts => String.eqb (take n ts) k
  | None => false
  end.

Definition count {A} (p : A -> bool) (l : list A) : Z :=
  Z.of_nat (List.length (filter p l)).

(** "The timestamp falls on the day (in the month) [k]": the timestamp text
    begins with the ISO date (the "YYYY-MM" label) [k]; and the same for one
    of several keys. *)
Definition dated_on (k : string) (e : email) : bool :=
  match timestamp e with
  | Some ts => String.prefix k ts
  | None => false
  end.

Definition dated_in (keys : list string) (e : email) : bool :=
  existsb (fun k => dated_on k e) keys.

Definition sum (l : list Z) : Z := fold_right Z.add 0 l.

(** The count a result set reports for [k]; a key without a row counts 0. *)
Definition tally (k : string) (rows : list (string * Z)) : Z :=
  match Analytics.dict_get k rows with Some n => n | None => 0 end.

(** Strictly ascending order of keys. *)
Definition ascending (keys : list string) : Prop :=
  StronglySorted (fun a b => String.ltb a b = true) keys.

(** The ISO dates of the 30 days that end with [today]. *)
Definition day_window (today : Calendar.date) : list string :=
  map (fun i => Calendar.isoformat (Calendar.sub_days today (29 - i))) (seq 0 30).

(** The label "YYYY-MM" of the month number [t], counted from January of
    year 0, and the labels of the 6 months that end with [today]'s. *)
Definition month_label (t : Z) : string :=
  Calendar.pad4 (t / 12) ++ "-" ++ Calendar.pad2 (t mod 12 + 1).

Definition month_number (d : Calendar.date) : Z :=
  12 * Calendar.year d + Calendar.month d - 1.

Definition month_window (today : Calendar.date) : list string :=
  map (fun i => month_label (month_number today - i)) [5; 4; 3; 2; 1; 0].

(** The number of a day in the Gregorian calendar, by the closed formula
    that counts the years from March on: consecutive days have consecutive
    numbers. *)
Definition day_number (d : Calendar.date) : Z :=
  let y := if Calendar.month d <=? 2 then Calendar.year d - 1
           else Calendar.year d in
  let m := if Calendar.month d <=? 2 then Calendar.month d + 9
           else Calendar.month d - 3 in
  365 * y + y / 4 - y / 100 + y / 400 + (153 * m + 2) / 5 + Calendar.day d.

(** A field as the sort sees it: NULL reads as the empty string. *)
Definition field (o : option string) : string :=
  match o with Some s => s | None => "" end.

End Views.

Module SortedView.
Import Text Mailbox Views.

(** What "sorted ascending by a field, case-insensitively, stably, with the
    empty and NULL fields first" says of an output [r] for an input [l]. *)
Definition sorted_by_field (f : row -> option string) (l r : list row) : Prop :=
  Permutation l r /\
  StronglySorted
    (fun a b => String.leb (lower (field (f a))) (lower (field (f b))) = true) r /\
  (forall k, filter (fun m => String.eqb (lower (field (f m))) k) r
             = filter (fun m => String.eqb (lower (field (f m))) k) l) /\
  (exists rest,
      r = (filter (fun m => String.eqb (field (f m)) "") l ++ rest)%list /\
      Forall (fun m => field (f m) <> "") rest).

End SortedView.

(* ================================================================= *)
(** ** Sample data *)

Module Sample.
Import Store.

Definition alice_to_bob : email :=
  mkEmail 1 (Some "bob") (Some "alice")
    (Some "Congratulations, you win money!") (Some "Claim your prize")
    None (Some "2026-11-03T10:15:00.000000") (Some 1).

Definition bob_to_alice : email :=
  mkEmail 2 (Some "alice") (Some "bob") (Some "Re: lunch") (Some "See you at 3pm")
    None (Some "2026-10-20T09:00:00.000000") (Some 0).

Definition two_users : db :=
  mkDb [("alice", "pw1"); ("bob", "pw2")] [alice_to_bob; bob_to_alice] 2.

Definition no_mail : db := mkDb [("alice", "pw1"); ("bob", "pw2")] [] 0.

(** Mail around the leap day of 2024 and the turn of the year before it. *)
Definition leap_mail : db :=
  mkDb [("alice", "pw1"); ("bob", "pw2"); ("carol", "pw3")]
    [ mkEmail 1 (Some "bob") (Some "alice") (Some "old") (Some "x") None
        (Some "2023-11-30T08:00:00.000000") (Some 1);
      mkEmail 2 (Some "bob") (Some "alice") (Some "free money") (Some "x") None
        (Some "2023-12-31T23:59:59.000000") (Some 1);
      mkEmail 3 (Some "alice") (Some "bob") (Some "hello") (Some "x") None
        (Some "2024-02-09T12:00:00.000000") (Some 0);
      mkEmail 4 (Some "bob") (Some "alice") (Some "win a prize") (Some "x") None
        (Some "2024-02-29T07:30:00.000000") (Some 1);
      mkEmail 5 (Some "carol") (Some "alice") (Some "offer") (Some "x") None
        (Some "2024-02-29T07:31:00.000000") (Some 1);
      mkEmail 6 (Some "alice") (Some "bob") (Some "lottery") (Some "x") None
        (Some "2024-02-29T09:00:00.000000") (Some 1);
      mkEmail 7 (Some "bob") (Some "carol") (Some "minutes") (Some "x") None
        (Some "2024-03-01T10:00:00.000000") (Some 0);
      mkEmail 8 (Some "bob") (Some "alice") (Some "agenda") (Some "x") None
        (Some "2024-03-10T18:45:00.000000") (Some 0);
      mkEmail 9 (Some "bob") (Some "alice") (Some "later") (Some "x") None
        (Some "2024-03-11T00:00:00.000000") (Some 1) ]
    9.

(** Subjects and senders that differ in letter case, and a NULL subject. *)
Definition mixed_case : db :=
  mkDb [("u", "pw")]
    [ mkEmail 1 (Some "u") (Some "Zoe") (Some "B") (Some "x") None
        (Some "2026-11-01T10:00:00.000000") (Some 0);
      mkEmail 2 (Some "u") (Some "adam") (Some "a") (Some "x") None
        (Some "2026-11-01T11:00:00.000000") (Some 0);
      mkEmail 3 (Some "u") (Some "Bob") (Some "C") (Some "x") None
        (Some "2026-11-01T12:00:00.000000") (Some 0);
      mkEmail 4 (Some "u") (Some "bob") (Some "b") (Some "x") None
        (Some "2026-11-01T13:00:00.000000") (Some 0);
      mkEmail 5 (Some "u") (Some "BOB") None (Some "x") None
        (Some "2026-11-01T14:00:00.000000") (Some 0) ]
    5.

End Sample.

(* ================================================================= *)
(** ** Session: the login state and what the windows let a user do *)

Module Session.
Import Text Store.

(** The store together with [self.current_user]. *)
Record app := mkApp { store : db; current_user : option string }.

(** [SELECT * FROM users WHERE username=? AND password=?] and [fetchone()]. *)
Definition credentials_match (d : db) (username password : string) : bool :=
  existsb (fun u => String.eqb (fst u) username && String.eqb (snd u) password)
          (users d).

(** [EmailApp.login.handle_login] *)
Definition handle_login (a : app) (username password : string) : app * notice :=
  if credentials_match (store a) username password
  then (mkApp (store a) (Some username),
        ShowInfo "Welcome" ("Welcome " ++ username ++ "!"))
  else (a, ShowError "Error" "Invalid credentials").

(** [EmailApp.logout] *)
Definition logout (a : app) : app := mkApp (store a) None.

(** What a user can do.  Compose needs the main menu, which only a
    successful login draws and which logout destroys with all its windows, so
    [handle_send] runs with a current user; the other handlers are let
    through in every state. *)
Inductive action :=
| Register (username password : string)
| Login (username password : string)
| Logout
| Send (to_field subject_field message_field : string)
       (attach : option string) (now : string)
| MarkSpam (email_id : Z)
| Delete (confirmed : bool) (email_id : Z).

Definition run (a : app) (act : action) : app :=
  match act with
  | Register u p => mkApp (fst (handle_reg (store a) u p)) (current_user a)
  | Login u p => fst (handle_login a u p)
  | Logout => logout a
  | Send to_field subject_field message_field attach now =>
      match current_user a with
      | Some cu =>
          mkApp (fst (handle_send (store a) cu to_field subject_field
                        message_field attach now)) (Some cu)
      | None => a
      end
  | MarkSpam i => mkApp (fst (mark_as_spam (store a) i)) (current_user a)
  | Delete c i => mkApp (delete_email (store a) c i) (current_user a)
  end.

Definition run_all (acts : list action) (a : app) : app := fold_left run acts a.

(** The program started on a database file that does not exist yet. *)
Definition fresh : app := mkApp (mkDb [] [] 0) None.

Definition reachable (a : app) : Prop := exists acts, a = run_all acts fresh.

(** What every stored message looks like in a store the program built. *)
Definition row_ok (d : db) (e : email) : Prop :=
  1 <= id e <= last_id d /\
  (exists r, recipient e = Some r /\ user_exists d r = true /\ strip r = r) /\
  (exists s, sender e = Some s /\ user_exists d s = true) /\
  (exists t, subject e = Some t /\ t <> "" /\ strip t = t) /\
  (exists b, body e = Some b /\ b <> "" /\ strip b = b) /\
  timestamp e <> None /\
  (is_spam e = Some 0 \/ is_spam e = Some 1).

Definition store_ok (d : db) : Prop :=
  NoDup (map fst (users d)) /\
  Forall (fun u => fst u <> "" /\ snd u <> "") (users d) /\
  StronglySorted Z.lt (map id (emails d)) /\
  Forall (row_ok d) (emails d) /\
  0 <= last_id d.

(** Two rows are the same message: they agree on everything but the flag. *)
Definition same_message (e e' : email) : Prop :=
  id e' = id e /\ recipient e' = recipient e /\ sender e' = sender e /\
  subject e' = subject e /\ body e' = body e /\
  attachment e' = attachment e /\ timestamp e' = timestamp e.

Definition app_ok (a : app) : Prop :=
  store_ok (store a) /\
  forall u, current_user a = Some u -> user_exists (store a) u = true.

End Session.

(* ================================================================= *)
(** ** Summary: the counters of [main_menu] and [open_analytics] *)

Module Summary.
Import Text Sql Store.

(** [col IS NOT NULL] and [col IS NULL]: never NULL themselves. *)
Definition is_not_null {A} (col : option A) : tv :=
  Some (match col with Some _ => true | None => false end).
Definition is_null {A} (col : option A) : tv :=
  Some (match col with Some _ => false | None => true end).

(** [SELECT COUNT( * ) FROM emails WHERE cond], read with [fetchone()[0] or 0]. *)
Definition select_count (cond : email -> tv) (d : db) : Z :=
  Z.of_nat (List.length (filter (fun e => holds (cond e)) (emails d))).

Definition total_sent (user : string) : db -> Z :=
  select_count (fun e => eq_text (sender e) user).

Definition total_received (user : string) : db -> Z :=
  select_count (fun e => eq_text (recipient e) user).

Definition attachment_count (user : string) : db -> Z :=
  select_count (fun e => and3 (or3 (eq_text (sender e) user)
                                   (eq_text (recipient e) user))
                              (is_not_null (attachment e))).

Definition total_spam (user : string) : db -> Z :=
  select_count (fun e => and3 (or3 (eq_text (sender e) user)
                                   (eq_text (recipient e) user))
                              (eq_int (is_spam e) 1)).

Definition spam_received (user : string) : db -> Z :=
  select_count (fun e => and3 (eq_text (recipient e) user) (eq_int (is_spam e) 1)).

Definition spam_sent (user : string) : db -> Z :=
  select_count (fun e => and3 (eq_text (sender e) user) (eq_int (is_spam e) 1)).

(** The two slices of the pie chart. *)
Definition spam_recv (user : string) : db -> Z := spam_received user.

Definition normal_recv (user : string) : db -> Z :=
  select_count (fun e => and3 (eq_text (recipient e) user)
                              (or3 (eq_int (is_spam e) 0) (is_null (is_spam e)))).

End Summary.

(* ================================================================= *)
(** ** Cards: what [refresh] writes on the card of a message *)

Module Cards.
Import Text Mailbox.

(** [body[:250] + ("..." if len(body) > 250 else "")] *)
Definition body_preview (body : string) : string :=
  take 250 body ++ (if (250 <? String.length body)%nat then "..." else "").

(** [s.split("T")[0]]: the text before the first "T". *)
Fixpoint before_T (s : string) : string :=
  match s with
  | EmptyString => EmptyString
  | String c t => if Ascii.eqb c "T" then EmptyString else String c (before_T t)
  end.

(** [timestamp.split("T")[0] if timestamp else ""] *)
Definition time_label (timestamp : string) : string :=
  if truthy timestamp then before_T timestamp else "".

(** The Reply and Mark Spam buttons exist on the cards of the Inbox tab only. *)
Definition offers_reply (inbox spam : bool) : bool := inbox && negb spam.

(** What the Reply button puts into the To and Subject entries of the
    compose window: [prefill={"To": s, "Subject": f"Re: {sub}"}], of which
    [send_email] inserts the entries that are truthy. *)
Definition reply_to (r : row) : string :=
  match person r with Some s => s | None => "" end.
Definition reply_subject (r : row) : string := "Re: " ++ or_empty (rsubject r).

End Cards.

(* ================================================================= *)
(** ** Export: [export_all_emails] *)

Module CsvExport.
Import Text Store.

Definition newline : string := String (ascii_of_nat 10) EmptyString.

(** [f"{n}"] for an [int], and for a column that may be [None]. *)
Definition fmt_int (z : Z) : string := NilZero.string_of_int (Z.to_int z).
Definition fmt_text (o : option string) : string :=
  match o with Some s => s | None => "None" end.
Definition fmt_opt_int (o : option Z) : string :=
  match o with Some z => fmt_int z | None => "None" end.

(** [s.replace(',', ' ')] *)
Fixpoint replace_comma (s : string) : string :=
  match s with
  | EmptyString => EmptyString
  | String c t =>
      String (if Ascii.eqb c "," then " "%char else c) (replace_comma t)
  end.

(** [attachment_present]: [1 if att else 0]. *)
Definition present (att : option string) : string :=
  match att with
  | Some a => if truthy a then "1" else "0"
  | None => "0"
  end.

(** The line written for one row; [None] when [subj.replace] or
    [body.replace] is called on [None] and raises AttributeError. *)
Definition export_row (e : email) : option string :=
  match subject e, body e with
  | Some subj, Some b =>
      Some (fmt_int (id e) ++ "," ++ fmt_text (recipient e) ++ ","
            ++ fmt_text (sender e) ++ "," ++ replace_comma subj ++ ","
            ++ replace_comma b ++ "," ++ present (attachment e) ++ ","
            ++ fmt_text (timestamp e) ++ "," ++ fmt_opt_int (is_spam e)
            ++ newline)
  | _, _ => None
  end.

Definition header : string :=
  "id,recipient,sender,subject,body,attachment_present,timestamp,is_spam"
  ++ newline.

(** What the file does to the export: nothing, [open] raising, the write
    number [n] raising (the header is write 0), or the flush that closes the
    file raising.  [msg] is the text of the exception: whichever it is,
    [except Exception as e] catches it and shows "Failed to export: {e}".
    The SELECT between the header and the rows is taken to succeed, as the
    queries are throughout. *)
Inductive io_fault : Type :=
| NoFault
| OpenFails (msg : string)
| WriteFails (n : nat) (msg : string)
| CloseFails (msg : string).

(** How the body of the [with] block ended: it ran to its end, [replace] was
    called on [None] (AttributeError), or a write raised. *)
Inductive ending : Type :=
| Completed
| NullText
| Raised (msg : string).

Definition write_raises (fault : io_fault) (k : nat) : option string :=
  match fault with
  | WriteFails n msg => if Nat.eqb n k then Some msg else None
  | _ => None
  end.

(** The [for row in c.fetchall()] loop from write number [k] on: the lines
    handed to the file and how the loop ended.  The line is formatted before
    [f.write] is called, so a NULL text is met before the write is tried. *)
Fixpoint write_rows (fault : io_fault) (k : nat) (es : list email)
  : list string * ending :=
  match es with
  | [] => ([], Completed)
  | e :: rest =>
      match export_row e with
      | None => ([], NullText)
      | Some line =>
          match write_raises fault k with
          | Some msg => ([], Raised msg)
          | None =>
              let '(ls, r) := write_rows fault (S k) rest in (line :: ls, r)
          end
      end
  end.

Definition failed (msg : string) : notice :=
  ShowError "Error" ("Failed to export: " ++ msg).

(** [EmailApp.export_all_emails]: the text handed to the chosen file, piece
    by piece, and the notice shown; nothing happens without a file name.  An
    exception of the closing flush replaces the one the block ended with. *)
Definition export_all_emails (d : db) (save_path : string) (fault : io_fault)
  : list string * option notice :=
  if negb (truthy save_path) then ([], None)
  else
    match fault with
    | OpenFails msg => ([], Some (failed msg))
    | _ =>
        match write_raises fault 0 with
        | Some msg => ([], Some (failed msg))
        | None =>
            let '(ls, r) := write_rows fault 1 (emails d) in
            (header :: ls,
             Some (match fault, r with
                   | CloseFails msg, _ => failed msg
                   | _, Completed =>
                       ShowInfo "Exported" ("All emails exported to " ++ save_path)
                   | _, NullText =>
                       failed "'NoneType' object has no attribute 'replace'"
                   | _, Raised msg => failed msg
                   end))
        end
    end.

(** The number of commas of a text. *)
Fixpoint commas (s : string) : nat :=
  match s with
  | EmptyString => O
  | String c t => ((if Ascii.eqb c "," then 1 else 0) + commas t)%nat
  end.

End CsvExport.

(* ================================================================= *)
(** ** Facts about the text primitives *)

Module TextFacts.
Import Text.

Lemma prefix_app (w post : string) : String.prefix w (w ++ post) = true.
Proof.
  induction w as [|c w IH]; simpl.
  - destruct post; reflexivity.
  - destruct (ascii_dec c c) as [_|N]; [exact IH | contradiction].
Qed.

Lemma prefix_split (w t : string) :
  String.prefix w t = true -> exists post, t = w ++ post.
Proof.
  revert t; induction w as [|c w IH]; intros t H.
  - exists t; reflexivity.
  - destruct t as [|d t]; simpl in H; [discriminate|].
    destruct (ascii_dec c d) as [->|_]; [|discriminate].
    destruct (IH _ H) as [post ->]. exists post; reflexivity.
Qed.

Lemma contains_iff (w text : string) :
  contains w text = true <-> is_substring w text.
Proof.
  split.
  - induction text as [|c t IH]; cbn [contains]; intro H.
    + rewrite orb_false_r in H. destruct (prefix_split _ _ H) as [post E].
      exists "", post. exact E.
    + apply orb_true_iff in H as [H|H].
      * destruct (prefix_split _ _ H) as [post E]. exists "", post. exact E.
      * destruct (IH H) as (pre & post & E).
        exists (String c pre), post. simpl. now rewrite E.
  - intros (pre & post & E). subst text.
    induction pre as [|c pre IH].
    + change ("" ++ w ++ post) with (w ++ post).
      pose proof (prefix_app w post) as P.
      destruct (w ++ post); cbn [contains]; rewrite P; reflexivity.
    + cbn [append contains]. rewrite IH. apply orb_true_r.
Qed.

Lemma contains_false_iff (w text : string) :
  contains w text = false <-> ~ is_substring w text.
Proof.
  rewrite <- contains_iff. destruct (contains w text); split; intro H;
    try reflexivity; try discriminate; try (exfalso; now apply H).
Qed.

End TextFacts.

(* ================================================================= *)
(** ** Classifier theorems *)

Module ClassifierSpec.
Import Text TextFacts Classifier.

Lemma scan_iff (kws : list string) (text : string) :
  scan kws text = true <-> exists w, In w kws /\ is_substring w text.
Proof.
  induction kws as [|k kws IH]; simpl.
  - split; [discriminate | intros (w & [] & _)].
  - destruct (contains k text) eqn:E.
    + split; [intros _ | reflexivity].
      exists k; split; [now left | now apply contains_iff].
    + rewrite IH. split.
      * intros (w & Hin & Hs). exists w; split; [now right | exact Hs].
      * intros (w & [<-|Hin] & Hs).
        -- apply contains_iff in Hs. congruence.
        -- exists w; split; assumption.
Qed.

(** C1, as the code has it: [detect_spam] answers true exactly when some
    keyword of the fixed list is a substring of the lower-cased text made of
    the subject, ONE SPACE, and the body. *)
Theorem detect_spam_iff (subject body : string) :
  detect_spam subject body = true <->
  exists w, In w spam_keywords /\
            is_substring w (lower (subject ++ " " ++ body)).
Proof. unfold detect_spam, spam_text. apply scan_iff. Qed.

(** C1, as the claim states it, fails: with subject "win" and body "money"
    the classifier answers true (the separating space completes the keyword
    "win money"), though the plain concatenation "winmoney" holds no keyword. *)
Lemma detect_spam_plain_concat_fails :
  detect_spam "win" "money" = true /\
  ~ (exists w, In w spam_keywords /\
               is_substring w (lower ("win" ++ "money"))).
Proof.
  split; [reflexivity|].
  intro H. apply scan_iff in H. vm_compute in H. discriminate.
Qed.

End ClassifierSpec.

(* ================================================================= *)
(** ** Store theorems *)

Module StoreSpec.
Import Text Sql Store Views.

Lemma truthy_false_iff (s : string) : truthy s = false <-> s = "".
Proof. destruct s; simpl; split; congruence. Qed.

Lemma truthy_true_iff (s : string) : truthy s = true <-> s <> "".
Proof. destruct s; simpl; split; congruence. Qed.

(** C10: registration refuses an empty password, and an empty username, with
    an error notice and leaves the accounts as they were. *)
Theorem handle_reg_rejects_empty (d : db) :
  (forall username, handle_reg d username "" = (d, RegistrationRejected)) /\
  (forall password, handle_reg d "" password = (d, RegistrationRejected)) /\
  is_error RegistrationRejected = true.
Proof.
  split; [|split; [|reflexivity]].
  - intro username. unfold handle_reg. simpl. now rewrite orb_true_r.
  - intro password. reflexivity.
Qed.

Lemma set_spam_id (i : Z) (e : email) : id (set_spam i e) = id e.
Proof. unfold set_spam. now destruct (id e =? i). Qed.

Lemma set_spam_twice (i : Z) (e : email) :
  set_spam i (set_spam i e) = set_spam i e.
Proof.
  unfold set_spam. destruct (id e =? i) eqn:E; simpl; now rewrite E.
Qed.

Lemma set_spam_other (i : Z) (e : email) : id e <> i -> set_spam i e = e.
Proof.
  intro H. unfold set_spam. destruct (id e =? i) eqn:E; [|reflexivity].
  apply Z.eqb_eq in E. contradiction.
Qed.

Lemma set_spam_hit (i : Z) (e : email) :
  id e = i -> is_spam (set_spam i e) = Some 1.
Proof. intro H. unfold set_spam. rewrite (proj2 (Z.eqb_eq _ _) H). reflexivity. Qed.

Lemma mark_absent_unchanged (d : db) (i : Z) :
  id_present d i = false -> fst (mark_as_spam d i) = d.
Proof.
  unfold id_present, mark_as_spam. destruct d as [us es n]. simpl. intro H.
  f_equal. induction es as [|e es IH]; [reflexivity|].
  simpl in *. apply orb_false_iff in H as [He Hes].
  rewrite IH by assumption. rewrite set_spam_other; [reflexivity|].
  now apply Z.eqb_neq.
Qed.

Lemma mark_present (d : db) (i : Z) :
  id_present (fst (mark_as_spam d i)) i = id_present d i.
Proof.
  unfold id_present, mark_as_spam. simpl.
  induction (emails d) as [|e es IH]; [reflexivity|].
  simpl. now rewrite set_spam_id, IH.
Qed.

Lemma mark_flags (d : db) (i : Z) (e : email) :
  In e (emails (fst (mark_as_spam d i))) -> id e = i -> is_spam e = Some 1.
Proof.
  unfold mark_as_spam. simpl. intros Hin Hid.
  apply in_map_iff in Hin as (e0 & <- & _).
  apply set_spam_hit. now rewrite set_spam_id in Hid.
Qed.

Lemma mark_keeps_ids (d : db) (i : Z) :
  map id (emails (fst (mark_as_spam d i))) = map id (emails d).
Proof.
  unfold mark_as_spam. simpl. rewrite map_map. apply map_ext.
  intro e. apply set_spam_id.
Qed.

Lemma mark_flags_row (d : db) (i : Z) (e : email) :
  In e (emails d) -> id e = i ->
  In (mkEmail (id e) (recipient e) (sender e) (subject e) (body e)
        (attachment e) (timestamp e) (Some 1))
     (emails (fst (mark_as_spam d i))).
Proof.
  intros Hin Hid. unfold mark_as_spam. simpl. apply in_map_iff.
  exists e. split; [|exact Hin].
  unfold set_spam. now rewrite (proj2 (Z.eqb_eq _ _) Hid).
Qed.

Lemma mark_keeps_others (d : db) (i : Z) (e : email) :
  In e (emails d) -> id e <> i -> In e (emails (fst (mark_as_spam d i))).
Proof.
  intros Hin Hid. unfold mark_as_spam. simpl. apply in_map_iff.
  exists e. split; [now apply set_spam_other | exact Hin].
Qed.

(** C5, as the code has it: marking never reports an error, whether the id
    is in the store or not; on an id that is absent it changes nothing; on
    one that is present the message stays in the store (no row is added or
    removed, the ids keep their order), every row with that id ends flagged,
    being the row it was in every other column, and the rows with another id
    are untouched. *)
Theorem mark_as_spam_never_fails (d : db) (i : Z) :
  is_error (snd (mark_as_spam d i)) = false /\
  (id_present d i = false -> fst (mark_as_spam d i) = d) /\
  (forall e, In e (emails (fst (mark_as_spam d i))) -> id e = i ->
             is_spam e = Some 1) /\
  id_present (fst (mark_as_spam d i)) i = id_present d i /\
  map id (emails (fst (mark_as_spam d i))) = map id (emails d) /\
  (forall e, In e (emails d) -> id e = i ->
             In (mkEmail (id e) (recipient e) (sender e) (subject e) (body e)
                   (attachment e) (timestamp e) (Some 1))
                (emails (fst (mark_as_spam d i)))) /\
  (forall e, In e (emails d) -> id e <> i ->
             In e (emails (fst (mark_as_spam d i)))).
Proof.
  split; [reflexivity|]. repeat split.
  - apply mark_absent_unchanged.
  - apply mark_flags.
  - apply mark_present.
  - apply mark_keeps_ids.
  - apply mark_flags_row.
  - apply mark_keeps_others.
Qed.

Lemma mark_as_spam_never_fails_witness :
  is_error (snd (mark_as_spam Sample.no_mail 7)) = false /\
  fst (mark_as_spam Sample.no_mail 7) = Sample.no_mail /\
  is_spam (set_spam 1 Sample.alice_to_bob) = Some 1 /\
  id_present (fst (mark_as_spam Sample.two_users 2)) 2 = true /\
  In (mkEmail 2 (Some "alice") (Some "bob") (Some "Re: lunch")
        (Some "See you at 3pm") None (Some "2026-10-20T09:00:00.000000")
        (Some 1))
     (emails (fst (mark_as_spam Sample.two_users 2))) /\
  emails (fst (mark_as_spam Sample.two_users 2))
  = [Sample.alice_to_bob;
     mkEmail 2 (Some "alice") (Some "bob") (Some "Re: lunch")
       (Some "See you at 3pm") None (Some "2026-10-20T09:00:00.000000")
       (Some 1)].
Proof.
  split; [apply (mark_as_spam_never_fails Sample.no_mail 7)|].
  split; [apply (mark_as_spam_never_fails Sample.no_mail 7); reflexivity|].
  split.
  { apply (proj1 (proj2 (proj2 (mark_as_spam_never_fails Sample.two_users 1)))).
    - simpl. left. reflexivity.
    - reflexivity. }
  split.
  { rewrite (proj1 (proj2 (proj2 (proj2
               (mark_as_spam_never_fails Sample.two_users 2))))).
    reflexivity. }
  split; [|reflexivity].
  apply (proj1 (proj2 (proj2 (proj2 (proj2 (proj2
           (mark_as_spam_never_fails Sample.two_users 2)))))) Sample.bob_to_alice).
  - simpl. right. left. reflexivity.
  - reflexivity.
Defined.

(** C5, as the claim states it, fails: id 7 is not in the empty mailbox, yet
    marking it reports "Marked", which is no error. *)
Lemma mark_as_spam_absent_id_succeeds :
  id_present Sample.no_mail 7 = false /\
  snd (mark_as_spam Sample.no_mail 7)
    = ShowInfo "Marked" "Email moved to Spam folder" /\
  is_error (snd (mark_as_spam Sample.no_mail 7)) = false.
Proof. repeat split. Qed.

(** C7: for an id in the store, marking twice leaves the message present
    and flagged after each application, the second application reports no
    error, and the store after it equals the store after the first. *)
Theorem mark_as_spam_idempotent (d : db) (i : Z) :
  id_present d i = true ->
  let d1 := fst (mark_as_spam d i) in
  let d2 := fst (mark_as_spam d1 i) in
  id_present d1 i = true /\
  (forall e, In e (emails d1) -> id e = i -> is_spam e = Some 1) /\
  id_present d2 i = true /\
  (forall e, In e (emails d2) -> id e = i -> is_spam e = Some 1) /\
  is_error (snd (mark_as_spam d1 i)) = false /\
  d2 = d1.
Proof.
  intros H d1 d2. subst d1 d2.
  repeat split.
  - now rewrite mark_present.
  - apply mark_flags.
  - now rewrite !mark_present.
  - apply mark_flags.
  - unfold mark_as_spam. simpl. f_equal.
    rewrite map_map. apply map_ext. intro e. apply set_spam_twice.
Qed.

Lemma mark_as_spam_idempotent_witness :
  fst (mark_as_spam (fst (mark_as_spam Sample.two_users 2)) 2)
  = fst (mark_as_spam Sample.two_users 2).
Proof.
  apply (mark_as_spam_idempotent Sample.two_users 2). reflexivity.
Defined.

End StoreSpec.

(* ================================================================= *)
(** ** Compose and folder theorems *)

Module MailboxSpec.
Import Text Sql Store Mailbox Views StoreSpec.

Lemma user_exists_iff (d : db) (name : string) :
  user_exists d name = true <-> exists pw, In (name, pw) (users d).
Proof.
  unfold user_exists. rewrite existsb_exists. split.
  - intros ([u pw] & Hin & E). apply String.eqb_eq in E. simpl in E. subst u.
    now exists pw.
  - intros (pw & Hin). exists (name, pw). split; [assumption|].
    apply String.eqb_refl.
Qed.

Lemma user_exists_false_iff (d : db) (name : string) :
  user_exists d name = false <-> forall pw, ~ In (name, pw) (users d).
Proof.
  destruct (user_exists d name) eqn:E.
  - apply user_exists_iff in E as (pw & Hin). split; [discriminate|].
    intro H. exfalso. exact (H pw Hin).
  - split; [|reflexivity]. intros _ pw Hin.
    assert (user_exists d name = true) by (apply user_exists_iff; eauto).
    congruence.
Qed.

(** C4, as the code has it: the three fields are stripped first; an empty
    recipient, subject or body is reported as InvalidInput; failing that, a
    recipient without an account is reported as UnknownRecipient; in both
    cases the store is unchanged.  Otherwise exactly one row is appended,
    carrying the classifier's verdict on the stripped subject and body. *)
Theorem handle_send_outcomes (d : db) (current_user to_field subject_field
    message_field : string) (attach : option string) (now : string) :
  let r := strip to_field in
  let s := strip subject_field in
  let b := strip message_field in
  let result :=
    handle_send d current_user to_field subject_field message_field attach now in
  (r = "" \/ s = "" \/ b = "" -> result = (d, InvalidInput)) /\
  (r <> "" -> s <> "" -> b <> "" ->
   (forall pw, ~ In (r, pw) (users d)) -> result = (d, UnknownRecipient)) /\
  (r <> "" -> s <> "" -> b <> "" ->
   (exists pw, In (r, pw) (users d)) ->
   let row := mkEmail (last_id d + 1) (Some r) (Some current_user) (Some s)
                (Some b) attach (Some now)
                (Some (if Classifier.detect_spam s b then 1 else 0)) in
   fst result = mkDb (users d) (emails d ++ [row]) (last_id d + 1) /\
   is_error (snd result) = false).
Proof.
  intros r s b result. subst result. unfold handle_send. fold r s b.
  split; [|split].
  - intros H.
    assert (E : negb (truthy r) || negb (truthy s) || negb (truthy b) = true).
    { destruct H as [H|[H|H]]; rewrite H; simpl;
        rewrite ?orb_true_r; reflexivity. }
    now rewrite E.
  - intros Hr Hs Hb Hno.
    apply truthy_true_iff in Hr, Hs, Hb. rewrite Hr, Hs, Hb. simpl.
    apply user_exists_false_iff in Hno. now rewrite Hno.
  - intros Hr Hs Hb Hyes.
    apply truthy_true_iff in Hr, Hs, Hb. rewrite Hr, Hs, Hb. simpl.
    apply user_exists_iff in Hyes. rewrite Hyes. simpl.
    split; [reflexivity|]. now destruct (Classifier.detect_spam s b).
Qed.

Lemma handle_send_outcomes_witness :
  handle_send Sample.two_users "alice" "bob" "  " "hello" None "2026-11-03T10:00:00"
    = (Sample.two_users, InvalidInput) /\
  handle_send Sample.two_users "alice" "carol" "Hi" "hello" None "2026-11-03T10:00:00"
    = (Sample.two_users, UnknownRecipient) /\
  is_error (snd (handle_send Sample.two_users "alice" " bob " "Urgent" "hello"
                   None "2026-11-03T10:00:00")) = false.
Proof.
  split; [|split].
  - apply (handle_send_outcomes Sample.two_users "alice" "bob" "  " "hello").
    right; left; reflexivity.
  - apply (handle_send_outcomes Sample.two_users "alice" "carol" "Hi" "hello");
      try discriminate.
    intros pw [H|[H|[]]]; discriminate.
  - apply (handle_send_outcomes Sample.two_users "alice" " bob " "Urgent" "hello");
      try discriminate.
    exists "pw2". right; left; reflexivity.
Defined.

(** C4, as the claim states it, fails: no account has the empty name, the
    subject and the body are not empty, and the handler answers InvalidInput
    ("All fields are required!"), not UnknownRecipient. *)
Lemma handle_send_empty_recipient_is_invalid_input :
  (forall pw, ~ In ("", pw) (users Sample.two_users)) /\
  "Hi" <> "" /\ "hello" <> "" /\
  snd (handle_send Sample.two_users "alice" "" "Hi" "hello" None
         "2026-11-03T10:00:00") = InvalidInput /\
  InvalidInput <> UnknownRecipient.
Proof.
  split; [|repeat split; discriminate].
  intros pw [H|[H|[]]]; discriminate.
Qed.

Lemma received_by_iff (user : string) (e : email) :
  received_by user e = true <-> recipient e = Some user.
Proof.
  unfold received_by. destruct (recipient e) as [r|]; [|split; discriminate].
  rewrite String.eqb_eq. split; congruence.
Qed.

Lemma sent_by_iff (user : string) (e : email) :
  sent_by user e = true <-> sender e = Some user.
Proof.
  unfold sent_by. destruct (sender e) as [r|]; [|split; discriminate].
  rewrite String.eqb_eq. split; congruence.
Qed.

Lemma flagged_iff (e : email) : flagged e = true <-> is_spam e = Some 1.
Proof.
  unfold flagged. destruct (is_spam e) as [v|]; [|split; discriminate].
  rewrite Z.eqb_eq. split; congruence.
Qed.

Lemma holds_eq_recipient (user : string) (e : email) :
  holds (eq_text (recipient e) user) = received_by user e.
Proof. unfold received_by. destruct (recipient e) as [r|]; simpl; [|reflexivity].
  now destruct (String.eqb r user). Qed.

Lemma holds_eq_sender (user : string) (e : email) :
  holds (eq_text (sender e) user) = sent_by user e.
Proof. unfold sent_by. destruct (sender e) as [r|]; simpl; [|reflexivity].
  now destruct (String.eqb r user). Qed.

Lemma holds_eq_spam (e : email) : holds (eq_int (is_spam e) 1) = flagged e.
Proof. unfold flagged. destruct (is_spam e) as [v|]; simpl; [|reflexivity].
  now destruct (v =? 1). Qed.

Lemma holds_and3 (a b : tv) : holds (and3 a b) = holds a && holds b.
Proof. destruct a as [[|]|], b as [[|]|]; reflexivity. Qed.

Lemma holds_or3 (a b : tv) : holds (or3 a b) = holds a || holds b.
Proof. destruct a as [[|]|], b as [[|]|]; reflexivity. Qed.

Lemma filter_filter {A} (p q : A -> bool) (l : list A) :
  filter p (filter q l) = filter (fun x => q x && p x) l.
Proof.
  induction l as [|x l IH]; [reflexivity|]. simpl.
  destruct (q x); simpl; [destruct (p x)|]; now rewrite IH.
Qed.

(** C2: the Inbox query returns, in store order, exactly the messages whose
    recipient is the user, whatever their is_spam flag; the Spam query
    returns exactly those of them whose flag is set; the Sent query returns
    exactly the messages whose sender is the user.  Each returned row carries
    its message's id, subject, body, attachment and timestamp, with the
    sender (Inbox, Spam) or the recipient (Sent) as the other party. *)
Theorem folder_queries (user : string) (d : db) :
  fetch true false user d
    = map (fun e => mkRow (id e) (sender e) (subject e) (body e)
                      (attachment e) (timestamp e))
        (filter (received_by user) (emails d)) /\
  fetch true true user d
    = map (fun e => mkRow (id e) (sender e) (subject e) (body e)
                      (attachment e) (timestamp e))
        (filter flagged (filter (received_by user) (emails d))) /\
  fetch false false user d
    = map (fun e => mkRow (id e) (recipient e) (subject e) (body e)
                      (attachment e) (timestamp e))
        (filter (sent_by user) (emails d)) /\
  (forall e, In e (filter (received_by user) (emails d)) <->
             In e (emails d) /\ recipient e = Some user) /\
  (forall e, In e (filter flagged (filter (received_by user) (emails d))) <->
             In e (emails d) /\ recipient e = Some user /\ is_spam e = Some 1) /\
  (forall e, In e (filter (sent_by user) (emails d)) <->
             In e (emails d) /\ sender e = Some user).
Proof.
  unfold fetch. split; [|split; [|split; [|split; [|split]]]].
  - unfold row_from. f_equal. apply filter_ext. intro e.
    apply holds_eq_recipient.
  - unfold row_from. f_equal. rewrite filter_filter. apply filter_ext. intro e.
    now rewrite holds_and3, holds_eq_recipient, holds_eq_spam.
  - unfold row_to. f_equal. apply filter_ext. intro e. apply holds_eq_sender.
  - intro e. now rewrite filter_In, received_by_iff.
  - intro e. rewrite !filter_In, received_by_iff, flagged_iff. tauto.
  - intro e. now rewrite filter_In, sent_by_iff.
Qed.

(** Bob's three folders over the two sample messages: the flagged message
    from alice is in his Inbox and in his Spam folder, his reply to her is in
    his Sent folder with her as the other party; alice's Spam folder is
    empty. *)
Lemma folder_queries_witness :
  fetch true false "bob" Sample.two_users
  = [mkRow 1 (Some "alice") (Some "Congratulations, you win money!")
       (Some "Claim your prize") None (Some "2026-11-03T10:15:00.000000")] /\
  fetch true true "bob" Sample.two_users
  = [mkRow 1 (Some "alice") (Some "Congratulations, you win money!")
       (Some "Claim your prize") None (Some "2026-11-03T10:15:00.000000")] /\
  fetch false false "bob" Sample.two_users
  = [mkRow 2 (Some "alice") (Some "Re: lunch") (Some "See you at 3pm") None
       (Some "2026-10-20T09:00:00.000000")] /\
  fetch true false "alice" Sample.two_users
  = [mkRow 2 (Some "bob") (Some "Re: lunch") (Some "See you at 3pm") None
       (Some "2026-10-20T09:00:00.000000")] /\
  fetch true true "alice" Sample.two_users = [].
Proof.
  rewrite (proj1 (folder_queries "bob" Sample.two_users)).
  rewrite (proj1 (proj2 (folder_queries "bob" Sample.two_users))).
  rewrite (proj1 (proj2 (proj2 (folder_queries "bob" Sample.two_users)))).
  rewrite (proj1 (folder_queries "alice" Sample.two_users)).
  rewrite (proj1 (proj2 (folder_queries "alice" Sample.two_users))).
  repeat split.
Defined.

End MailboxSpec.

(* ================================================================= *)
(** ** Base64 round trip *)

Module Base64Spec.
Import Base64.

Lemma below_spec (n : nat) (x : N) : (x < N.of_nat n)%N -> In x (below n).
Proof.
  intro H. unfold below. apply in_map_iff. exists (N.to_nat x). split.
  - apply N2Nat.id.
  - apply in_seq. lia.
Qed.

Lemma check1 (P : N -> bool) (n : nat) :
  forallb P (below n) = true -> forall x, (x < N.of_nat n)%N -> P x = true.
Proof.
  intros H x Hx. rewrite forallb_forall in H. apply H. now apply below_spec.
Qed.

Lemma check2 (P : N -> N -> bool) (n : nat) :
  forallb (fun x => forallb (P x) (below n)) (below n) = true ->
  forall x y, (x < N.of_nat n)%N -> (y < N.of_nat n)%N -> P x y = true.
Proof.
  intros H x y Hx Hy. apply (check1 (P x) n); [|assumption].
  apply (check1 (fun x => forallb (P x) (below n)) n); assumption.
Qed.

Lemma byte_lt_256 (b : byte) : (Byte.to_N b < N.of_nat 256)%N.
Proof. pose proof (Byte.to_N_bounded b). lia. Qed.

Lemma to_byte_eq (n : N) (b : byte) :
  (n mod 256)%N = Byte.to_N b -> to_byte n = b.
Proof. intro H. unfold to_byte. now rewrite H, Byte.of_to_N. Qed.

(** The two tables are inverse of each other on the 64 sextets, and no
    sextet is written as the pad character. *)
Lemma a2b_b2a (v : N) :
  (v < 64)%N -> Ascii.eqb (b2a v) BASE64_PAD = false /\ a2b (b2a v) = Some v.
Proof.
  intro H.
  assert (C : (negb (Ascii.eqb (b2a v) BASE64_PAD)
               && match a2b (b2a v) with Some w => (w =? v)%N | None => false end)
              = true).
  { apply (check1 (fun v => negb (Ascii.eqb (b2a v) BASE64_PAD)
               && match a2b (b2a v) with Some w => (w =? v)%N | None => false end)
               64); [vm_compute; reflexivity | exact H]. }
  apply andb_true_iff in C as [C1 C2]. split.
  - now apply negb_true_iff.
  - destruct (a2b (b2a v)) as [w|]; [|discriminate].
    apply N.eqb_eq in C2. now subst.
Qed.

Lemma list_ind3 {A} (P : list A -> Prop) :
  P [] -> (forall a, P [a]) -> (forall a b, P [a; b]) ->
  (forall a b c l, P l -> P (a :: b :: c :: l)) ->
  forall l, P l.
Proof.
  intros H0 H1 H2 H3 l.
  enough (P l /\ (forall a, P (a :: l)) /\ (forall a b, P (a :: b :: l)))
    by tauto.
  induction l as [|x l (IH0 & IH1 & IH2)].
  - auto.
  - repeat split; auto.
Qed.

Lemma get_beyond (s : string) :
  forall n, (String.length s <= n)%nat -> String.get n s = None.
Proof.
  induction s as [|c s IH]; intros [|n] H; simpl in *; try reflexivity; try lia.
  apply IH. lia.
Qed.

(** Every character the encoder writes is ASCII. *)
Lemma b2a_ascii (v : N) : (N_of_ascii (b2a v) <? 128)%N = true.
Proof.
  destruct (N.lt_ge_cases v 64) as [H|H].
  - apply (check1 (fun v => (N_of_ascii (b2a v) <? 128)%N) 64);
      [vm_compute; reflexivity | exact H].
  - unfold b2a. rewrite get_beyond; [reflexivity|].
    change (String.length table_b2a_base64) with 64%nat. lia.
Qed.

Lemma b64encode_ascii (data : list byte) : only_ascii (b64encode data) = true.
Proof.
  induction data as [|a|a b|a b c rest IH] using list_ind3;
    cbn [b64encode only_ascii]; rewrite ?b2a_ascii, ?IH; reflexivity.
Qed.

(** One step of the decoder on a character of the alphabet. *)
Lemma a2b_loop_sextet (v : N) (rest : string) (q lc p : N) (acc : list byte) :
  (v < 64)%N ->
  a2b_loop (String (b2a v) rest) q lc p acc =
    if (q =? 0)%N then a2b_loop rest 1%N v 0%N acc
    else if (q =? 1)%N then
      a2b_loop rest 2%N (N.land v 15) 0%N
        (to_byte (N.lor (shl lc 2) (shr v 4)) :: acc)
    else if (q =? 2)%N then
      a2b_loop rest 3%N (N.land v 3) 0%N
        (to_byte (N.lor (shl lc 4) (shr v 2)) :: acc)
    else a2b_loop rest 0%N 0%N 0%N (to_byte (N.lor (shl lc 6) v) :: acc).
Proof.
  intro H. destruct (a2b_b2a v H) as [E1 E2].
  cbn [a2b_loop]. now rewrite E1, E2.
Qed.

Lemma sextets_ok (x y : N) :
  (x < N.of_nat 256)%N -> (y < N.of_nat 256)%N ->
  ((s0 x <? 64) && (s1 x y <? 64) && (s2 x y <? 64) && (s3 x <? 64)
   && (N.lor (shl (s0 x) 2) (shr (s1 x y) 4) mod 256 =? x)
   && (N.land (s1 x y) 15 =? shr y 4)
   && (N.lor (shl (shr x 4) 4) (shr (s2 x y) 2) mod 256 =? x)
   && (N.land (s2 x y) 3 =? shr y 6)
   && (N.lor (shl (shr x 6) 6) (s3 x) mod 256 =? x))%N = true.
Proof.
  apply (check2 (fun x y =>
   ((s0 x <? 64) && (s1 x y <? 64) && (s2 x y <? 64) && (s3 x <? 64)
   && (N.lor (shl (s0 x) 2) (shr (s1 x y) 4) mod 256 =? x)
   && (N.land (s1 x y) 15 =? shr y 4)
   && (N.lor (shl (shr x 4) 4) (shr (s2 x y) 2) mod 256 =? x)
   && (N.land (s2 x y) 3 =? shr y 6)
   && (N.lor (shl (shr x 6) 6) (s3 x) mod 256 =? x))%N) 256).
  vm_compute. reflexivity.
Qed.

Section Group.
Variables a b c : byte.
Let x := Byte.to_N a.
Let y := Byte.to_N b.
Let z := Byte.to_N c.

Ltac facts u v :=
  let H := fresh in
  pose proof (sextets_ok (Byte.to_N u) (Byte.to_N v)
                (byte_lt_256 u) (byte_lt_256 v)) as H;
  repeat (apply andb_true_iff in H; destruct H as [H ?]).

Lemma s0_lt : (s0 x < 64)%N.
Proof. subst x. facts a a. now apply N.ltb_lt. Qed.

Lemma s1_lt : (s1 x y < 64)%N.
Proof. subst x y. facts a b. now apply N.ltb_lt. Qed.

Lemma s2_lt : (s2 y z < 64)%N.
Proof. subst y z. facts b c. now apply N.ltb_lt. Qed.

Lemma s3_lt : (s3 z < 64)%N.
Proof. subst z. facts c c. now apply N.ltb_lt. Qed.

Lemma s1_pad_lt : (shl (N.land x 3) 4 < 64)%N.
Proof.
  pose proof (sextets_ok x 0%N (byte_lt_256 a) eq_refl) as H.
  repeat (apply andb_true_iff in H; destruct H as [H ?]).
  match goal with K : (s1 x 0 <? 64)%N = true |- _ => apply N.ltb_lt in K;
    unfold s1 in K; change (shr 0 4) with 0%N in K;
    now rewrite N.lor_0_r in K end.
Qed.

Lemma s2_pad_lt : (shl (N.land y 15) 2 < 64)%N.
Proof.
  pose proof (sextets_ok y 0%N (byte_lt_256 b) eq_refl) as H.
  repeat (apply andb_true_iff in H; destruct H as [H ?]).
  match goal with K : (s2 y 0 <? 64)%N = true |- _ => apply N.ltb_lt in K;
    unfold s2 in K; change (shr 0 6) with 0%N in K;
    now rewrite N.lor_0_r in K end.
Qed.

Lemma byte1 : to_byte (N.lor (shl (s0 x) 2) (shr (s1 x y) 4)) = a.
Proof. apply to_byte_eq. subst x y. facts a b. now apply N.eqb_eq. Qed.

Lemma byte1_pad :
  to_byte (N.lor (shl (s0 x) 2) (shr (shl (N.land x 3) 4) 4)) = a.
Proof.
  apply to_byte_eq.
  pose proof (sextets_ok x 0%N (byte_lt_256 a) eq_refl) as H.
  repeat (apply andb_true_iff in H; destruct H as [H ?]).
  match goal with
    K : (N.lor (shl (s0 x) 2) (shr (s1 x 0) 4) mod 256 =? x)%N = true |- _ =>
      apply N.eqb_eq in K; unfold s1 in K; change (shr 0 4) with 0%N in K;
      now rewrite N.lor_0_r in K end.
Qed.

Lemma left1 : N.land (s1 x y) 15 = shr y 4.
Proof. subst x y. facts a b. now apply N.eqb_eq. Qed.

Lemma byte2 : to_byte (N.lor (shl (shr y 4) 4) (shr (s2 y z) 2)) = b.
Proof. apply to_byte_eq. subst y z. facts b c. now apply N.eqb_eq. Qed.

Lemma byte2_pad :
  to_byte (N.lor (shl (shr y 4) 4) (shr (shl (N.land y 15) 2) 2)) = b.
Proof.
  apply to_byte_eq.
  pose proof (sextets_ok y 0%N (byte_lt_256 b) eq_refl) as H.
  repeat (apply andb_true_iff in H; destruct H as [H ?]).
  match goal with
    K : (N.lor (shl (shr y 4) 4) (shr (s2 y 0) 2) mod 256 =? y)%N = true |- _ =>
      apply N.eqb_eq in K; unfold s2 in K; change (shr 0 6) with 0%N in K;
      now rewrite N.lor_0_r in K end.
Qed.

Lemma left2 : N.land (s2 y z) 3 = shr z 6.
Proof. subst y z. facts b c. now apply N.eqb_eq. Qed.

Lemma byte3 : to_byte (N.lor (shl (shr z 6) 6) (s3 z)) = c.
Proof. apply to_byte_eq. subst z. facts c c. now apply N.eqb_eq. Qed.
End Group.

Lemma a2b_loop_encode (data : list byte) :
  forall acc,
    a2b_loop (b64encode data) 0%N 0%N 0%N acc = Some (rev acc ++ data)%list.
Proof.
  induction data as [|a|a b|a b c rest IH] using list_ind3; intro acc.
  - simpl. now rewrite app_nil_r.
  - cbn [b64encode].
    rewrite (a2b_loop_sextet _ _ _ _ _ _ (s0_lt a)). cbn [N.eqb].
    rewrite (a2b_loop_sextet _ _ _ _ _ _ (s1_pad_lt a)). cbn [N.eqb Pos.eqb].
    rewrite byte1_pad. cbn. reflexivity.
  - cbn [b64encode].
    rewrite (a2b_loop_sextet _ _ _ _ _ _ (s0_lt a)). cbn [N.eqb].
    rewrite (a2b_loop_sextet _ _ _ _ _ _ (s1_lt a b)). cbn [N.eqb Pos.eqb].
    rewrite byte1, left1.
    rewrite (a2b_loop_sextet _ _ _ _ _ _ (s2_pad_lt b)). cbn [N.eqb Pos.eqb].
    rewrite byte2_pad. cbn. now rewrite <- app_assoc.
  - cbn [b64encode].
    rewrite (a2b_loop_sextet _ _ _ _ _ _ (s0_lt a)). cbn [N.eqb].
    rewrite (a2b_loop_sextet _ _ _ _ _ _ (s1_lt a b)). cbn [N.eqb Pos.eqb].
    rewrite byte1, left1.
    rewrite (a2b_loop_sextet _ _ _ _ _ _ (s2_lt b c)). cbn [N.eqb Pos.eqb].
    rewrite byte2, left2.
    rewrite (a2b_loop_sextet _ _ _ _ _ _ (s3_lt c)). cbn [N.eqb Pos.eqb].
    rewrite byte3, IH. cbn [rev]. now rewrite <- !app_assoc.
Qed.

(** X26: the card of a message draws its download button under
    [if attachment:]: every non-empty file gets one, the empty file, whose
    stored text is empty, gets none. *)
Lemma download_offered_iff (data : list byte) :
  download_offered (choose_file data) = true <-> data <> [].
Proof.
  destruct data as [|a [|b [|c rest]]]; simpl; split; congruence.
Qed.

(** C9: for every byte sequence, the empty one included, decoding the
    base64 text that composing stored gives back the same bytes. *)
Theorem attachment_round_trip (data : list byte) :
  b64decode (b64encode data) = Some data /\
  match choose_file data with
  | Some text => save_attachment text = Some data
  | None => False
  end /\
  save_attachment (b64encode []) = Some [].
Proof.
  assert (R : forall l, b64decode (b64encode l) = Some l).
  { intro l. unfold b64decode. now rewrite b64encode_ascii, a2b_loop_encode. }
  split; [apply R|]. split; [apply R | reflexivity].
Qed.

End Base64Spec.

(* ================================================================= *)
(** ** The order on strings *)

Module StringOrder.

Lemma ascii_compare_spec (c1 c2 : ascii) :
  CompareSpec (c1 = c2) (N_of_ascii c1 < N_of_ascii c2)%N
    (N_of_ascii c2 < N_of_ascii c1)%N (Ascii.compare c1 c2).
Proof.
  unfold Ascii.compare.
  destruct (N.compare_spec (N_of_ascii c1) (N_of_ascii c2)) as [E|L|G];
    constructor; try assumption.
  rewrite <- (ascii_N_embedding c1), <- (ascii_N_embedding c2). now f_equal.
Qed.

Lemma compare_refl (s : string) : String.compare s s = Eq.
Proof.
  induction s as [|a s IH]; [reflexivity|]. simpl.
  unfold Ascii.compare. now rewrite N.compare_refl.
Qed.

Lemma ltb_irrefl (s : string) : String.ltb s s = false.
Proof. unfold String.ltb. now rewrite compare_refl. Qed.

Lemma leb_refl (s : string) : String.leb s s = true.
Proof. unfold String.leb. now rewrite compare_refl. Qed.

Lemma not_ltb_leb (s t : string) : String.ltb t s = false -> String.leb s t = true.
Proof.
  unfold String.ltb, String.leb. rewrite (String.compare_antisym s t).
  now destruct (String.compare t s).
Qed.

Lemma ltb_leb (s t : string) : String.ltb s t = true -> String.leb s t = true.
Proof. unfold String.ltb, String.leb. now destruct (String.compare s t). Qed.

Lemma ltb_neq (s t : string) : String.ltb s t = true -> s <> t.
Proof. intros H ->. rewrite ltb_irrefl in H. discriminate. Qed.

Lemma compare_trans (c : comparison) (s t u : string) :
  String.compare s t = c -> String.compare t u = c -> String.compare s u = c.
Proof.
  revert t u. induction s as [|a s IH]; intros [|b t] [|e u]; simpl;
    try congruence.
  destruct (ascii_compare_spec a b), (ascii_compare_spec b e),
    (ascii_compare_spec a e); subst; try congruence; try lia; eauto.
Qed.

Lemma leb_trans (s t u : string) :
  String.leb s t = true -> String.leb t u = true -> String.leb s u = true.
Proof.
  unfold String.leb. intros H1 H2.
  destruct (String.compare s t) eqn:E1; try discriminate;
  destruct (String.compare t u) eqn:E2; try discriminate.
  - apply String.compare_eq_iff in E1, E2. subst. now rewrite compare_refl.
  - apply String.compare_eq_iff in E1. subst. now rewrite E2.
  - apply String.compare_eq_iff in E2. subst. now rewrite E1.
  - now rewrite (compare_trans Lt s t u).
Qed.

Lemma ltb_empty_r (s : string) : String.ltb s "" = false.
Proof. now destruct s. Qed.

Lemma ltb_empty_l (s : string) : s <> "" -> String.ltb "" s = true.
Proof. destruct s; [congruence | reflexivity]. Qed.

Lemma leb_app_r (s r : string) : String.leb s (s ++ r) = true.
Proof.
  unfold String.leb. induction s as [|a s IH]; simpl.
  - now destruct r.
  - destruct (ascii_compare_spec a a); try lia. exact IH.
Qed.

End StringOrder.

(* ================================================================= *)
(** ** The sort of the folder views *)

Module SortSpec.
Import Text Store Mailbox Views SortedView StringOrder.

Section Stable.
Context {A : Type} (key : A -> string).

Lemma insert_by_perm (x : A) (l : list A) :
  Permutation (x :: l) (insert_by key x l).
Proof.
  induction l as [|y l IH]; simpl; [reflexivity|].
  destruct (String.ltb (key y) (key x)); [|reflexivity].
  rewrite perm_swap. now constructor.
Qed.

Lemma sort_by_perm (l : list A) : Permutation l (sort_by key l).
Proof.
  induction l as [|x l IH]; simpl; [reflexivity|].
  rewrite <- insert_by_perm. now constructor.
Qed.

Lemma insert_by_hd (x y : A) (l : list A) :
  HdRel (key_le key) y l -> (key_le key) y x -> HdRel (key_le key) y (insert_by key x l).
Proof.
  intros H Hx. destruct l as [|z l]; simpl; [now constructor|].
  destruct (String.ltb (key z) (key x)); constructor; [|assumption].
  now inversion H.
Qed.

Lemma insert_by_sorted (x : A) (l : list A) :
  Sorted (key_le key) l -> Sorted (key_le key) (insert_by key x l).
Proof.
  induction 1 as [|y l Hs IH Hd]; simpl; [repeat constructor|].
  destruct (String.ltb (key y) (key x)) eqn:E.
  - constructor; [assumption|]. apply insert_by_hd; [assumption|].
    now apply ltb_leb.
  - constructor; [now constructor|]. constructor. now apply not_ltb_leb.
Qed.

Lemma sort_by_sorted (l : list A) : StronglySorted (key_le key) (sort_by key l).
Proof.
  apply Sorted_StronglySorted.
  - intros a b c. apply leb_trans.
  - induction l as [|x l IH]; simpl; [constructor|].
    now apply insert_by_sorted.
Qed.

(** Stability: the messages of any one key keep their order. *)
Lemma insert_by_filter (k : string) (x : A) (l : list A) :
  filter (fun a => String.eqb (key a) k) (insert_by key x l)
  = filter (fun a => String.eqb (key a) k) (x :: l).
Proof.
  induction l as [|y l IH]; [reflexivity|].
  cbn [insert_by]. destruct (String.ltb (key y) (key x)) eqn:E; [|reflexivity].
  cbn [filter] in *. rewrite IH.
  destruct (String.eqb (key x) k) eqn:Ex; [|reflexivity].
  destruct (String.eqb (key y) k) eqn:Ey; [|reflexivity].
  apply String.eqb_eq in Ex, Ey. apply ltb_neq in E. congruence.
Qed.

Lemma sort_by_stable (k : string) (l : list A) :
  filter (fun a => String.eqb (key a) k) (sort_by key l)
  = filter (fun a => String.eqb (key a) k) l.
Proof.
  induction l as [|x l IH]; [reflexivity|].
  cbn [sort_by fold_right]. rewrite insert_by_filter.
  cbn [filter]. fold (sort_by key l). now rewrite IH.
Qed.

(** The messages with the empty key come first, in their original order. *)
Lemma insert_by_front (x : A) (l : list A) :
  key x = "" -> insert_by key x l = x :: l.
Proof.
  intro E. destruct l as [|y l]; [reflexivity|]. simpl.
  now rewrite E, ltb_empty_r.
Qed.

Lemma insert_by_past (x : A) (e l : list A) :
  Forall (fun y => String.ltb (key y) (key x) = true) e ->
  insert_by key x (e ++ l) = (e ++ insert_by key x l)%list.
Proof.
  induction 1 as [|y e Hy _ IH]; [reflexivity|].
  simpl. now rewrite Hy, IH.
Qed.

Lemma sort_by_empty_first (l : list A) :
  sort_by key l
  = (filter (fun a => String.eqb (key a) "") l
     ++ sort_by key (filter (fun a => negb (String.eqb (key a) "")) l))%list.
Proof.
  induction l as [|x l IH]; [reflexivity|].
  cbn [sort_by fold_right filter]. fold (sort_by key l). rewrite IH.
  destruct (String.eqb (key x) "") eqn:E; cbn [negb].
  - apply String.eqb_eq in E. now rewrite insert_by_front.
  - apply String.eqb_neq in E. rewrite insert_by_past; [reflexivity|].
    apply Forall_forall. intros y Hy. apply filter_In in Hy as [_ Hy].
    apply String.eqb_eq in Hy. rewrite Hy. now apply ltb_empty_l.
Qed.
End Stable.

Lemma or_empty_field (o : option string) : or_empty o = field o.
Proof. destruct o as [[|c s]|]; reflexivity. Qed.

Lemma lower_empty_iff (s : string) : lower s = "" <-> s = "".
Proof. destruct s; simpl; split; congruence. Qed.

Lemma sort_by_field (f : row -> option string) (l : list row) :
  sorted_by_field f l (sort_by (fun x => lower (or_empty (f x))) l).
Proof.
  assert (K : forall x, lower (or_empty (f x)) = lower (field (f x)))
    by (intro x; now rewrite or_empty_field).
  set (key := fun x => lower (or_empty (f x))).
  repeat split.
  - apply sort_by_perm.
  - pose proof (sort_by_sorted key l) as S.
    eapply StronglySorted_ind with (P := fun r => StronglySorted _ r);
      [constructor | | exact S].
    intros a r _ IH Hall. constructor; [exact IH|].
    eapply Forall_impl; [|exact Hall]. intros b Hb. unfold key_le, key in Hb.
    now rewrite !K in Hb.
  - intro k.
    rewrite !(filter_ext (fun m => String.eqb (lower (field (f m))) k)
                         (fun m => String.eqb (key m) k))
      by (intro m; unfold key; now rewrite K).
    apply (sort_by_stable key).
  - exists (sort_by key (filter (fun a => negb (String.eqb (key a) "")) l)).
    split.
    + rewrite (sort_by_empty_first key l). f_equal.
      apply filter_ext. intro m. unfold key. rewrite K.
      destruct (String.eqb (field (f m)) "") eqn:E.
      * apply String.eqb_eq in E. rewrite E. reflexivity.
      * apply String.eqb_neq in E. apply String.eqb_neq.
        now rewrite lower_empty_iff.
    + apply Forall_forall. intros m Hm.
      apply (Permutation_in _ (Permutation_sym (sort_by_perm key _))) in Hm.
      apply filter_In in Hm as [_ Hm]. apply negb_true_iff in Hm.
      apply String.eqb_neq in Hm. unfold key in Hm. rewrite K in Hm.
      now rewrite lower_empty_iff in Hm.
Qed.

Lemma lower_ascii_letter (c : ascii) (s : string) :
  (65 <= N_of_ascii c <= 90)%N ->
  lower (String c s) = String (ascii_of_N (N_of_ascii c + 32)) (lower s).
Proof.
  intro H. cbn [lower]. f_equal. unfold lower_char. cbv zeta.
  destruct (N.leb_spec 65 (N_of_ascii c)); [|lia].
  destruct (N.leb_spec (N_of_ascii c) 90); [|lia]. reflexivity.
Qed.

Lemma lower_ascii_other (c : ascii) (s : string) :
  (N_of_ascii c < 65 \/ 90 < N_of_ascii c < 192)%N ->
  lower (String c s) = String c (lower s).
Proof.
  intro H. cbn [lower]. f_equal. unfold lower_char. cbv zeta.
  destruct (N.leb_spec 65 (N_of_ascii c));
    destruct (N.leb_spec (N_of_ascii c) 90);
    destruct (N.leb_spec 192 (N_of_ascii c)); try lia; reflexivity.
Qed.

(** C6: in every folder view, sorting by Subject, and by Contact, returns
    the filtered messages in ascending order of the lower-cased field, a
    NULL field reading as the empty string and the empty keys coming first,
    and messages with equal keys keep the order the query returned them in.
    Lower-casing replaces each of the letters A..Z with a..z (the code point
    moves up by 32) and keeps every other character below U+00C0, so that
    "B" and "b" are one key and "a" sorts before "B". *)
Theorem refresh_sort_stable (inbox spam : bool) (user : string) (d : db)
    (search : string) :
  let filtered := search_filter search (fetch inbox spam user d) in
  sorted_by_field rsubject filtered (refresh inbox spam user d search "Subject") /\
  sorted_by_field person filtered
    (refresh inbox spam user d search "Sender/Recipient") /\
  (forall c s, (65 <= N_of_ascii c <= 90)%N ->
     lower (String c s) = String (ascii_of_N (N_of_ascii c + 32)) (lower s)) /\
  (forall c s, (N_of_ascii c < 65 \/ 90 < N_of_ascii c < 192)%N ->
     lower (String c s) = String c (lower s)) /\
  lower "" = "".
Proof.
  intro filtered. unfold refresh, sort_rows. fold filtered.
  change (String.eqb "Subject" "Subject") with true.
  change (String.eqb "Sender/Recipient" "Subject") with false.
  change (String.eqb "Sender/Recipient" "Sender/Recipient") with true.
  cbv iota. split; [apply sort_by_field|]. split; [apply sort_by_field|].
  split; [exact lower_ascii_letter|]. split; [exact lower_ascii_other|].
  reflexivity.
Qed.

(** An Inbox with the subjects B, a, C, b and a NULL one, in this order:
    sorted by Subject it reads NULL, a, B, b, C (B before b, as stored);
    sorted by Contact the senders read adam, Bob, bob, BOB, Zoe. *)
Lemma refresh_sort_stable_witness :
  map (fun r => (rid r, rsubject r))
    (refresh true false "u" Sample.mixed_case "" "Subject")
  = [(5, None); (2, Some "a"); (1, Some "B"); (4, Some "b"); (3, Some "C")] /\
  map (fun r => (rid r, person r))
    (refresh true false "u" Sample.mixed_case "" "Sender/Recipient")
  = [(2, Some "adam"); (3, Some "Bob"); (4, Some "bob"); (5, Some "BOB");
     (1, Some "Zoe")] /\
  Permutation (fetch true false "u" Sample.mixed_case)
    (refresh true false "u" Sample.mixed_case "" "Subject") /\
  lower "B" = "b" /\ lower "Re: LUNCH" = "re: lunch".
Proof.
  split; [reflexivity|]. split; [reflexivity|]. split.
  - exact (proj1 (proj1 (refresh_sort_stable true false "u" Sample.mixed_case ""))).
  - split.
    + exact (proj1 (proj2 (proj2
               (refresh_sort_stable true false "u" Sample.mixed_case "")))
               "B"%char "" ltac:(vm_compute; split; discriminate)).
    + reflexivity.
Defined.

End SortSpec.


(* ================================================================= *)
(** ** Calendar facts *)

Module CalendarSpec.
Import Calendar StringOrder.

Ltac split_eqb :=
  repeat match goal with
         | |- context [Z.eqb ?a ?b] => destruct (Z.eqb_spec a b)
         | |- context [Z.ltb ?a ?b] => destruct (Z.ltb_spec a b)
         | H : context [Z.eqb ?a ?b] |- _ => destruct (Z.eqb_spec a b)
         | H : context [Z.ltb ?a ?b] |- _ => destruct (Z.ltb_spec a b)
         end.

Lemma days_in_month_bounds (y m : Z) : 28 <= days_in_month y m <= 31.
Proof.
  unfold days_in_month. destruct (is_leap y); split_eqb; simpl; lia.
Qed.

Lemma days_in_december (y : Z) : days_in_month y 12 = 31.
Proof. reflexivity. Qed.

Lemma date_lt_trans (a b c : date) : date_lt a b -> date_lt b c -> date_lt a c.
Proof. unfold date_lt. lia. Qed.

Lemma date_lt_next (d : date) : date_lt d (next_day d).
Proof. unfold date_lt, next_day. split_eqb; simpl; lia. Qed.

Lemma date_lt_prev (d : date) : date_lt (prev_day d) d.
Proof. unfold date_lt, prev_day. split_eqb; simpl; lia. Qed.

Lemma year_prev_le (d : date) : year (prev_day d) <= year d.
Proof. unfold prev_day. split_eqb; simpl; lia. Qed.

Lemma year_prev_ge (d : date) : year d - 1 <= year (prev_day d).
Proof. unfold prev_day. split_eqb; simpl; lia. Qed.

(** Stepping back from a date Python can hold gives one it can hold too,
    unless the step leaves year 1; stepping forward again returns. *)
Lemma prev_day_valid (d : date) :
  valid d -> 1 <= year (prev_day d) ->
  valid (prev_day d) /\ next_day (prev_day d) = d.
Proof.
  destruct d as [y m dd]. unfold valid, prev_day, next_day. simpl.
  intros (Hy & Hm & Hd) Hp.
  destruct (Z.ltb_spec 1 dd); [|destruct (Z.ltb_spec 1 m)]; simpl in *.
  - split; [lia|]. destruct (Z.ltb_spec (dd - 1) (days_in_month y m)); [|lia].
    f_equal. lia.
  - pose proof (days_in_month_bounds y (m - 1)).
    split; [lia|]. rewrite Z.ltb_irrefl.
    destruct (Z.ltb_spec (m - 1) 12); [|lia]. f_equal; lia.
  - rewrite days_in_december. split; [lia|]. simpl. f_equal; lia.
Qed.

Lemma sub_days_S (d : date) (n : nat) :
  sub_days d (S n) = prev_day (sub_days d n).
Proof. reflexivity. Qed.

Lemma add_days_S (d : date) (n : nat) :
  add_days d (S n) = next_day (add_days d n).
Proof. reflexivity. Qed.

Lemma year_sub_days_le (d : date) (j n : nat) :
  (j <= n)%nat -> year (sub_days d n) <= year (sub_days d j).
Proof.
  induction 1 as [|n _ IH]; [lia|].
  rewrite sub_days_S. pose proof (year_prev_le (sub_days d n)). lia.
Qed.

Lemma sub_days_valid (d : date) (n : nat) :
  valid d -> 1 <= year (sub_days d n) ->
  forall j, (j <= n)%nat -> valid (sub_days d j).
Proof.
  intros Hd Hn j. induction j as [|j IH]; intro Hj; [exact Hd|].
  rewrite sub_days_S. apply prev_day_valid; [apply IH; lia|].
  rewrite <- sub_days_S. pose proof (year_sub_days_le d (S j) n Hj). lia.
Qed.

(** Counting forward from the start of a window reaches the same days as
    counting back from its end. *)
Lemma add_sub_days (d : date) (n : nat) :
  valid d -> 1 <= year (sub_days d n) ->
  forall k, (k <= n)%nat -> add_days (sub_days d n) k = sub_days d (n - k).
Proof.
  intros Hd Hn k. induction k as [|k IH]; intro Hk.
  - now rewrite Nat.sub_0_r.
  - rewrite add_days_S, IH by lia.
    replace (n - k)%nat with (S (n - S k)) by lia.
    rewrite sub_days_S. apply prev_day_valid.
    + apply (sub_days_valid d n); [assumption..|lia].
    + rewrite <- sub_days_S.
      pose proof (year_sub_days_le d (S (n - S k)) n). lia.
Qed.

Lemma date_lt_sub_days (d : date) (j n : nat) :
  (j < n)%nat -> date_lt (sub_days d n) (sub_days d j).
Proof.
  induction 1 as [|n _ IH].
  - rewrite sub_days_S. apply date_lt_prev.
  - eapply date_lt_trans; [|exact IH]. rewrite sub_days_S. apply date_lt_prev.
Qed.

End CalendarSpec.

(* ================================================================= *)
(** ** Zero-padded numbers compare as numbers *)

Module IsoOrder.
Import Calendar StringOrder CalendarSpec.

Lemma compare_digit (a b : Z) (s t : string) :
  String.compare (String (digit a) s) (String (digit b) t)
  = match a mod 10 ?= b mod 10 with
    | Eq => String.compare s t
    | c => c
    end.
Proof.
  cbn [String.compare]. unfold Ascii.compare, digit.
  pose proof (Z.mod_pos_bound a 10 eq_refl).
  pose proof (Z.mod_pos_bound b 10 eq_refl).
  rewrite !N_ascii_embedding by lia.
  replace (48 + Z.to_N (a mod 10) ?= 48 + Z.to_N (b mod 10))%N
    with (a mod 10 ?= b mod 10); [reflexivity|].
  destruct (Z.compare_spec (a mod 10) (b mod 10));
    symmetry; [apply N.compare_eq_iff | apply N.compare_lt_iff
              | apply N.compare_gt_iff]; lia.
Qed.

Lemma compare_pad2 (a b : Z) (s t : string) :
  0 <= a < 100 -> 0 <= b < 100 ->
  String.compare (pad2 a ++ s) (pad2 b ++ t)
  = match a ?= b with
    | Eq => String.compare s t
    | c => c
    end.
Proof.
  intros Ha Hb. unfold pad2. cbn [append]. rewrite !compare_digit.
  destruct (Z.compare_spec ((a / 10) mod 10) ((b / 10) mod 10));
  destruct (Z.compare_spec (a mod 10) (b mod 10));
  destruct (Z.compare_spec a b);
  try reflexivity; exfalso; Z.to_euclidean_division_equations; lia.
Qed.

Lemma pad4_pad2 (a : Z) (s : string) :
  pad4 a ++ s = pad2 (a / 100) ++ pad2 (a mod 100) ++ s.
Proof.
  assert (E : forall u v, u mod 10 = v mod 10 -> digit u = digit v)
    by (intros u v H; unfold digit; now rewrite H).
  unfold pad4, pad2. cbn [append].
  rewrite (E (a / 1000) (a / 100 / 10)),
    (E (a / 10) (a mod 100 / 10)), (E a (a mod 100));
    try reflexivity; Z.to_euclidean_division_equations; lia.
Qed.

Lemma compare_pad4 (a b : Z) (s t : string) :
  0 <= a <= 9999 -> 0 <= b <= 9999 ->
  String.compare (pad4 a ++ s) (pad4 b ++ t)
  = match a ?= b with
    | Eq => String.compare s t
    | c => c
    end.
Proof.
  intros Ha Hb. rewrite !pad4_pad2.
  rewrite compare_pad2 by (Z.to_euclidean_division_equations; lia).
  rewrite compare_pad2 by (Z.to_euclidean_division_equations; lia).
  destruct (Z.compare_spec (a / 100) (b / 100));
  destruct (Z.compare_spec (a mod 100) (b mod 100));
  destruct (Z.compare_spec a b);
  try reflexivity; exfalso; Z.to_euclidean_division_equations; lia.
Qed.

Lemma compare_dash (s t : string) :
  String.compare ("-" ++ s) ("-" ++ t) = String.compare s t.
Proof. reflexivity. Qed.

(** Two texts that start with a year and a month in the format YYYY-MM are
    ordered by that year and month when these differ. *)
Lemma ltb_year_month (y1 m1 y2 m2 : Z) (s t : string) :
  0 <= y1 <= 9999 -> 0 <= y2 <= 9999 -> 0 <= m1 < 100 -> 0 <= m2 < 100 ->
  y1 < y2 \/ (y1 = y2 /\ m1 < m2) ->
  String.ltb (pad4 y1 ++ "-" ++ pad2 m1 ++ s) (pad4 y2 ++ "-" ++ pad2 m2 ++ t)
  = true.
Proof.
  intros Hy1 Hy2 Hm1 Hm2 H. unfold String.ltb.
  rewrite compare_pad4, compare_dash, compare_pad2 by assumption.
  destruct (Z.compare_spec y1 y2); [|reflexivity|lia].
  destruct (Z.compare_spec m1 m2); [lia|reflexivity|lia].
Qed.

Lemma isoformat_app (d : date) :
  isoformat d = pad4 (year d) ++ "-" ++ pad2 (month d) ++ "-" ++ pad2 (day d) ++ "".
Proof. reflexivity. Qed.

(** [isoformat] turns calendar order into text order. *)
Lemma ltb_isoformat (a b : date) :
  valid a -> valid b -> date_lt a b ->
  String.ltb (isoformat a) (isoformat b) = true.
Proof.
  intros (Hya & Hma & Hda) (Hyb & Hmb & Hdb) H.
  pose proof (days_in_month_bounds (year a) (month a)).
  pose proof (days_in_month_bounds (year b) (month b)).
  rewrite !isoformat_app. unfold String.ltb.
  rewrite compare_pad4, compare_dash, compare_pad2, compare_dash, compare_pad2
    by lia.
  unfold date_lt in H.
  destruct (Z.compare_spec (year a) (year b)); [|reflexivity|lia].
  destruct (Z.compare_spec (month a) (month b)); [|reflexivity|lia].
  destruct (Z.compare_spec (day a) (day b)); [lia|reflexivity|lia].
Qed.

Lemma length_pad2 (n : Z) : String.length (pad2 n) = 2%nat.
Proof. reflexivity. Qed.

(** A text is the concatenation of its first [n] characters and a rest. *)
Lemma take_prefix (n : nat) (s : string) : exists rest, s = Text.take n s ++ rest.
Proof.
  unfold Text.take. revert s. induction n as [|n IH]; intros [|c s].
  - now exists "".
  - now exists (String c s).
  - now exists "".
  - destruct (IH s) as [rest E]. exists rest. simpl. now rewrite <- E.
Qed.

(** A text whose first characters are a key above [since] passes the
    query's test [timestamp >= since]. *)
Lemma leb_of_prefix (since k ts : string) (n : nat) :
  String.leb since k = true -> Text.take n ts = k -> String.leb since ts = true.
Proof.
  intros H E. destruct (take_prefix n ts) as [rest Ets]. rewrite E in Ets.
  rewrite Ets. eapply leb_trans; [exact H | apply leb_app_r].
Qed.

End IsoOrder.

(* ================================================================= *)
(** ** Dictionaries, grouped counts and the fill loop *)

Module TallySpec.
Import Text Sql Store Analytics Views StringOrder.

Lemma count_cons {A} (p : A -> bool) (x : A) (l : list A) :
  count p (x :: l) = (if p x then 1 else 0) + count p l.
Proof. unfold count. simpl. destruct (p x); cbn [List.length]; lia. Qed.

Lemma count_app {A} (p : A -> bool) (l1 l2 : list A) :
  count p (l1 ++ l2) = count p l1 + count p l2.
Proof. unfold count. rewrite filter_app, length_app. lia. Qed.

Lemma ltb_trans (s t u : string) :
  String.ltb s t = true -> String.ltb t u = true -> String.ltb s u = true.
Proof.
  unfold String.ltb. intros H1 H2.
  destruct (String.compare s t) eqn:E1; try discriminate.
  destruct (String.compare t u) eqn:E2; try discriminate.
  now rewrite (compare_trans Lt s t u).
Qed.

Lemma ascending_NoDup (keys : list string) : ascending keys -> NoDup keys.
Proof.
  induction 1 as [|k keys _ IH Hall]; constructor; [|assumption].
  intro Hin. rewrite Forall_forall in Hall. specialize (Hall _ Hin).
  rewrite ltb_irrefl in Hall. discriminate.
Qed.

Lemma ascending_map_seq (f : nat -> string) (a n : nat) :
  (forall i j, (a <= i < j)%nat -> (j < a + n)%nat ->
               String.ltb (f i) (f j) = true) ->
  ascending (map f (seq a n)).
Proof.
  revert a. induction n as [|n IH]; intros a H; [constructor|].
  simpl. constructor.
  - apply IH. intros i j Hi Hj. apply H; lia.
  - apply Forall_forall. intros s Hs. apply in_map_iff in Hs as (j & <- & Hj).
    apply in_seq in Hj. apply H; lia.
Qed.

(** *** [dict] *)

Lemma dict_set_new (k : string) (v : Z) (d : dict) :
  ~ In k (dict_keys d) -> dict_set k v d = (d ++ [(k, v)])%list.
Proof.
  induction d as [|[k' v'] d IH]; simpl; intro H; [reflexivity|].
  destruct (String.eqb_spec k' k) as [->|_]; [exfalso; apply H; now left|].
  rewrite IH; [reflexivity|]. intro Hin. apply H. now right.
Qed.

Lemma dict_init (keys : list string) :
  forall acc, NoDup (dict_keys acc ++ keys) ->
  fold_left (fun acc k => dict_set k 0 acc) keys acc
  = (acc ++ map (fun k => (k, 0)) keys)%list.
Proof.
  induction keys as [|k keys IH]; intros acc H; simpl.
  - now rewrite app_nil_r.
  - rewrite dict_set_new.
    + rewrite IH; [now rewrite <- app_assoc|].
      unfold dict_keys in *. rewrite map_app, <- app_assoc. exact H.
    + apply NoDup_remove_2 in H. intro Hin. apply H. apply in_or_app. now left.
Qed.

Lemma fold_left_map {A B C} (f : A -> B -> A) (g : C -> B) (l : list C) :
  forall acc, fold_left f (map g l) acc = fold_left (fun a i => f a (g i)) l acc.
Proof. induction l as [|x l IH]; intro acc; simpl; [reflexivity | apply IH]. Qed.

(** *** Grouped counts *)

Lemma bump_keys (k : string) (rows : list (string * Z)) (x : string) :
  In x (map fst (bump k rows)) -> x = k \/ In x (map fst rows).
Proof.
  induction rows as [|[h n] rest IH]; simpl.
  - intros [H|[]]. now left.
  - destruct (String.compare k h); simpl; intuition.
Qed.

Lemma bump_sorted (k : string) (rows : list (string * Z)) :
  ascending (map fst rows) -> ascending (map fst (bump k rows)).
Proof.
  unfold ascending.
  induction rows as [|[h n] rest IH]; simpl; intro H.
  - repeat constructor.
  - inversion H as [|? ? Hs Hall]; subst.
    destruct (String.compare k h) eqn:E; simpl.
    + exact H.
    + constructor; [exact H|]. constructor.
      * unfold String.ltb. now rewrite E.
      * eapply Forall_impl; [|exact Hall]. intros x Hx.
        apply (ltb_trans k h x); [|exact Hx]. unfold String.ltb. now rewrite E.
    + constructor; [now apply IH|]. apply Forall_forall. intros x Hx.
      apply bump_keys in Hx as [->|Hx].
      * unfold String.ltb. rewrite String.compare_antisym, E. reflexivity.
      * rewrite Forall_forall in Hall. now apply Hall.
Qed.

Lemma dict_get_absent (k : string) (rows : list (string * Z)) :
  ~ In k (map fst rows) -> dict_get k rows = None.
Proof.
  induction rows as [|[h n] rest IH]; simpl; intro H; [reflexivity|].
  destruct (String.eqb_spec h k) as [->|_]; [exfalso; apply H; now left|].
  apply IH. intro Hin. apply H. now right.
Qed.

Lemma tally_bump (k x : string) (rows : list (string * Z)) :
  ascending (map fst rows) ->
  tally x (bump k rows) = tally x rows + (if String.eqb k x then 1 else 0).
Proof.
  unfold tally, ascending.
  induction rows as [|[h n] rest IH]; simpl; intro H.
  - now destruct (String.eqb k x).
  - inversion H as [|? ? Hs Hall]; subst.
    destruct (String.compare k h) eqn:E; simpl.
    + apply String.compare_eq_iff in E. subst h.
      destruct (String.eqb k x); lia.
    + assert (Hk : k <> h)
        by (apply ltb_neq; unfold String.ltb; now rewrite E).
      destruct (String.eqb_spec k x) as [<-|Hx].
      * destruct (String.eqb_spec h k) as [->|_]; [congruence|].
        rewrite dict_get_absent; [reflexivity|].
        intro Hin. rewrite Forall_forall in Hall. specialize (Hall _ Hin).
        assert (L : String.ltb k k = true).
        { apply (ltb_trans k h k); [|exact Hall].
          unfold String.ltb. now rewrite E. }
        rewrite ltb_irrefl in L. discriminate.
      * lia.
    + destruct (String.eqb_spec h x) as [->|Hx].
      * destruct (String.eqb_spec k x) as [->|_]; [|lia].
        rewrite compare_refl in E. discriminate.
      * now apply IH.
Qed.

Lemma fold_bump (l : list string) :
  forall acc, ascending (map fst acc) ->
  ascending (map fst (fold_left (fun acc k => bump k acc) l acc)) /\
  forall x, tally x (fold_left (fun acc k => bump k acc) l acc)
            = tally x acc + count (fun s => String.eqb s x) l.
Proof.
  induction l as [|k l IH]; intros acc H; simpl.
  - split; [assumption|]. intro x. unfold count. simpl. lia.
  - destruct (IH (bump k acc) (bump_sorted k acc H)) as [S T].
    split; [assumption|]. intro x.
    rewrite T, tally_bump, count_cons by assumption. lia.
Qed.

Lemma group_count_sorted (l : list string) :
  ascending (map fst (group_count l)).
Proof. apply fold_bump. constructor. Qed.

Lemma tally_group_count (l : list string) (x : string) :
  tally x (group_count l) = count (fun s => String.eqb s x) l.
Proof.
  unfold group_count.
  rewrite (proj2 (fold_bump l [] (SSorted_nil _)) x). reflexivity.
Qed.

(** *** The fill loop *)

Lemma map_unchanged {A} (g : A -> A) (l : list A) :
  (forall x, In x l -> g x = x) -> map g l = l.
Proof.
  induction l as [|x l IH]; intro H; simpl; [reflexivity|].
  rewrite H by now left. rewrite IH; [reflexivity|].
  intros y Hy. apply H. now right.
Qed.

Lemma set_as_map (k : string) (c : Z) (acc : dict) :
  NoDup (dict_keys acc) ->
  (if dict_mem k acc then dict_set k c acc else acc)
  = map (fun kv => (fst kv, if String.eqb (fst kv) k then c else snd kv)) acc.
Proof.
  induction acc as [|[h v] acc IH]; simpl; intro H; [reflexivity|].
  inversion H as [|? ? Hh Hnd]; subst.
  destruct (String.eqb_spec h k) as [->|Hk]; simpl.
  - f_equal. symmetry. apply map_unchanged. intros [h' v'] Hin. simpl.
    destruct (String.eqb_spec h' k) as [->|_]; [|reflexivity].
    exfalso. apply Hh. apply in_map_iff. now exists (k, v').
  - specialize (IH Hnd). destruct (dict_mem k acc); now rewrite <- IH.
Qed.

Lemma keys_set_as_map (k : string) (c : Z) (acc : dict) :
  dict_keys (map (fun kv => (fst kv, if String.eqb (fst kv) k then c else snd kv))
               acc) = dict_keys acc.
Proof. unfold dict_keys. rewrite map_map. reflexivity. Qed.

Lemma fill_spec (rows : list (string * Z)) :
  forall counts, NoDup (map fst rows) -> NoDup (dict_keys counts) ->
  fill rows counts
  = map (fun kv => (fst kv, match dict_get (fst kv) rows with
                            | Some c => c
                            | None => snd kv
                            end)) counts.
Proof.
  unfold fill.
  induction rows as [|[k c] rows IH]; intros counts Hr Hc; simpl.
  - symmetry. apply map_unchanged. now intros [h v] _.
  - inversion Hr as [|? ? Hk Hnd]; subst.
    rewrite set_as_map by assumption.
    rewrite IH; [|assumption | now rewrite keys_set_as_map].
    rewrite map_map. apply map_ext. intros [h v]. simpl.
    destruct (String.eqb_spec h k) as [->|Hh].
    + rewrite String.eqb_refl. now rewrite dict_get_absent.
    + destruct (String.eqb_spec k h) as [->|_]; [congruence | reflexivity].
Qed.

Lemma fill_fresh (rows : list (string * Z)) (keys : list string) :
  ascending (map fst rows) -> NoDup keys ->
  fill rows (map (fun k => (k, 0)) keys)
  = map (fun k => (k, tally k rows)) keys.
Proof.
  intros Hr Hk. rewrite fill_spec.
  - rewrite map_map. reflexivity.
  - now apply ascending_NoDup.
  - unfold dict_keys. rewrite map_map. simpl. now rewrite map_id.
Qed.

(** *** From the selected timestamps back to the messages *)

Lemma count_stamps (n : nat) (cond : email -> tv) (p : email -> bool)
    (k : string) (es : list email) :
  (forall e, stamp_is n k e = true -> holds (cond e) = p e) ->
  count (fun s => String.eqb s k) (stamps n cond es)
  = count (fun e => p e && stamp_is n k e) es.
Proof.
  intro H. induction es as [|e es IH]; [reflexivity|].
  cbn [stamps flat_map]. fold (stamps n cond es).
  rewrite count_app, count_cons, IH. f_equal.
  specialize (H e). unfold stamp_is in *.
  destruct (timestamp e) as [ts|].
  - destruct (String.eqb (take n ts) k) eqn:E.
    + rewrite <- H by reflexivity. destruct (holds (cond e)); [|reflexivity].
      unfold count. simpl. now rewrite E.
    + rewrite andb_false_r. destruct (holds (cond e)); [|reflexivity].
      unfold count. simpl. now rewrite E.
  - rewrite andb_false_r. now destruct (holds (cond e)).
Qed.

Lemma sum_indicator (x : string) (keys : list string) :
  NoDup keys ->
  sum (map (fun k => if String.eqb x k then 1 else 0) keys)
  = if existsb (String.eqb x) keys then 1 else 0.
Proof.
  induction 1 as [|k keys Hk _ IH]; [reflexivity|].
  simpl. rewrite IH. destruct (String.eqb_spec x k) as [->|_]; simpl.
  - destruct (existsb (String.eqb k) keys) eqn:E; [|reflexivity].
    apply existsb_exists in E as (y & Hy & E). apply String.eqb_eq in E.
    subst y. contradiction.
  - reflexivity.
Qed.

Lemma sum_counts (n : nat) (p : email -> bool) (keys : list string)
    (es : list email) :
  NoDup keys ->
  sum (map (fun k => count (fun e => p e && stamp_is n k e) es) keys)
  = count (fun e => p e && stamp_in n keys e) es.
Proof.
  intro Hk. induction es as [|e es IH].
  - unfold count. simpl. induction keys; simpl; [reflexivity|].
    inversion Hk; subst. now rewrite IHkeys.
  - rewrite count_cons, <- IH.
    transitivity
      (sum (map (fun k => if p e && stamp_is n k e then 1 else 0) keys)
       + sum (map (fun k => count (fun e => p e && stamp_is n k e) es) keys)).
    + clear. induction keys as [|k keys IHk]; [reflexivity|].
      simpl. rewrite count_cons, IHk. lia.
    + f_equal. unfold stamp_is, stamp_in. destruct (p e); simpl.
      * destruct (timestamp e) as [ts|].
        -- now apply sum_indicator.
        -- clear. induction keys; simpl; [reflexivity | now rewrite IHkeys].
      * clear. induction keys; simpl; [reflexivity | now rewrite IHkeys].
Qed.

End TallySpec.


(* ================================================================= *)
(** ** The per-day and per-month series *)

Module AnalyticsSpec.
Import Text Sql Store Calendar Analytics Views.
Import StringOrder CalendarSpec IsoOrder TallySpec MailboxSpec.

Lemma holds_involves (user : string) (e : email) :
  holds (involves user e) = involved user e.
Proof.
  unfold involves, involved.
  now rewrite holds_or3, holds_eq_sender, holds_eq_recipient.
Qed.

Lemma holds_ge_prefix (since k : string) (n : nat) (e : email) :
  String.leb since k = true -> stamp_is n k e = true ->
  holds (ge_text (timestamp e) since) = true.
Proof.
  unfold stamp_is. destruct (timestamp e) as [ts|]; [|discriminate].
  intros H E. apply String.eqb_eq in E. simpl.
  now rewrite (leb_of_prefix since k ts n H E).
Qed.

(** The series a query and its fill loop produce over a set of keys that
    all pass the query's lower bound [since]. *)
Lemma series (n : nat) (cond : email -> tv) (p : email -> bool)
    (since : string) (keys : list string) (es : list email) :
  ascending keys ->
  (forall k, In k keys -> String.leb since k = true) ->
  (forall e, holds (cond e) = p e && holds (ge_text (timestamp e) since)) ->
  fill (group_count (stamps n cond es)) (map (fun k => (k, 0)) keys)
  = map (fun k => (k, count (fun e => p e && stamp_is n k e) es)) keys.
Proof.
  intros Ha Hk Hc.
  rewrite fill_fresh by (apply group_count_sorted || now apply ascending_NoDup).
  apply map_ext_in. intros k Hin. f_equal.
  rewrite tally_group_count. apply count_stamps.
  intros e He. rewrite Hc, (holds_ge_prefix since k n e (Hk k Hin) He).
  apply andb_true_r.
Qed.

Lemma sum_series (n : nat) (p : email -> bool) (keys : list string)
    (es : list email) :
  ascending keys ->
  sum (dict_values
         (map (fun k => (k, count (fun e => p e && stamp_is n k e) es)) keys))
  = count (fun e => p e && stamp_in n keys e) es.
Proof.
  intro Ha. unfold dict_values. rewrite map_map. simpl.
  apply sum_counts. now apply ascending_NoDup.
Qed.

(** *** The timestamp of a message and the key of an entry *)

Lemma take_of_app (k rest : string) : take (String.length k) (k ++ rest) = k.
Proof.
  unfold take. induction k as [|c k IH]; simpl.
  - now destruct rest.
  - now rewrite IH.
Qed.

Lemma dated_on_iff (k : string) (e : email) :
  dated_on k e = true <-> exists rest, timestamp e = Some (k ++ rest).
Proof.
  unfold dated_on. destruct (timestamp e) as [ts|].
  - split.
    + intro H. destruct (TextFacts.prefix_split k ts H) as [rest ->].
      now exists rest.
    + intros [rest [= ->]]. apply TextFacts.prefix_app.
  - split; [discriminate | intros [rest H]; discriminate].
Qed.

(** Cutting the timestamp to the length of the key and comparing is asking
    whether the timestamp begins with the key. *)
Lemma stamp_is_dated (k : string) (e : email) :
  stamp_is (String.length k) k e = dated_on k e.
Proof.
  unfold stamp_is, dated_on. destruct (timestamp e) as [ts|]; [|reflexivity].
  destruct (String.prefix k ts) eqn:P.
  - destruct (TextFacts.prefix_split k ts P) as [rest ->].
    rewrite take_of_app. apply String.eqb_refl.
  - apply String.eqb_neq. intro E.
    destruct (take_prefix (String.length k) ts) as [rest Ets].
    rewrite E in Ets. rewrite Ets, TextFacts.prefix_app in P. discriminate.
Qed.

Lemma stamp_in_dated (n : nat) (keys : list string) (e : email) :
  Forall (fun k => String.length k = n) keys ->
  stamp_in n keys e = dated_in keys e.
Proof.
  intro H. unfold dated_in.
  transitivity (existsb (fun k => stamp_is n k e) keys).
  - unfold stamp_in, stamp_is. destruct (timestamp e) as [ts|]; [reflexivity|].
    clear H. induction keys as [|k keys IH]; [reflexivity | exact IH].
  - induction H as [|k keys <- _ IH]; [reflexivity|].
    simpl. now rewrite stamp_is_dated, IH.
Qed.

Lemma count_agree {A} (p q : A -> bool) (l : list A) :
  (forall x, p x = q x) -> count p l = count q l.
Proof. intro H. unfold count. now rewrite (filter_ext p q H). Qed.

Lemma dated_series (n : nat) (p : email -> bool) (keys : list string)
    (es : list email) :
  Forall (fun k => String.length k = n) keys ->
  map (fun k => (k, count (fun e => p e && stamp_is n k e) es)) keys
  = map (fun k => (k, count (fun e => p e && dated_on k e) es)) keys.
Proof.
  intro H. apply map_ext_in. intros k Hk. f_equal.
  rewrite Forall_forall in H. rewrite <- (H k Hk).
  apply count_agree. intro e. now rewrite stamp_is_dated.
Qed.

Lemma involved_iff (user : string) (e : email) :
  involved user e = true <-> sender e = Some user \/ recipient e = Some user.
Proof.
  unfold involved. now rewrite orb_true_iff, sent_by_iff, received_by_iff.
Qed.

Lemma day_window_lengths (today : date) :
  Forall (fun k => String.length k = 10%nat) (day_window today).
Proof.
  unfold day_window. apply Forall_forall. intros k Hk.
  apply in_map_iff in Hk as (i & <- & _). reflexivity.
Qed.

Lemma month_window_lengths (today : date) :
  Forall (fun k => String.length k = 7%nat) (month_window today).
Proof.
  unfold month_window. apply Forall_forall. intros k Hk.
  apply in_map_iff in Hk as (i & <- & _). reflexivity.
Qed.

(** *** The number of a day *)

Ltac split_tests :=
  repeat match goal with
         | |- context [Z.eqb ?a ?b] => destruct (Z.eqb_spec a b)
         | |- context [Z.ltb ?a ?b] => destruct (Z.ltb_spec a b)
         | |- context [Z.leb ?a ?b] => destruct (Z.leb_spec a b)
         end.

Lemma prev_day_number (d : date) :
  1 <= month d <= 12 -> 1 <= day d ->
  day_number (prev_day d) = day_number d - 1.
Proof.
  destruct d as [y m dd]. cbn [year month day]. intros Hm Hd.
  unfold prev_day, day_number. cbn [year month day].
  destruct (Z.ltb_spec 1 dd).
  - cbn [year month day]. destruct (Z.leb_spec m 2); lia.
  - assert (dd = 1) by lia. subst dd.
    destruct (Z.ltb_spec 1 m).
    + cbn [year month day]. unfold days_in_month, is_leap.
      assert (C : m = 2 \/ m = 3 \/ m = 4 \/ m = 5 \/ m = 6 \/ m = 7 \/ m = 8
                  \/ m = 9 \/ m = 10 \/ m = 11 \/ m = 12) by lia.
      repeat (destruct C as [C|C]; [subst m; split_tests; try lia;
                cbn [andb orb negb];
                Z.to_euclidean_division_equations; lia|]).
      subst m; split_tests; try lia; cbn [andb orb negb];
        Z.to_euclidean_division_equations; lia.
    + assert (m = 1) by lia. subst m. cbn [year month day].
      split_tests; try lia. Z.to_euclidean_division_equations; lia.
Qed.

(** *** Emails per day *)

Lemma keys_of_series (f : string -> Z) (keys : list string) :
  dict_keys (map (fun k => (k, f k)) keys) = keys.
Proof.
  unfold dict_keys. rewrite map_map. cbn [fst]. apply map_id.
Qed.

Section Daily.
Variable today : date.
Hypothesis today_valid : valid today.
Hypothesis start_valid : valid (sub_days today 29).

Lemma start_year : 1 <= year (sub_days today 29).
Proof. destruct start_valid as [H _]. lia. Qed.

Lemma window_days_valid (j : nat) : (j <= 29)%nat -> valid (sub_days today j).
Proof. apply (sub_days_valid today 29 today_valid start_year). Qed.

Lemma day_window_forward :
  map (fun i => isoformat (add_days (sub_days today 29) i)) (seq 0 30)
  = day_window today.
Proof.
  unfold day_window. apply map_ext_in. intros i Hi. apply in_seq in Hi.
  rewrite (add_sub_days today 29 today_valid start_year) by lia. reflexivity.
Qed.

Lemma day_window_ascending : ascending (day_window today).
Proof.
  unfold day_window. apply ascending_map_seq. intros i j Hi Hj.
  apply ltb_isoformat; try (apply window_days_valid; lia).
  apply date_lt_sub_days. lia.
Qed.

Lemma day_window_above_start (k : string) :
  In k (day_window today) ->
  String.leb (isoformat (sub_days today 29)) k = true.
Proof.
  unfold day_window. intro H. apply in_map_iff in H as (i & <- & Hi).
  apply in_seq in Hi. destruct i as [|i].
  - apply leb_refl.
  - apply ltb_leb. apply ltb_isoformat; try (apply window_days_valid; lia).
    apply date_lt_sub_days. lia.
Qed.

Lemma daily_init_fresh :
  daily_init (sub_days today 29) = map (fun k => (k, 0)) (day_window today).
Proof.
  unfold daily_init.
  rewrite <- (fold_left_map (fun acc k => dict_set k 0 acc)
                (fun i => isoformat (add_days (sub_days today 29) i))).
  rewrite day_window_forward. rewrite dict_init; [reflexivity|].
  simpl. apply ascending_NoDup, day_window_ascending.
Qed.

Lemma daily_counts_series (user : string) (d : db) :
  daily_counts user today d
  = map (fun k => (k, count (fun e => involved user e && stamp_is 10 k e)
                        (emails d))) (day_window today).
Proof.
  unfold daily_counts, daily_rows. rewrite daily_init_fresh.
  apply (series 10 _ (involved user) (isoformat (sub_days today 29))).
  - apply day_window_ascending.
  - apply day_window_above_start.
  - intro e. unfold daily_cond. now rewrite holds_and3, holds_involves.
Qed.

Lemma window_day_number (j : nat) :
  (j <= 29)%nat ->
  day_number (sub_days today j) = day_number today - Z.of_nat j.
Proof.
  induction j as [|j IH]; intro Hj.
  - simpl. lia.
  - rewrite sub_days_S.
    destruct (window_days_valid j) as (_ & Hm & Hd); [lia|].
    rewrite prev_day_number by lia. rewrite IH by lia. lia.
Qed.
End Daily.

(** C3: when [today] and the day 29 days before it are dates Python can
    hold, the per-day series has exactly 30 entries; its keys are the ISO
    dates of the 30 consecutive days that end with [today] (day after day,
    each one numbered one more than the day before), in ascending order;
    each entry, zero included, is the number of the user's messages (as
    sender or recipient) whose timestamp begins with the date of that day;
    and the entries add up to the number of the user's messages dated in the
    window. *)
Theorem daily_counts_window (user : string) (today : date) (d : db) :
  valid today -> valid (sub_days today 29) ->
  let result := daily_counts user today d in
  List.length result = 30%nat /\
  dict_keys result = day_window today /\
  nth 29 (dict_keys result) "" = isoformat today /\
  ascending (dict_keys result) /\
  (forall i j, (i < j < 30)%nat ->
     date_lt (sub_days today (29 - i)) (sub_days today (29 - j))) /\
  (forall i, (i < 30)%nat ->
     nth i (dict_keys result) "" = isoformat (sub_days today (29 - i)) /\
     day_number (sub_days today (29 - i)) = day_number today - 29 + Z.of_nat i) /\
  result = map (fun k => (k, count (fun e => involved user e && dated_on k e)
                               (emails d))) (day_window today) /\
  sum (dict_values result)
  = count (fun e => involved user e && dated_in (day_window today) e)
      (emails d) /\
  (forall k e, dated_on k e = true <->
               exists rest, timestamp e = Some (k ++ rest)) /\
  (forall e, involved user e = true <->
             sender e = Some user \/ recipient e = Some user).
Proof.
  intros Ht Hs result. subst result.
  rewrite (daily_counts_series today Ht Hs user d).
  rewrite keys_of_series.
  split; [|split; [|split; [|split; [|split; [|split; [|split;
    [|split; [|split]]]]]]]].
  - now rewrite length_map.
  - reflexivity.
  - reflexivity.
  - apply day_window_ascending; assumption.
  - intros i j Hij. apply date_lt_sub_days. lia.
  - intros i Hi. split.
    + unfold day_window.
      rewrite (nth_indep _ "" (isoformat (sub_days today (29 - 0))))
        by (rewrite length_map, length_seq; exact Hi).
      rewrite (map_nth (fun i => isoformat (sub_days today (29 - i)))).
      now rewrite seq_nth.
    + rewrite (window_day_number today Ht Hs) by lia. lia.
  - apply dated_series, day_window_lengths.
  - rewrite sum_series by (apply day_window_ascending; assumption).
    apply count_agree. intro e.
    now rewrite (stamp_in_dated 10 _ e (day_window_lengths today)).
  - apply dated_on_iff.
  - apply involved_iff.
Qed.

(** The 30 days up to 10 March 2024 run through the leap day: bob has two
    messages on 29 February, one on 1 March and one on 10 March; the ones of
    9 February and of 11 March lie outside, and so does the mail of others.
    A year earlier 28 February is followed by 1 March. *)
Lemma daily_counts_window_witness :
  daily_counts "bob" (mkDate 2024 3 10) Sample.leap_mail
  = [("2024-02-10", 0); ("2024-02-11", 0); ("2024-02-12", 0); ("2024-02-13", 0);
     ("2024-02-14", 0); ("2024-02-15", 0); ("2024-02-16", 0); ("2024-02-17", 0);
     ("2024-02-18", 0); ("2024-02-19", 0); ("2024-02-20", 0); ("2024-02-21", 0);
     ("2024-02-22", 0); ("2024-02-23", 0); ("2024-02-24", 0); ("2024-02-25", 0);
     ("2024-02-26", 0); ("2024-02-27", 0); ("2024-02-28", 0); ("2024-02-29", 2);
     ("2024-03-01", 1); ("2024-03-02", 0); ("2024-03-03", 0); ("2024-03-04", 0);
     ("2024-03-05", 0); ("2024-03-06", 0); ("2024-03-07", 0); ("2024-03-08", 0);
     ("2024-03-09", 0); ("2024-03-10", 1)] /\
  List.length (daily_counts "bob" (mkDate 2026 11 3) Sample.two_users) = 30%nat /\
  sum (dict_values (daily_counts "bob" (mkDate 2026 11 3) Sample.two_users)) = 2 /\
  sum (dict_values (daily_counts "bob" (mkDate 2023 3 10) Sample.leap_mail)) = 0 /\
  nth 19 (dict_keys (daily_counts "bob" (mkDate 2023 3 10) Sample.leap_mail)) ""
  = "2023-02-28" /\
  nth 20 (dict_keys (daily_counts "bob" (mkDate 2023 3 10) Sample.leap_mail)) ""
  = "2023-03-01".
Proof.
  assert (V : forall y m dd,
             (((1 <=? y) && (y <=? 9999) && (1 <=? m) && (m <=? 12) && (1 <=? dd)
               && (dd <=? days_in_month y m)) = true) ->
             valid (mkDate y m dd)).
  { intros y m dd H. unfold valid. cbn [year month day].
    repeat (apply andb_prop in H as [H ?]). repeat split; now apply Z.leb_le. }
  pose proof (daily_counts_window "bob" (mkDate 2024 3 10) Sample.leap_mail
                (V 2024 3 10 eq_refl) (V 2024 2 10 eq_refl)) as L.
  pose proof (daily_counts_window "bob" (mkDate 2026 11 3) Sample.two_users
                (V 2026 11 3 eq_refl) (V 2026 10 5 eq_refl)) as T.
  pose proof (daily_counts_window "bob" (mkDate 2023 3 10) Sample.leap_mail
                (V 2023 3 10 eq_refl) (V 2023 2 9 eq_refl)) as P.
  cbv zeta in L, T, P.
  destruct L as (_ & _ & _ & _ & _ & _ & L & _).
  destruct T as (Tl & _ & _ & _ & _ & _ & _ & Ts & _).
  destruct P as (_ & Pk & _ & _ & _ & _ & _ & Ps & _).
  split; [rewrite L; vm_compute; reflexivity|].
  split; [exact Tl|].
  split; [rewrite Ts; vm_compute; reflexivity|].
  split; [rewrite Ps; vm_compute; reflexivity|].
  rewrite Pk. split; vm_compute; reflexivity.
Defined.

(** *** Spam per month *)

(** The [while] loop names the month [i] months before [today]'s. *)
Lemma month_key_label (today : date) (i : Z) :
  1 <= month today <= 12 -> 0 <= i <= 5 ->
  month_key today i = month_label (month_number today - i).
Proof.
  intros Hm Hi. unfold month_key, month_label, month_number.
  set (m0 := month today - i).
  destruct (Z.leb_spec m0 0) as [Hle|Hgt].
  - destruct (Z.to_nat (1 - m0)) as [|fuel] eqn:F; [lia|].
    cbn [wrap_month].
    destruct (Z.leb_spec m0 0) as [_|]; [|lia].
    replace (wrap_month fuel (year today - 1) (m0 + 12))
      with (year today - 1, m0 + 12).
    + f_equal; [f_equal | do 2 f_equal]; subst m0;
        Z.to_euclidean_division_equations; lia.
    + destruct fuel; cbn [wrap_month];
        destruct (Z.leb_spec (m0 + 12) 0); (reflexivity || (subst m0; lia)).
  - replace (wrap_month (Z.to_nat (1 - m0)) (year today) m0)
      with (year today, m0).
    + f_equal; [f_equal | do 2 f_equal]; subst m0;
        Z.to_euclidean_division_equations; lia.
    + destruct (Z.to_nat (1 - m0)); cbn [wrap_month];
        destruct (Z.leb_spec m0 0); (reflexivity || lia).
Qed.

Lemma ltb_month_label (t1 t2 : Z) (rest : string) :
  0 <= t1 -> t1 < t2 -> t2 < 120000 ->
  String.ltb (month_label t1) (month_label t2 ++ rest) = true.
Proof.
  intros H0 H1 H2.
  refine (ltb_year_month (t1 / 12) (t1 mod 12 + 1) (t2 / 12) (t2 mod 12 + 1)
            "" rest _ _ _ _ _);
    Z.to_euclidean_division_equations; lia.
Qed.

Section Monthly.
Variable today : date.
Hypothesis today_valid : valid today.

Lemma months_window : months today = month_window today.
Proof.
  destruct today_valid as (_ & Hm & _).
  unfold months, month_window. apply map_ext_in. intros i Hi.
  apply month_key_label; [assumption|].
  simpl in Hi. lia.
Qed.

Lemma month_number_bounds : 12 <= month_number today < 120000.
Proof. destruct today_valid as (Hy & Hm & _). unfold month_number. lia. Qed.

Lemma month_window_ascending : ascending (month_window today).
Proof.
  pose proof month_number_bounds as B.
  assert (L : forall t1 t2, 0 <= t1 -> t1 < t2 -> t2 < 120000 ->
                String.ltb (month_label t1) (month_label t2) = true).
  { intros t1 t2 H0 H1 H2. exact (ltb_month_label t1 t2 "" H0 H1 H2). }
  unfold month_window, ascending. cbn [map].
  repeat (constructor; [|repeat (constructor; [apply L; lia|]); constructor]).
  constructor.
Qed.

(** Each step back lowers the count of days [31 * months + day]. *)
Lemma prev_day_descends (d : date) :
  1 <= month d <= 12 -> 1 <= day d <= 31 ->
  1 <= month (prev_day d) <= 12 /\ 1 <= day (prev_day d) <= 31 /\
  31 * (12 * year (prev_day d) + month (prev_day d)) + day (prev_day d)
  <= 31 * (12 * year d + month d) + day d - 1.
Proof.
  intros Hm Hd. unfold prev_day.
  pose proof (days_in_month_bounds (year d) (month d - 1)).
  destruct (Z.ltb_spec 1 (day d)); [|destruct (Z.ltb_spec 1 (month d))];
    cbn [year month day]; lia.
Qed.

Lemma sub_days_descends (d : date) (n : nat) :
  1 <= month d <= 12 -> 1 <= day d <= 31 ->
  1 <= month (sub_days d n) <= 12 /\ 1 <= day (sub_days d n) <= 31 /\
  31 * (12 * year (sub_days d n) + month (sub_days d n)) + day (sub_days d n)
  <= 31 * (12 * year d + month d) + day d - Z.of_nat n.
Proof.
  intros Hm Hd. induction n as [|n (IHm & IHd & IH)].
  - simpl. lia.
  - rewrite sub_days_S.
    destruct (prev_day_descends (sub_days d n) IHm IHd) as (Pm & Pd & P).
    lia.
Qed.

Hypothesis since_exists : 1 <= year (sub_days (first_of_month today) 180).

(** 180 days before the first of this month lie before the first of the
    six months of the window. *)
Lemma month_window_above_since (k : string) :
  In k (month_window today) -> String.leb (six_months_ago today) k = true.
Proof.
  destruct today_valid as (Hy & Hm & _).
  assert (D := sub_days_descends (first_of_month today) 180).
  assert (Sy := year_sub_days_le (first_of_month today) 0 180).
  assert (Hs := since_exists).
  change (sub_days (first_of_month today) 0) with (first_of_month today) in Sy.
  change (Z.of_nat 180) with 180 in D.
  cbn [first_of_month year month day] in D, Sy.
  unfold six_months_ago.
  revert D Sy Hs. generalize (sub_days (first_of_month today) 180) as s.
  intros s D Sy Hs.
  destruct D as (Sm & Sd & S); [lia..|].
  assert (Sy' : year s <= year today) by (apply Sy; lia). clear Sy.
  intro Hin. unfold month_window in Hin.
  apply in_map_iff in Hin as (i & <- & Hi).
  assert (Hi' : 0 <= i <= 5) by (simpl in Hi; lia). clear Hi.
  apply ltb_leb. unfold month_number.
  refine (ltb_year_month (year s) (month s)
            ((12 * year today + month today - 1 - i) / 12)
            ((12 * year today + month today - 1 - i) mod 12 + 1)
            ("-" ++ pad2 (day s)) "" _ _ _ _ _);
    Z.to_euclidean_division_equations; lia.
Qed.

Lemma monthly_init_fresh :
  monthly_init today = map (fun k => (k, 0)) (month_window today).
Proof.
  unfold monthly_init. rewrite months_window. rewrite dict_init; [reflexivity|].
  simpl. apply ascending_NoDup, month_window_ascending.
Qed.

Lemma month_counts_series (user : string) (d : db) :
  month_counts user today d
  = map (fun k => (k, count (fun e => (involved user e && flagged e)
                                      && stamp_is 7 k e) (emails d)))
      (month_window today).
Proof.
  unfold month_counts, monthly_rows. rewrite monthly_init_fresh.
  apply (series 7 _ (fun e => involved user e && flagged e)
           (six_months_ago today)).
  - apply month_window_ascending.
  - apply month_window_above_since.
  - intro e. unfold monthly_cond.
    now rewrite !holds_and3, holds_involves, holds_eq_spam.
Qed.
End Monthly.

Lemma month_label_today (today : date) :
  1 <= month today <= 12 ->
  month_label (month_number today - 0) = pad4 (year today) ++ "-" ++ pad2 (month today).
Proof.
  intro Hm. unfold month_label, month_number.
  replace ((12 * year today + month today - 1 - 0) / 12) with (year today)
    by (Z.to_euclidean_division_equations; lia).
  replace ((12 * year today + month today - 1 - 0) mod 12 + 1) with (month today)
    by (Z.to_euclidean_division_equations; lia).
  reflexivity.
Qed.

(** C8: when [today] is a date Python can hold and so is the day 180 days
    before the first of its month, the per-month spam series has exactly 6
    entries; its keys are the labels YYYY-MM of the current month (the one
    today's ISO date begins with) and the 5 months before it, in ascending
    order; and each entry, zero included, is the number of messages flagged
    as spam, with the user as sender or recipient, whose timestamp begins
    with that label. *)
Theorem month_counts_window (user : string) (today : date) (d : db) :
  valid today -> 1 <= year (sub_days (first_of_month today) 180) ->
  let result := month_counts user today d in
  List.length result = 6%nat /\
  dict_keys result
  = map (fun i => month_label (month_number today - i)) [5; 4; 3; 2; 1; 0] /\
  ascending (dict_keys result) /\
  result = map (fun k => (k, count (fun e => (involved user e && flagged e)
                                             && dated_on k e) (emails d)))
             (dict_keys result) /\
  nth 5 (dict_keys result) "" = pad4 (year today) ++ "-" ++ pad2 (month today) /\
  String.prefix (nth 5 (dict_keys result) "") (isoformat today) = true /\
  (forall k e, dated_on k e = true <->
               exists rest, timestamp e = Some (k ++ rest)) /\
  (forall e, involved user e && flagged e = true <->
             (sender e = Some user \/ recipient e = Some user) /\
             is_spam e = Some 1).
Proof.
  intros Ht Hs result. subst result.
  rewrite (month_counts_series today Ht Hs user d).
  rewrite keys_of_series.
  assert (Hm : 1 <= month today <= 12) by (destruct Ht as (_ & Hm & _); exact Hm).
  split; [|split; [|split; [|split; [|split; [|split; [|split]]]]]].
  - now rewrite length_map.
  - reflexivity.
  - now apply month_window_ascending.
  - apply dated_series, month_window_lengths.
  - unfold month_window. cbn [map nth]. now apply month_label_today.
  - unfold month_window. cbn [map nth]. rewrite month_label_today by exact Hm.
    unfold isoformat.
    change (pad4 (year today) ++ "-" ++ pad2 (month today) ++ "-" ++ pad2 (day today))
      with ((pad4 (year today) ++ "-" ++ pad2 (month today))
            ++ "-" ++ pad2 (day today)).
    apply TextFacts.prefix_app.
  - apply dated_on_iff.
  - intro e. now rewrite andb_true_iff, involved_iff, flagged_iff.
Qed.

(** The six months up to March 2024 begin in the year before: of bob's
    flagged messages one is of November, one of December, two are of
    February and one is of March (dated after [today]: the query has no
    upper bound); his messages that are not flagged, and the flagged mail of
    others, are not counted. *)
Lemma month_counts_window_witness :
  month_counts "bob" (mkDate 2024 3 10) Sample.leap_mail
  = [("2023-10", 0); ("2023-11", 1); ("2023-12", 1); ("2024-01", 0);
     ("2024-02", 2); ("2024-03", 1)] /\
  List.length (month_counts "bob" (mkDate 2026 11 3) Sample.two_users) = 6%nat /\
  month_counts "bob" (mkDate 2026 11 3) Sample.two_users
  = [("2026-06", 0); ("2026-07", 0); ("2026-08", 0); ("2026-09", 0);
     ("2026-10", 0); ("2026-11", 1)].
Proof.
  assert (V : forall y m dd,
             (((1 <=? y) && (y <=? 9999) && (1 <=? m) && (m <=? 12) && (1 <=? dd)
               && (dd <=? days_in_month y m)) = true) ->
             valid (mkDate y m dd)).
  { intros y m dd H. unfold valid. cbn [year month day].
    repeat (apply andb_prop in H as [H ?]). repeat split; now apply Z.leb_le. }
  assert (Y1 : 1 <= year (sub_days (first_of_month (mkDate 2024 3 10)) 180))
    by (vm_compute; discriminate).
  assert (Y2 : 1 <= year (sub_days (first_of_month (mkDate 2026 11 3)) 180))
    by (vm_compute; discriminate).
  pose proof (month_counts_window "bob" (mkDate 2024 3 10) Sample.leap_mail
                (V 2024 3 10 eq_refl) Y1) as L.
  pose proof (month_counts_window "bob" (mkDate 2026 11 3) Sample.two_users
                (V 2026 11 3 eq_refl) Y2) as T.
  cbv zeta in L, T.
  destruct L as (_ & Lk & _ & L & _).
  destruct T as (Tl & Tk & _ & T & _).
  split; [rewrite L, Lk; vm_compute; reflexivity|].
  split; [exact Tl|].
  rewrite T, Tk. vm_compute. reflexivity.
Defined.

End AnalyticsSpec.

(* ================================================================= *)
(** ** Stripping *)

Module StripSpec.
Import Text.

Lemma length_lstrip (s : string) :
  (String.length (lstrip s) <= String.length s)%nat.
Proof.
  induction s as [|c s IH]; simpl; [lia|]. destruct (isspace c); simpl; lia.
Qed.

Lemma lstrip_fixed_head (c : ascii) (t : string) :
  lstrip (String c t) = String c t -> isspace c = false.
Proof.
  simpl. destruct (isspace c); [|reflexivity]. intro H.
  pose proof (length_lstrip t) as L. rewrite H in L. simpl in L. lia.
Qed.

Lemma lstrip_idempotent (s : string) : lstrip (lstrip s) = lstrip s.
Proof.
  induction s as [|c s IH]; [reflexivity|]. simpl.
  destruct (isspace c) eqn:E; [exact IH|]. simpl. now rewrite E.
Qed.

Lemma rstrip_head (c : ascii) (t : string) :
  isspace c = false -> exists t', rstrip (String c t) = String c t'.
Proof.
  intro H. simpl. rewrite H. destruct (rstrip t); eauto.
Qed.

Lemma rstrip_idempotent (s : string) : rstrip (rstrip s) = rstrip s.
Proof.
  induction s as [|c s IH]; [reflexivity|]. simpl.
  destruct (rstrip s) as [|d u] eqn:E.
  - destruct (isspace c) eqn:Ec; [reflexivity|]. simpl. now rewrite Ec.
  - change (rstrip (String c (String d u))) with
      (match rstrip (String d u) with
       | EmptyString => if isspace c then EmptyString else String c EmptyString
       | t' => String c t'
       end).
    now rewrite IH.
Qed.

Lemma lstrip_rstrip (t : string) :
  lstrip t = t -> lstrip (rstrip t) = rstrip t.
Proof.
  destruct t as [|c t]; [reflexivity|]. intro H.
  pose proof (lstrip_fixed_head c t H) as Hc.
  destruct (rstrip_head c t Hc) as [t' E]. rewrite E. simpl. now rewrite Hc.
Qed.

(** Stripping twice is stripping once: what [handle_send] stores has no
    blank left at either end. *)
Lemma strip_idempotent (s : string) : strip (strip s) = strip s.
Proof.
  unfold strip.
  rewrite (lstrip_rstrip (lstrip s) (lstrip_idempotent s)).
  apply rstrip_idempotent.
Qed.

End StripSpec.

(* ================================================================= *)
(** ** Accounts and sessions *)

Module SessionSpec.
Import Text Sql Store Session Views StoreSpec MailboxSpec StripSpec.

Lemma credentials_match_iff (d : db) (u p : string) :
  credentials_match d u p = true <-> In (u, p) (users d).
Proof.
  unfold credentials_match. rewrite existsb_exists. split.
  - intros ([u' p'] & Hin & E). apply andb_true_iff in E as [E1 E2].
    apply String.eqb_eq in E1, E2. simpl in *. now subst.
  - intro Hin. exists (u, p). split; [assumption|].
    simpl. now rewrite !String.eqb_refl.
Qed.

Lemma user_exists_keys (d : db) (u : string) :
  user_exists d u = true <-> In u (map fst (users d)).
Proof.
  rewrite user_exists_iff, in_map_iff. split.
  - intros (pw & H). now exists (u, pw).
  - intros ([u' pw] & E & H). simpl in E. subst. now exists pw.
Qed.

(** The three ways [handle_reg] can end. *)
Lemma handle_reg_cases (d : db) (u p : string) :
  (fst (handle_reg d u p) = d /\ is_error (snd (handle_reg d u p)) = true) \/
  (u <> "" /\ p <> "" /\ user_exists d u = false /\
   handle_reg d u p = (mkDb (users d ++ [(u, p)]) (emails d) (last_id d),
                       ShowInfo "Success" "Registration successful!")).
Proof.
  unfold handle_reg.
  destruct (truthy u) eqn:Eu; [|now left].
  destruct (truthy p) eqn:Ep; [|now left]. simpl.
  destruct (user_exists d u) eqn:Ex; [now left|]. right.
  apply truthy_true_iff in Eu, Ep. auto.
Qed.

(** The two ways [handle_send] can end. *)
Lemma handle_send_cases (d : db) (cu to_field subject_field message_field : string)
    (attach : option string) (now : string) :
  let r := handle_send d cu to_field subject_field message_field attach now in
  (fst r = d /\ is_error (snd r) = true) \/
  (strip to_field <> "" /\ strip subject_field <> "" /\
   strip message_field <> "" /\ user_exists d (strip to_field) = true /\
   is_error (snd r) = false /\
   fst r = mkDb (users d)
             (emails d ++
                [mkEmail (last_id d + 1) (Some (strip to_field)) (Some cu)
                   (Some (strip subject_field)) (Some (strip message_field))
                   attach (Some now)
                   (Some (if Classifier.detect_spam (strip subject_field)
                                (strip message_field) then 1 else 0))])
             (last_id d + 1)).
Proof.
  unfold handle_send.
  destruct (truthy (strip to_field)) eqn:E1; [|now left].
  destruct (truthy (strip subject_field)) eqn:E2; [|now left].
  destruct (truthy (strip message_field)) eqn:E3; [|now left]. simpl.
  destruct (user_exists d (strip to_field)) eqn:Ex; [|now left]. right.
  apply truthy_true_iff in E1, E2, E3. simpl.
  repeat split; try assumption.
  now destruct (Classifier.detect_spam _ _).
Qed.

Lemma row_ok_mono (d d' : db) (e : email) :
  incl (users d) (users d') -> last_id d <= last_id d' ->
  row_ok d e -> row_ok d' e.
Proof.
  intros Hu Hl (Hid & (r & Hr & Er & Sr) & (s & Hs & Es) & Ht & Hb & Hts & Hf).
  assert (M : forall x, user_exists d x = true -> user_exists d' x = true).
  { intros x Hx. apply user_exists_iff in Hx as (pw & Hx).
    apply user_exists_iff. exists pw. now apply Hu. }
  repeat split; try assumption; try lia.
  - exists r. auto.
  - exists s. auto.
Qed.

Lemma row_ok_set_spam (d : db) (i : Z) (e : email) :
  row_ok d e -> row_ok d (set_spam i e).
Proof.
  unfold set_spam. destruct (id e =? i); [|auto].
  intros (Hid & Hr & Hs & Ht & Hb & Hts & Hf).
  repeat split; simpl; try assumption; try lia. now right.
Qed.

Lemma sorted_snoc (l : list Z) (y : Z) :
  StronglySorted Z.lt l -> Forall (fun x => x < y) l ->
  StronglySorted Z.lt (l ++ [y]).
Proof.
  induction 1 as [|x l Hs IH Hall]; intro H; simpl.
  - repeat constructor.
  - inversion H; subst. constructor; [now apply IH|].
    apply Forall_app. split; [assumption | now constructor].
Qed.

Lemma sorted_filter {A} (f : A -> Z) (p : A -> bool) (l : list A) :
  StronglySorted Z.lt (map f l) -> StronglySorted Z.lt (map f (filter p l)).
Proof.
  induction l as [|x l IH]; simpl; intro H; [constructor|].
  inversion H as [|? ? Hs Hall]; subst.
  destruct (p x); simpl; [|now apply IH].
  constructor; [now apply IH|].
  rewrite Forall_forall in *. intros y Hy. apply Hall.
  apply in_map_iff in Hy as (z & <- & Hz). apply filter_In in Hz as [Hz _].
  now apply in_map.
Qed.

Lemma map_id_set_spam (i : Z) (es : list email) :
  map id (map (set_spam i) es) = map id es.
Proof. rewrite map_map. apply map_ext. intro e. apply set_spam_id. Qed.

Lemma app_ok_fresh : app_ok fresh.
Proof.
  split; [|discriminate]. unfold store_ok, fresh. simpl.
  repeat split; try constructor. discriminate.
Qed.

Lemma user_exists_mono (d d' : db) (x : string) :
  incl (users d) (users d') -> user_exists d x = true ->
  user_exists d' x = true.
Proof.
  intros Hi Hx. apply user_exists_iff in Hx as (pw & Hx).
  apply user_exists_iff. exists pw. now apply Hi.
Qed.

(** Every action keeps the store well formed. *)
Lemma run_ok (a : app) (act : action) : app_ok a -> app_ok (run a act).
Proof.
  intros [(Hnd & Hne & Hsort & Hrows & Hlast) Hcu].
  assert (Same : app_ok a) by (split; [repeat split|]; assumption).
  destruct act as [u p|u p| |t s m att now|i|c i]; unfold run.
  - (* Register *)
    destruct (handle_reg_cases (store a) u p) as [[E _]|(Hu & Hp & Hx & E)].
    + rewrite E. destruct a; exact Same.
    + rewrite E. simpl. split.
      * unfold store_ok. simpl. repeat split; try assumption.
        -- rewrite map_app. simpl.
           apply (Permutation_NoDup (l := u :: map fst (users (store a)))).
           ++ apply Permutation_cons_append.
           ++ constructor; [|assumption]. intro Hin.
              apply user_exists_keys in Hin. congruence.
        -- apply Forall_app. split; [assumption|]. constructor; [|constructor].
           simpl. auto.
        -- eapply Forall_impl; [|exact Hrows]. intros e He.
           apply (row_ok_mono (store a)); simpl; try assumption; try lia.
           apply incl_appl, incl_refl.
      * intros x Hx'. apply (user_exists_mono (store a)); [|now apply Hcu].
        simpl. apply incl_appl, incl_refl.
  - (* Login *)
    unfold handle_login. destruct (credentials_match (store a) u p) eqn:E; simpl.
    + split; [repeat split; assumption|]. intros x Hx. injection Hx as <-.
      apply credentials_match_iff in E. apply user_exists_iff. eauto.
    + exact Same.
  - (* Logout *)
    split; [repeat split; assumption | discriminate].
  - (* Send *)
    destruct (current_user a) as [cu|] eqn:Ecu; [|exact Same].
    assert (Hc : user_exists (store a) cu = true) by now apply Hcu.
    destruct (handle_send_cases (store a) cu t s m att now)
      as [[E _]|(Ht & Hs & Hm & Hx & _ & E)]; simpl in E; simpl; rewrite E.
    + split; [repeat split; assumption|]. intros x Hx. injection Hx as <-.
      assumption.
    + split; [|intros x Hx'; injection Hx' as <-; assumption].
      assert (Hle : Forall (fun e => id e <= last_id (store a)) (emails (store a))).
      { eapply Forall_impl; [|exact Hrows]. intros e (Hid & _). lia. }
      unfold store_ok. simpl. repeat split; try assumption; try lia.
      * rewrite map_app. simpl. apply sorted_snoc; [assumption|].
        apply Forall_forall. intros x Hx'.
        apply in_map_iff in Hx' as (e & <- & He).
        rewrite Forall_forall in Hle. specialize (Hle e He). lia.
      * apply Forall_app. split.
        -- eapply Forall_impl; [|exact Hrows]. intros e He.
           apply (row_ok_mono (store a)); simpl; try assumption; try lia.
           apply incl_refl.
        -- constructor; [|constructor]. unfold row_ok. simpl.
           repeat split; try lia; try discriminate.
           ++ exists (strip t). repeat split; try assumption.
              apply strip_idempotent.
           ++ exists cu. auto.
           ++ exists (strip s). repeat split; try assumption.
              apply strip_idempotent.
           ++ exists (strip m). repeat split; try assumption.
              apply strip_idempotent.
           ++ destruct (Classifier.detect_spam _ _); auto.
  - (* MarkSpam *)
    split; [|exact Hcu].
    unfold store_ok, mark_as_spam. simpl. repeat split; try assumption.
    + now rewrite map_id_set_spam.
    + apply Forall_forall. intros e He. apply in_map_iff in He as (e0 & <- & He).
      rewrite Forall_forall in Hrows. specialize (Hrows e0 He).
      apply row_ok_set_spam.
      apply (row_ok_mono (store a)); simpl; try assumption; try lia.
      apply incl_refl.
  - (* Delete *)
    unfold delete_email. destruct c; [|destruct a; exact Same].
    split; [|exact Hcu].
    unfold store_ok. simpl. repeat split; try assumption.
    + now apply sorted_filter.
    + apply Forall_forall. intros e He. apply filter_In in He as [He _].
      rewrite Forall_forall in Hrows. specialize (Hrows e He).
      apply (row_ok_mono (store a)); simpl; try assumption; try lia.
      apply incl_refl.
Qed.

Lemma run_all_ok (acts : list action) :
  forall a, app_ok a -> app_ok (run_all acts a).
Proof.
  induction acts as [|act acts IH]; intros a H; [exact H|].
  simpl. apply IH. now apply run_ok.
Qed.

Lemma reachable_ok (a : app) : reachable a -> app_ok a.
Proof. intros [acts ->]. apply run_all_ok, app_ok_fresh. Qed.

Lemma last_id_run (a : app) (act : action) :
  last_id (store a) <= last_id (store (run a act)).
Proof.
  destruct act as [u p|u p| |t s m att now|i|c i]; unfold run; simpl; try lia.
  - destruct (handle_reg_cases (store a) u p) as [[E _]|(_ & _ & _ & E)];
      rewrite E; simpl; lia.
  - unfold handle_login. destruct (credentials_match _ _ _); simpl; lia.
  - destruct (current_user a) as [cu|]; [|lia].
    destruct (handle_send_cases (store a) cu t s m att now)
      as [[E _]|(_ & _ & _ & _ & _ & E)]; simpl in E; simpl; rewrite E;
      simpl; lia.
  - unfold delete_email. destruct c; simpl; lia.
Qed.

Lemma unique_by_id (es : list email) (e e' : email) :
  StronglySorted Z.lt (map id es) -> In e es -> In e' es -> id e' = id e ->
  e' = e.
Proof.
  induction es as [|x es IH]; simpl; intros H He He'; [contradiction|].
  inversion H as [|? ? Hs Hall]; subst. rewrite Forall_forall in Hall.
  assert (L : forall y, In y es -> id x < id y)
    by (intros y Hy; apply Hall; now apply in_map).
  intro E. destruct He as [<-|He], He' as [<-|He']; auto.
  - specialize (L _ He'). lia.
  - specialize (L _ He). lia.
Qed.

(** One action: a row that keeps its id is the same message, and a set
    flag stays set. *)
Lemma run_keeps_message (a : app) (act : action) (e e' : email) :
  app_ok a -> In e (emails (store a)) ->
  In e' (emails (store (run a act))) -> id e' = id e ->
  same_message e e' /\ (is_spam e = Some 1 -> is_spam e' = Some 1).
Proof.
  intros [(Hnd & Hne & Hsort & Hrows & Hlast) Hcu] He He' Hid.
  assert (Same : In e' (emails (store a)) ->
                 same_message e e' /\ (is_spam e = Some 1 -> is_spam e' = Some 1)).
  { intro H. rewrite (unique_by_id _ e e' Hsort He H Hid).
    unfold same_message. tauto. }
  destruct act as [u p|u p| |t s m att now|i|c i]; unfold run in He';
    simpl in He'; auto.
  - destruct (handle_reg_cases (store a) u p) as [[E _]|(_ & _ & _ & E)];
      rewrite E in He'; auto.
  - unfold handle_login in He'.
    destruct (credentials_match _ _ _); simpl in He'; auto.
  - destruct (current_user a) as [cu|]; auto. simpl in He'.
    destruct (handle_send_cases (store a) cu t s m att now)
      as [[E _]|(_ & _ & _ & _ & _ & E)]; simpl in E; rewrite E in He'; auto.
    simpl in He'. apply in_app_or in He' as [H|[<-|[]]]; auto.
    simpl in Hid. rewrite Forall_forall in Hrows.
    destruct (Hrows e He) as (Hb & _). lia.
  - apply in_map_iff in He' as (e0 & <- & H0).
    rewrite set_spam_id in Hid.
    rewrite <- (unique_by_id _ e e0 Hsort He H0 Hid).
    unfold set_spam, same_message. destruct (id e0 =? i); simpl; tauto.
  - unfold delete_email in He'. destruct c; simpl in He'; auto.
    apply filter_In in He' as [H _]. auto.
Qed.

Lemma existsb_set_spam (i j : Z) (es : list email) :
  existsb (fun e => id e =? i) (map (set_spam j) es)
  = existsb (fun e => id e =? i) es.
Proof.
  induction es as [|e es IH]; [reflexivity|].
  simpl. now rewrite set_spam_id, IH.
Qed.

(** One action: an id that was given out and is no longer in the store
    stays out of it. *)
Lemma run_keeps_absent (a : app) (act : action) (i : Z) :
  app_ok a -> i <= last_id (store a) ->
  id_present (store a) i = false -> id_present (store (run a act)) i = false.
Proof.
  intros [(Hnd & Hne & Hsort & Hrows & Hlast) Hcu] Hi Habs.
  destruct act as [u p|u p| |t s m att now|j|c j]; unfold run; simpl; auto.
  - destruct (handle_reg_cases (store a) u p) as [[E _]|(_ & _ & _ & E)];
      rewrite E; auto.
  - unfold handle_login. destruct (credentials_match _ _ _); auto.
  - destruct (current_user a) as [cu|]; auto. simpl.
    destruct (handle_send_cases (store a) cu t s m att now)
      as [[E _]|(_ & _ & _ & _ & _ & E)]; simpl in E; rewrite E; auto.
    unfold id_present in *. simpl. rewrite existsb_app, Habs. simpl.
    rewrite orb_false_r. apply Z.eqb_neq. lia.
  - unfold id_present in *. simpl. now rewrite existsb_set_spam.
  - unfold delete_email, id_present in *. destruct c; simpl; auto.
    destruct (existsb (fun e => id e =? i)
                (filter (fun e => negb (id e =? j)) (emails (store a)))) eqn:E;
      [|reflexivity].
    apply existsb_exists in E as (x & Hx & Ex). apply filter_In in Hx as [Hx _].
    rewrite <- Habs. symmetry. apply existsb_exists. eauto.
Qed.

Lemma run_all_keeps_absent (acts : list action) (i : Z) :
  forall a, app_ok a -> i <= last_id (store a) ->
  id_present (store a) i = false ->
  id_present (store (run_all acts a)) i = false.
Proof.
  induction acts as [|act acts IH]; intros a Hok Hi Habs; [exact Habs|].
  simpl. apply IH.
  - now apply run_ok.
  - pose proof (last_id_run a act). lia.
  - now apply run_keeps_absent.
Qed.

Lemma run_all_keeps_message (acts : list action) :
  forall a e e', app_ok a -> In e (emails (store a)) ->
  In e' (emails (store (run_all acts a))) -> id e' = id e ->
  same_message e e' /\ (is_spam e = Some 1 -> is_spam e' = Some 1).
Proof.
  induction acts as [|act acts IH]; intros a e e' Hok He He' Hid.
  - simpl in He'. destruct Hok as [(_ & _ & Hsort & _) _].
    rewrite (unique_by_id _ e e' Hsort He He' Hid). unfold same_message. tauto.
  - simpl in He'.
    destruct (id_present (store (run a act)) (id e)) eqn:P.
    + apply existsb_exists in P as (e1 & H1 & E1). apply Z.eqb_eq in E1.
      destruct (run_keeps_message a act e e1 Hok He H1 E1) as [S1 F1].
      destruct (IH (run a act) e1 e' (run_ok a act Hok) H1 He' ltac:(lia))
        as [S2 F2].
      unfold same_message in *. intuition congruence.
    + exfalso.
      assert (Hle : id e <= last_id (store (run a act))).
      { destruct Hok as [(_ & _ & _ & Hrows & _) _].
        rewrite Forall_forall in Hrows. destruct (Hrows e He) as (Hb & _).
        pose proof (last_id_run a act). lia. }
      pose proof (run_all_keeps_absent acts (id e) (run a act)
                    (run_ok a act Hok) Hle P) as Q.
      assert (id_present (store (run_all acts (run a act))) (id e) = true).
      { apply existsb_exists. exists e'. split; [assumption|].
        now apply Z.eqb_eq. }
      congruence.
Qed.

Lemma users_run (a : app) (act : action) :
  incl (users (store a)) (users (store (run a act))).
Proof.
  destruct act as [u p|u p| |t s m att now|i|c i]; unfold run; simpl;
    try apply incl_refl.
  - destruct (handle_reg_cases (store a) u p) as [[E _]|(_ & _ & _ & E)];
      rewrite E; simpl; [apply incl_refl | apply incl_appl, incl_refl].
  - unfold handle_login. destruct (credentials_match _ _ _); apply incl_refl.
  - destruct (current_user a) as [cu|]; [|apply incl_refl].
    destruct (handle_send_cases (store a) cu t s m att now)
      as [[E _]|(_ & _ & _ & _ & _ & E)]; simpl in E; simpl; rewrite E;
      apply incl_refl.
  - unfold delete_email. destruct c; apply incl_refl.
Qed.

Lemma users_run_all (acts : list action) :
  forall a, incl (users (store a)) (users (store (run_all acts a))).
Proof.
  induction acts as [|act acts IH]; intro a; [apply incl_refl|].
  simpl. eapply incl_tran; [apply users_run | apply IH].
Qed.

Lemma one_password (us : list (string * string)) (u p p' : string) :
  NoDup (map fst us) -> In (u, p) us -> In (u, p') us -> p' = p.
Proof.
  induction us as [|[x q] us IH]; simpl; intros H H1 H2; [contradiction|].
  inversion H as [|? ? Hx Hnd]; subst.
  destruct H1 as [E1|H1], H2 as [E2|H2]; try congruence; auto.
  - injection E1 as -> ->. exfalso. apply Hx. apply in_map_iff.
    now exists (u, p').
  - injection E2 as -> ->. exfalso. apply Hx. apply in_map_iff.
    now exists (u, p).
Qed.

(** X1: registering a new account with a non-empty name and password
    succeeds, and logging in with the same two texts then succeeds and makes
    that name the current user. *)
Theorem register_then_login (d : db) (u p : string) :
  u <> "" -> p <> "" -> (forall pw, ~ In (u, pw) (users d)) ->
  let d' := fst (handle_reg d u p) in
  is_error (snd (handle_reg d u p)) = false /\
  In (u, p) (users d') /\
  handle_login (mkApp d' None) u p
  = (mkApp d' (Some u), ShowInfo "Welcome" ("Welcome " ++ u ++ "!")).
Proof.
  intros Hu Hp Hnew d'. subst d'.
  apply user_exists_false_iff in Hnew.
  destruct (handle_reg_cases d u p) as [[_ E]|(_ & _ & _ & E)].
  - exfalso. unfold handle_reg in E.
    apply truthy_true_iff in Hu, Hp. rewrite Hu, Hp, Hnew in E. discriminate.
  - rewrite E. simpl. split; [reflexivity|].
    assert (Hin : In (u, p) (users d ++ [(u, p)]))
      by (apply in_or_app; right; now left).
    split; [exact Hin|]. unfold handle_login. simpl.
    assert (C : credentials_match (mkDb (users d ++ [(u, p)]) (emails d)
                                     (last_id d)) u p = true)
      by now apply credentials_match_iff.
    now rewrite C.
Qed.

Lemma register_then_login_witness :
  handle_login (mkApp (fst (handle_reg Sample.no_mail "carol" "pw3")) None)
    "carol" "pw3"
  = (mkApp (fst (handle_reg Sample.no_mail "carol" "pw3")) (Some "carol"),
     ShowInfo "Welcome" "Welcome carol!").
Proof.
  apply (register_then_login Sample.no_mail "carol" "pw3"); try discriminate.
  intros pw [H|[H|[]]]; discriminate.
Defined.

(** X2: registering a name that already has an account is refused with an
    error whatever the password, and the accounts stay as they were. *)
Theorem duplicate_registration_refused (d : db) (u pw p : string) :
  In (u, pw) (users d) ->
  fst (handle_reg d u p) = d /\ is_error (snd (handle_reg d u p)) = true.
Proof.
  intro Hin.
  destruct (handle_reg_cases d u p) as [H|(_ & _ & Hx & _)]; [exact H|].
  assert (user_exists d u = true) by (apply user_exists_iff; eauto).
  congruence.
Qed.

Lemma duplicate_registration_refused_witness :
  fst (handle_reg Sample.two_users "bob" "other") = Sample.two_users /\
  is_error (snd (handle_reg Sample.two_users "bob" "other")) = true.
Proof.
  apply (duplicate_registration_refused Sample.two_users "bob" "pw2" "other").
  right; left; reflexivity.
Defined.

(** X3: in a store the program built, an account is never removed and its
    password never changes: after any further actions, the credentials that
    log the account in are exactly the password it was registered with. *)
Theorem password_is_permanent (a : app) (u p : string) (acts : list action) :
  reachable a -> In (u, p) (users (store a)) ->
  forall p', credentials_match (store (run_all acts a)) u p' = true <-> p' = p.
Proof.
  intros Hr Hin p'.
  assert (Hin' : In (u, p) (users (store (run_all acts a))))
    by now apply (users_run_all acts a).
  destruct (run_all_ok acts a (reachable_ok a Hr)) as [(Hnd & _) _].
  rewrite credentials_match_iff. split.
  - intro H. exact (one_password _ u p p' Hnd Hin' H).
  - now intros ->.
Qed.

Lemma password_is_permanent_witness :
  credentials_match
    (store (run_all [Login "al" "pw"; Logout; Register "al" "new"]
              (run_all [Register "al" "pw"] fresh))) "al" "new" = true
  <-> "new" = "pw".
Proof.
  apply (password_is_permanent (run_all [Register "al" "pw"] fresh) "al" "pw").
  - now exists [Register "al" "pw"].
  - simpl. left. reflexivity.
Defined.

(** X4: in a store the program built, message ids grow strictly in store
    order and lie between 1 and the AUTOINCREMENT counter, so no two
    messages share an id; and no action ever lowers the counter. *)
Theorem ids_unique_and_increasing (a : app) :
  reachable a ->
  StronglySorted Z.lt (map id (emails (store a))) /\
  NoDup (map id (emails (store a))) /\
  Forall (fun e => 1 <= id e <= last_id (store a)) (emails (store a)) /\
  forall act, last_id (store a) <= last_id (store (run a act)).
Proof.
  intro Hr. destruct (reachable_ok a Hr) as [(_ & _ & Hsort & Hrows & _) _].
  split; [exact Hsort|]. split; [|split].
  - clear Hrows. induction Hsort as [|x l _ IH Hall]; constructor; [|exact IH].
    intro Hin. rewrite Forall_forall in Hall. specialize (Hall x Hin). lia.
  - eapply Forall_impl; [|exact Hrows]. now intros e (H & _).
  - apply last_id_run.
Qed.

Lemma ids_unique_and_increasing_witness :
  NoDup (map id (emails (store
    (run_all [Register "al" "pw"; Login "al" "pw";
              Send "al" "Hi" "first" None "2026-11-03T10:00:00";
              Send "al" "Hi" "second" None "2026-11-03T10:01:00"] fresh)))).
Proof.
  apply (ids_unique_and_increasing
           (run_all [Register "al" "pw"; Login "al" "pw";
              Send "al" "Hi" "first" None "2026-11-03T10:00:00";
              Send "al" "Hi" "second" None "2026-11-03T10:01:00"] fresh)).
  eexists. reflexivity.
Defined.

(** X5: in a store the program built, after any further actions a row
    that carries the id of an earlier message is that message: recipient,
    sender, subject, body, attachment and timestamp are unchanged, and an id
    is never given to another message, even after a delete. *)
Theorem messages_are_immutable (a : app) (acts : list action) (e e' : email) :
  reachable a -> In e (emails (store a)) ->
  In e' (emails (store (run_all acts a))) -> id e' = id e ->
  same_message e e'.
Proof.
  intros Hr He He' Hid.
  apply (run_all_keeps_message acts a e e' (reachable_ok a Hr) He He' Hid).
Qed.

(** X6: the spam flag is one-way: in a store the program built, a message
    that is flagged stays flagged for as long as it exists, whatever
    actions follow. *)
Theorem spam_flag_is_one_way (a : app) (acts : list action) (e e' : email) :
  reachable a -> In e (emails (store a)) -> is_spam e = Some 1 ->
  In e' (emails (store (run_all acts a))) -> id e' = id e ->
  is_spam e' = Some 1.
Proof.
  intros Hr He Hf He' Hid.
  now apply (run_all_keeps_message acts a e e' (reachable_ok a Hr) He He' Hid).
Qed.

(** X7: in a store the program built, every message names a registered
    account as recipient and as sender, has a non-empty subject and body
    without surrounding blanks, has a timestamp, and has flag 0 or 1. *)
Theorem stored_messages_well_formed (a : app) :
  reachable a -> Forall (row_ok (store a)) (emails (store a)).
Proof. intro Hr. now destruct (reachable_ok a Hr) as [(_ & _ & _ & H & _) _]. Qed.

Lemma messages_are_immutable_witness :
  same_message
    (mkEmail 1 (Some "al") (Some "al") (Some "Hi") (Some "note") None
       (Some "2026-11-03T10:00:00") (Some 0))
    (mkEmail 1 (Some "al") (Some "al") (Some "Hi") (Some "note") None
       (Some "2026-11-03T10:00:00") (Some 1)).
Proof.
  apply (messages_are_immutable
           (run_all [Register "al" "pw"; Login "al" "pw";
                     Send "al" "Hi" "note" None "2026-11-03T10:00:00"] fresh)
           [Send "al" "Hi" "again" None "2026-11-03T10:05:00"; MarkSpam 1]).
  - eexists. reflexivity.
  - simpl. left. reflexivity.
  - simpl. left. reflexivity.
  - reflexivity.
Defined.

Lemma spam_flag_is_one_way_witness :
  is_spam
    (mkEmail 1 (Some "al") (Some "al") (Some "Urgent") (Some "note") None
       (Some "2026-11-03T10:00:00") (Some 1)) = Some 1.
Proof.
  apply (spam_flag_is_one_way
           (run_all [Register "al" "pw"; Login "al" "pw";
                     Send "al" "Urgent" "note" None "2026-11-03T10:00:00"] fresh)
           [Send "al" "Hi" "again" None "2026-11-03T10:05:00"; MarkSpam 2]
           (mkEmail 1 (Some "al") (Some "al") (Some "Urgent") (Some "note") None
              (Some "2026-11-03T10:00:00") (Some 1))).
  - eexists. reflexivity.
  - simpl. left. reflexivity.
  - reflexivity.
  - simpl. left. reflexivity.
  - reflexivity.
Defined.

Lemma stored_messages_well_formed_witness :
  Forall
    (row_ok (store (run_all [Register "al" "pw"; Login "al" "pw";
                             Send " al " " Hi " "note" None
                               "2026-11-03T10:00:00"] fresh)))
    (emails (store (run_all [Register "al" "pw"; Login "al" "pw";
                             Send " al " " Hi " "note" None
                               "2026-11-03T10:00:00"] fresh))).
Proof.
  apply (stored_messages_well_formed
           (run_all [Register "al" "pw"; Login "al" "pw";
                     Send " al " " Hi " "note" None "2026-11-03T10:00:00"]
              fresh)).
  eexists. reflexivity.
Defined.

End SessionSpec.

(* ================================================================= *)
(** ** The folders under compose, mark and delete *)

Module FolderSpec.
Import Text Sql Store Mailbox Session Views.
Import StoreSpec MailboxSpec StripSpec SessionSpec.

Lemma rid_row_from (e : email) : rid (row_from e) = id e.
Proof. reflexivity. Qed.

Lemma rid_row_to (e : email) : rid (row_to e) = id e.
Proof. reflexivity. Qed.

(** Every folder query is a projection of a selection of the rows. *)
Lemma fetch_shape (inbox spam : bool) (user : string) :
  exists (proj : email -> row) (sel : email -> bool),
    (forall e, rid (proj e) = id e) /\
    (forall e j, id e <> j -> sel (set_spam j e) = sel e) /\
    (forall e j, proj (set_spam j e) = proj e) /\
    forall d, fetch inbox spam user d = map proj (filter sel (emails d)).
Proof.
  assert (P1 : forall e j, row_from (set_spam j e) = row_from e)
    by (intros e j; unfold set_spam; now destruct (id e =? j)).
  assert (P2 : forall e j, row_to (set_spam j e) = row_to e)
    by (intros e j; unfold set_spam; now destruct (id e =? j)).
  unfold fetch. destruct spam; [|destruct inbox].
  - exists row_from,
      (fun e => holds (and3 (eq_text (recipient e) user) (eq_int (is_spam e) 1))).
    repeat split; auto. intros e j H. now rewrite set_spam_other.
  - exists row_from, (fun e => holds (eq_text (recipient e) user)).
    repeat split; auto. intros e j H. now rewrite set_spam_other.
  - exists row_to, (fun e => holds (eq_text (sender e) user)).
    repeat split; auto. intros e j H. now rewrite set_spam_other.
Qed.

Lemma filter_map_rid (proj : email -> row) (i : Z) (l : list email) :
  (forall e, rid (proj e) = id e) ->
  filter (fun r => negb (rid r =? i)) (map proj l)
  = map proj (filter (fun e => negb (id e =? i)) l).
Proof.
  intro H. induction l as [|e l IH]; [reflexivity|].
  simpl. rewrite H. destruct (id e =? i); simpl; now rewrite IH.
Qed.

Lemma filter_swap {A} (p q : A -> bool) (l : list A) :
  filter p (filter q l) = filter q (filter p l).
Proof.
  induction l as [|x l IH]; [reflexivity|]. simpl.
  destruct (p x) eqn:Ep, (q x) eqn:Eq; simpl; rewrite ?Ep, ?Eq, IH; reflexivity.
Qed.

(** X8: a confirmed delete removes the message with that id from every
    folder of every user and leaves the other cards of each folder as they
    were, in the same order; a delete that is not confirmed, or whose id is
    not in the store, changes nothing. *)
Theorem delete_removes_everywhere (d : db) (i : Z) (inbox spam : bool)
    (user : string) :
  fetch inbox spam user (delete_email d true i)
  = filter (fun r => negb (rid r =? i)) (fetch inbox spam user d) /\
  delete_email d false i = d /\
  (id_present d i = false -> delete_email d true i = d).
Proof.
  split; [|split].
  - destruct (fetch_shape inbox spam user) as (proj & sel & Hrid & _ & _ & F).
    rewrite !F. unfold delete_email. simpl.
    rewrite (filter_map_rid proj i _ Hrid). f_equal. apply filter_swap.
  - reflexivity.
  - intro H. unfold delete_email, id_present in *. destruct d as [us es n].
    simpl in *. f_equal. induction es as [|e es IH]; [reflexivity|].
    simpl in *. apply orb_false_iff in H as [He Hes].
    rewrite He. simpl. now rewrite IH.
Qed.

Lemma delete_removes_everywhere_witness :
  delete_email Sample.two_users true 9 = Sample.two_users.
Proof.
  apply (delete_removes_everywhere Sample.two_users 9 true false "bob").
  reflexivity.
Defined.

Lemma map_filter_set_spam (proj : email -> row) (sel : email -> bool) (j : Z)
    (l : list email) :
  (forall e, sel (set_spam j e) = sel e) ->
  (forall e, proj (set_spam j e) = proj e) ->
  map proj (filter sel (map (set_spam j) l)) = map proj (filter sel l).
Proof.
  intros Hs Hp. induction l as [|e l IH]; [reflexivity|].
  simpl. rewrite Hs. destruct (sel e); simpl; now rewrite ?Hp, IH.
Qed.

Lemma received_by_set_spam (user : string) (j : Z) (e : email) :
  received_by user (set_spam j e) = received_by user e.
Proof. unfold set_spam. now destruct (id e =? j). Qed.

(** X9: marking a message leaves the Inbox and the Sent folder of every
    user exactly as they were, the marked message included; the Spam folder
    of a user afterwards holds what it held before and the cards of that
    user's Inbox that carry the marked id. *)
Theorem mark_as_spam_views (d : db) (i : Z) (user : string) :
  let d' := fst (mark_as_spam d i) in
  fetch true false user d' = fetch true false user d /\
  fetch false false user d' = fetch false false user d /\
  forall r, In r (fetch true true user d') <->
            In r (fetch true true user d) \/
            (In r (fetch true false user d) /\ rid r = i).
Proof.
  intro d'. subst d'. unfold fetch, mark_as_spam. simpl.
  split; [|split].
  - apply map_filter_set_spam; intros e; unfold set_spam;
      now destruct (id e =? i).
  - apply map_filter_set_spam; intros e; unfold set_spam;
      now destruct (id e =? i).
  - intro r. rewrite !in_map_iff. split.
    + intros (e' & <- & H). apply filter_In in H as [H C].
      apply in_map_iff in H as (e & <- & He).
      rewrite holds_and3, holds_eq_recipient, holds_eq_spam in C.
      apply andb_true_iff in C as [Cr Cf]. rewrite received_by_set_spam in Cr.
      assert (R : row_from (set_spam i e) = row_from e)
        by (unfold set_spam; now destruct (id e =? i)).
      rewrite R. destruct (Z.eqb_spec (id e) i) as [E|N].
      * right. split; [|exact E]. exists e. split; [reflexivity|].
        apply filter_In. split; [assumption|]. now rewrite holds_eq_recipient.
      * left. exists e. split; [reflexivity|]. apply filter_In.
        split; [assumption|]. rewrite set_spam_other in Cf by assumption.
        now rewrite holds_and3, holds_eq_recipient, holds_eq_spam, Cr, Cf.
    + intros [(e & <- & H)|[(e & <- & H) E]].
      * apply filter_In in H as [He C]. exists (set_spam i e). split.
        -- unfold set_spam. now destruct (id e =? i).
        -- apply filter_In. split; [now apply in_map|].
           rewrite holds_and3, holds_eq_recipient, holds_eq_spam in *.
           apply andb_true_iff in C as [Cr Cf].
           rewrite received_by_set_spam, Cr. simpl.
           unfold set_spam. destruct (id e =? i); [reflexivity | exact Cf].
      * apply filter_In in H as [He C]. exists (set_spam i e). split.
        -- unfold set_spam. now destruct (id e =? i).
        -- apply filter_In. split; [now apply in_map|].
           rewrite holds_and3, holds_eq_recipient, holds_eq_spam in *.
           rewrite received_by_set_spam, C. simpl.
           apply flagged_iff. now apply set_spam_hit.
Qed.

Lemma mark_as_spam_views_witness :
  In (row_from Sample.bob_to_alice)
     (fetch true true "alice" (fst (mark_as_spam Sample.two_users 2))).
Proof.
  apply (mark_as_spam_views Sample.two_users 2 "alice").
  right. split; [|reflexivity]. simpl. left. reflexivity.
Defined.

(** X10: a send that passes both checks puts one new card, with the next
    id, at the end of the recipient's Inbox and at the end of the sender's
    Sent folder, and at the end of the recipient's Spam folder exactly when
    the classifier flags the stripped subject and body; the Inbox of every
    other user is unchanged. *)
Theorem send_delivers (d : db) (cu to_field subject_field message_field : string)
    (attach : option string) (now : string) :
  strip to_field <> "" -> strip subject_field <> "" ->
  strip message_field <> "" -> (exists pw, In (strip to_field, pw) (users d)) ->
  let d' := fst (handle_send d cu to_field subject_field message_field
                   attach now) in
  let card who := mkRow (last_id d + 1) (Some who) (Some (strip subject_field))
                    (Some (strip message_field)) attach (Some now) in
  fetch true false (strip to_field) d'
  = (fetch true false (strip to_field) d ++ [card cu])%list /\
  fetch false false cu d'
  = (fetch false false cu d ++ [card (strip to_field)])%list /\
  fetch true true (strip to_field) d'
  = (fetch true true (strip to_field) d
     ++ if Classifier.detect_spam (strip subject_field) (strip message_field)
        then [card cu] else [])%list /\
  forall other, other <> strip to_field ->
                fetch true false other d' = fetch true false other d.
Proof.
  intros Ht Hs Hm Hx d' card. subst d'.
  apply user_exists_iff in Hx.
  destruct (handle_send_cases d cu to_field subject_field message_field
              attach now) as [[_ E]|(_ & _ & _ & _ & _ & E)].
  - exfalso. unfold handle_send in E.
    apply truthy_true_iff in Ht, Hs, Hm. rewrite Ht, Hs, Hm, Hx in E.
    simpl in E. now destruct (Classifier.detect_spam _ _).
  - simpl in E. rewrite E. unfold fetch. simpl.
    rewrite !filter_app, !map_app. simpl.
    rewrite !String.eqb_refl. simpl.
    split; [reflexivity|]. split; [reflexivity|]. split.
    + now destruct (Classifier.detect_spam _ _).
    + intros other Ho. apply not_eq_sym in Ho.
      apply String.eqb_neq in Ho. rewrite filter_app, map_app. simpl.
      rewrite Ho. simpl. now rewrite app_nil_r.
Qed.

Lemma send_delivers_witness :
  fetch true true "bob"
    (fst (handle_send Sample.no_mail "alice" " bob" "Urgent" "call me" None
            "2026-11-03T10:00:00"))
  = [mkRow 1 (Some "alice") (Some "Urgent") (Some "call me") None
       (Some "2026-11-03T10:00:00")].
Proof.
  apply (send_delivers Sample.no_mail "alice" " bob" "Urgent" "call me" None
           "2026-11-03T10:00:00"); try discriminate.
  exists "pw2". right; left; reflexivity.
Defined.

(** X11: an attached file survives composing and delivery: when the send
    succeeds with the text [choose_file] made of the file's bytes, the new
    card in the recipient's Inbox carries a text that [save_attachment]
    decodes to those bytes. *)
Theorem attachment_survives_delivery (d : db) (cu to_field subject_field
    message_field : string) (data : list byte) (now : string) :
  strip to_field <> "" -> strip subject_field <> "" ->
  strip message_field <> "" -> (exists pw, In (strip to_field, pw) (users d)) ->
  let d' := fst (handle_send d cu to_field subject_field message_field
                   (Base64.choose_file data) now) in
  exists text,
    rattachment (last (fetch true false (strip to_field) d')
                   (mkRow 0 None None None None None)) = Some text /\
    Base64.save_attachment text = Some data.
Proof.
  intros Ht Hs Hm Hx d'. subst d'.
  apply user_exists_iff in Hx.
  destruct (handle_send_cases d cu to_field subject_field message_field
              (Base64.choose_file data) now)
    as [[_ E]|(_ & _ & _ & _ & _ & E)].
  - exfalso. unfold handle_send in E.
    apply truthy_true_iff in Ht, Hs, Hm. rewrite Ht, Hs, Hm, Hx in E.
    simpl in E. now destruct (Classifier.detect_spam _ _).
  - simpl in E. rewrite E. unfold fetch. simpl.
    rewrite filter_app, map_app. simpl. rewrite String.eqb_refl. simpl.
    rewrite last_last. simpl. exists (Base64.b64encode data).
    split; [reflexivity|]. unfold Base64.save_attachment, Base64.b64decode.
    now rewrite Base64Spec.b64encode_ascii, Base64Spec.a2b_loop_encode.
Qed.

Lemma attachment_survives_delivery_witness :
  exists text,
    rattachment
      (last (fetch true false "bob"
               (fst (handle_send Sample.no_mail "alice" "bob" "Hi" "see file"
                       (Base64.choose_file [x48; x69]) "2026-11-03T10:00:00")))
         (mkRow 0 None None None None None)) = Some text /\
    Base64.save_attachment text = Some [x48; x69].
Proof.
  apply (attachment_survives_delivery Sample.no_mail "alice" "bob" "Hi"
           "see file" [x48; x69] "2026-11-03T10:00:00"); try discriminate.
  exists "pw2". right; left; reflexivity.
Defined.

Lemma filter_none {A} (p : A -> bool) (l : list A) :
  (forall x, In x l -> p x = false) -> filter p l = [].
Proof.
  induction l as [|x l IH]; intro H; [reflexivity|].
  simpl. rewrite H by now left. apply IH. intros y Hy. apply H. now right.
Qed.

(** X12: mail can only be addressed to a name without surrounding blanks:
    in a store the program built, the Inbox and the Spam folder of an account
    whose name starts or ends with a blank are empty. *)
Theorem blank_edged_account_gets_no_mail (a : app) (name : string) :
  reachable a -> strip name <> name ->
  fetch true false name (store a) = [] /\ fetch true true name (store a) = [].
Proof.
  intros Hr Hn. destruct (reachable_ok a Hr) as [(_ & _ & _ & Hrows & _) _].
  assert (N : forall e, In e (emails (store a)) ->
                        holds (eq_text (recipient e) name) = false).
  { intros e He. rewrite Forall_forall in Hrows.
    destruct (Hrows e He) as (_ & (r & Er & _ & Sr) & _).
    rewrite Er. simpl. destruct (String.eqb_spec r name) as [->|_];
      [contradiction | reflexivity]. }
  unfold fetch. split.
  - rewrite filter_none; [reflexivity | exact N].
  - rewrite filter_none; [reflexivity|]. intros e He.
    now rewrite holds_and3, N.
Qed.

Lemma blank_edged_account_gets_no_mail_witness :
  fetch true false " bob"
    (store (run_all [Register " bob" "pw"; Register "al" "pw"; Login "al" "pw";
                     Send " bob" "Hi" "hello" None "2026-11-03T10:00:00"] fresh))
  = [].
Proof.
  apply (blank_edged_account_gets_no_mail
           (run_all [Register " bob" "pw"; Register "al" "pw"; Login "al" "pw";
                     Send " bob" "Hi" "hello" None "2026-11-03T10:00:00"] fresh)
           " bob").
  - eexists. reflexivity.
  - discriminate.
Defined.

End FolderSpec.

(* ================================================================= *)
(** ** Search, the date sort and the cards *)

Module ViewSpec.
Import Text Sql Store Mailbox Session Cards Views Calendar.
Import TextFacts StringOrder StoreSpec MailboxSpec StripSpec SessionSpec SortSpec.

Lemma lower_char_idempotent (c : ascii) :
  lower_char (lower_char c) = lower_char c.
Proof. destruct c as [[] [] [] [] [] [] [] []]; reflexivity. Qed.

Lemma lower_idempotent (s : string) : lower (lower s) = lower s.
Proof.
  induction s as [|c s IH]; [reflexivity|].
  simpl. now rewrite lower_char_idempotent, IH.
Qed.

Lemma lower_app (s t : string) : lower (s ++ t) = lower s ++ lower t.
Proof. induction s as [|c s IH]; [reflexivity|]. simpl. now rewrite IH. Qed.

(** X13: the search box keeps, in their order, exactly the rows in which
    the lower-cased keyword occurs in the lower-cased contact, subject or
    body (a NULL field reading as empty); an empty keyword keeps every row;
    and the keyword's own case does not matter. *)
Theorem search_filter_spec (search : string) (l : list row) :
  (lower search = "" -> search_filter search l = l) /\
  (lower search <> "" ->
   forall r, In r (search_filter search l) <->
             In r l /\
             (is_substring (lower search) (lower (field (person r))) \/
              is_substring (lower search) (lower (field (rsubject r))) \/
              is_substring (lower search) (lower (field (rbody r))))) /\
  search_filter (lower search) l = search_filter search l /\
  exists keep, search_filter search l = filter keep l.
Proof.
  unfold search_filter. rewrite lower_idempotent.
  split; [|split; [|split]].
  - intro E. now rewrite E.
  - intros N r. apply truthy_true_iff in N. rewrite N, filter_In.
    rewrite !orb_true_iff, !contains_iff, !or_empty_field. tauto.
  - reflexivity.
  - destruct (truthy (lower search)); [eauto|].
    exists (fun _ => true). clear. induction l; simpl; congruence.
Qed.

Lemma search_filter_spec_witness :
  search_filter "  " [Mailbox.row_from Sample.alice_to_bob]
  = search_filter "  " [Mailbox.row_from Sample.alice_to_bob] /\
  In (Mailbox.row_from Sample.alice_to_bob)
     (search_filter "PRIZE" [Mailbox.row_from Sample.alice_to_bob]).
Proof.
  split; [reflexivity|].
  apply (proj1 (proj2 (search_filter_spec "PRIZE"
                         [Mailbox.row_from Sample.alice_to_bob]))).
  - discriminate.
  - split; [now left|]. right; right. exists "claim your ", "". reflexivity.
Defined.

Lemma strongly_sorted_snoc {A} (R : A -> A -> Prop) (l : list A) (x : A) :
  StronglySorted R l -> Forall (fun y => R y x) l ->
  StronglySorted R (l ++ [x]).
Proof.
  induction 1 as [|y l Hs IH Hall]; intro H; simpl.
  - repeat constructor.
  - inversion H; subst. constructor; [now apply IH|].
    apply Forall_app. split; [assumption | now constructor].
Qed.

Lemma strongly_sorted_rev {A} (R : A -> A -> Prop) (l : list A) :
  StronglySorted R l -> StronglySorted (fun a b => R b a) (rev l).
Proof.
  induction 1 as [|x l Hs IH Hall]; simpl; [constructor|].
  apply strongly_sorted_snoc; [assumption|].
  apply Forall_rev. exact Hall.
Qed.

(** X14: any sort choice other than Subject and Sender/Recipient sorts by
    date: the cards are the filtered rows, newest timestamp first in text
    order (a NULL timestamp reading as empty, so last), and rows with equal
    timestamps keep the order in which the query returned them. *)
Theorem date_sort_descending (inbox spam : bool) (user : string) (d : db)
    (search sort : string) :
  sort <> "Subject" -> sort <> "Sender/Recipient" ->
  let filtered := search_filter search (fetch inbox spam user d) in
  let cards := refresh inbox spam user d search sort in
  Permutation filtered cards /\
  StronglySorted
    (fun a b => String.leb (field (rtimestamp b)) (field (rtimestamp a)) = true)
    cards /\
  forall k, filter (fun m => String.eqb (field (rtimestamp m)) k) cards
            = filter (fun m => String.eqb (field (rtimestamp m)) k) filtered.
Proof.
  intros H1 H2 filtered cards. subst cards. unfold refresh, sort_rows.
  fold filtered.
  apply String.eqb_neq in H1, H2. rewrite H1, H2. unfold sort_by_reverse.
  assert (K : forall m, extract_date m = field (rtimestamp m))
    by (intro m; apply or_empty_field).
  split; [|split].
  - rewrite <- Permutation_rev, <- sort_by_perm. apply Permutation_rev.
  - pose proof (strongly_sorted_rev _ _
                  (sort_by_sorted extract_date (rev filtered))) as S.
    eapply StronglySorted_ind with (P := fun r => StronglySorted _ r);
      [constructor | | exact S].
    intros x r _ IH Hall. constructor; [exact IH|].
    eapply Forall_impl; [|exact Hall]. intros y Hy.
    unfold key_le in Hy. now rewrite !K in Hy.
  - intro k.
    rewrite !(filter_ext (fun m => String.eqb (field (rtimestamp m)) k)
                         (fun m => String.eqb (extract_date m) k))
      by (intro m; now rewrite K).
    now rewrite filter_rev, sort_by_stable, filter_rev, rev_involutive.
Qed.

Lemma date_sort_descending_witness :
  Permutation
    (search_filter "" (fetch true false "bob" Sample.two_users))
    (refresh true false "bob" Sample.two_users "" "Date").
Proof.
  apply (date_sort_descending true false "bob" Sample.two_users "" "Date");
    discriminate.
Defined.

Lemma length_take (n : nat) (s : string) :
  String.length (take n s) = Nat.min n (String.length s).
Proof.
  unfold take. revert s. induction n as [|n IH]; intros [|c s]; simpl; auto.
Qed.

Lemma take_all (n : nat) (s : string) :
  (String.length s <= n)%nat -> take n s = s.
Proof.
  unfold take. revert s. induction n as [|n IH]; intros [|c s]; simpl;
    intro H; try reflexivity; try lia.
  rewrite IH; [reflexivity | lia].
Qed.

Lemma length_append (s t : string) :
  String.length (s ++ t) = (String.length s + String.length t)%nat.
Proof. induction s as [|c s IH]; simpl; [reflexivity | now rewrite IH]. Qed.

Lemma append_empty_r (s : string) : s ++ "" = s.
Proof. induction s as [|c s IH]; simpl; [reflexivity | now rewrite IH]. Qed.

Lemma take_append (s t : string) : take (String.length s) (s ++ t) = s.
Proof.
  unfold take. induction s as [|c s IH]; simpl.
  - now destruct t.
  - now rewrite IH.
Qed.

(** X15: the text a card shows for a body is never longer than 253
    characters; a body of at most 250 characters is shown whole; a longer one
    is cut to its first 250 characters followed by three dots. *)
Theorem body_preview_bounds (body : string) :
  (String.length (body_preview body) <= 253)%nat /\
  ((String.length body <= 250)%nat -> body_preview body = body) /\
  ((250 < String.length body)%nat ->
   body_preview body = take 250 body ++ "..." /\
   String.length (body_preview body) = 253%nat).
Proof.
  unfold body_preview.
  destruct (Nat.ltb_spec 250 (String.length body)) as [L|L].
  - split; [|split].
    + rewrite length_append, length_take.
      change (String.length "...") with 3%nat;
      change (String.length "") with 0%nat; lia.
    + lia.
    + intros _. split; [reflexivity|].
      rewrite length_append, length_take.
      change (String.length "...") with 3%nat;
      change (String.length "") with 0%nat; lia.
  - split; [|split].
    + rewrite length_append, length_take.
      change (String.length "...") with 3%nat;
      change (String.length "") with 0%nat; lia.
    + intros _. now rewrite append_empty_r, take_all.
    + lia.
Qed.

Lemma body_preview_bounds_witness :
  body_preview "See you at 3pm" = "See you at 3pm".
Proof.
  apply (body_preview_bounds "See you at 3pm"). simpl. lia.
Defined.

Lemma digit_cases (n : Z) :
  In (digit n) ["0"; "1"; "2"; "3"; "4"; "5"; "6"; "7"; "8"; "9"]%char.
Proof.
  unfold digit. pose proof (Z.mod_pos_bound n 10 eq_refl) as B.
  assert (C : n mod 10 = 0 \/ n mod 10 = 1 \/ n mod 10 = 2 \/ n mod 10 = 3
              \/ n mod 10 = 4 \/ n mod 10 = 5 \/ n mod 10 = 6
              \/ n mod 10 = 7 \/ n mod 10 = 8 \/ n mod 10 = 9) by lia.
  simpl. repeat (destruct C as [C|C]; [rewrite C; tauto|]).
  rewrite C. tauto.
Qed.

Lemma digit_not_T (n : Z) : Ascii.eqb (digit n) "T" = false.
Proof.
  pose proof (digit_cases n) as H. simpl in H.
  repeat (destruct H as [<-|H]; [reflexivity|]). contradiction.
Qed.

(** X16: for a timestamp in the format the send handler stores (an ISO
    date, the letter T, a time), the date a card shows and the day under
    which the per-day series counts the message are the same text. *)
Theorem card_date_is_series_day (d : date) (time : string) :
  time_label (isoformat d ++ "T" ++ time) = isoformat d /\
  take 10 (isoformat d ++ "T" ++ time) = isoformat d.
Proof.
  split.
  - unfold time_label, isoformat, pad4, pad2. cbn [append truthy before_T].
    rewrite !digit_not_T. reflexivity.
  - change 10%nat with (String.length (isoformat d)). apply take_append.
Qed.

Lemma strip_reply_subject (t : string) : strip ("Re: " ++ t) <> "".
Proof.
  unfold strip. change (lstrip ("Re: " ++ t)) with ("Re: " ++ t).
  destruct (rstrip_head "R" ("e: " ++ t) eq_refl) as [t' E].
  change (String "R" ("e: " ++ t)) with ("Re: " ++ t) in E.
  rewrite E. discriminate.
Qed.

(** X17: in a store the program built, pressing Reply on a card and
    sending the prefilled To and Subject with a non-blank message always
    succeeds when the original sender's name has no surrounding blanks: the
    new message goes to that sender, from the current user, under the subject
    "Re: " followed by the original subject. *)
Theorem reply_reaches_sender (a : app) (cu s msg now : string) (e : email) :
  reachable a -> current_user a = Some cu -> In e (emails (store a)) ->
  sender e = Some s -> strip s = s -> strip msg <> "" ->
  let card := row_from e in
  let result := handle_send (store a) cu (reply_to card) (reply_subject card)
                  msg None now in
  is_error (snd result) = false /\
  exists row,
    emails (fst result) = (emails (store a) ++ [row])%list /\
    recipient row = Some s /\ sender row = Some cu /\
    subject row = Some (strip ("Re: " ++ field (subject e))).
Proof.
  intros Hr Hcu He Hs Hss Hm card result. subst card result.
  destruct (reachable_ok a Hr) as [(_ & Hne & _ & Hrows & _) _].
  rewrite Forall_forall in Hrows.
  destruct (Hrows e He) as (_ & _ & (s' & Es' & Hx) & _).
  rewrite Hs in Es'. injection Es' as <-.
  assert (Hnz : s <> "").
  { apply user_exists_iff in Hx as (pw & Hin).
    rewrite Forall_forall in Hne. now destruct (Hne _ Hin). }
  unfold reply_to, reply_subject, row_from. cbn [person rsubject].
  rewrite Hs, or_empty_field.
  pose proof (strip_reply_subject (field (subject e))) as Hsub.
  remember ("Re: " ++ field (subject e)) as subj eqn:Esubj.
  destruct (handle_send_cases (store a) cu s subj msg None now)
    as [[_ E]|(_ & _ & _ & _ & Eok & E)].
  - exfalso. unfold handle_send in E. rewrite Hss in E.
    apply truthy_true_iff in Hnz, Hsub, Hm. rewrite Hnz, Hsub, Hm, Hx in E.
    simpl in E. now destruct (Classifier.detect_spam _ _).
  - split; [exact Eok|]. cbv zeta in E. rewrite E. simpl.
    eexists. split; [reflexivity|]. simpl. now rewrite Hss.
Qed.

Lemma reply_reaches_sender_witness :
  is_error
    (snd (handle_send
            (store (run_all [Register "al" "pw"; Register "bo" "pw";
                             Login "al" "pw";
                             Send "bo" "Hi" "hello" None "2026-11-03T10:00:00";
                             Logout; Login "bo" "pw"] fresh))
            "bo" "al" "Re: Hi" "thanks" None "2026-11-03T11:00:00")) = false.
Proof.
  apply (reply_reaches_sender
           (run_all [Register "al" "pw"; Register "bo" "pw";
                     Login "al" "pw";
                     Send "bo" "Hi" "hello" None "2026-11-03T10:00:00";
                     Logout; Login "bo" "pw"] fresh)
           "bo" "al" "thanks" "2026-11-03T11:00:00"
           (mkEmail 1 (Some "bo") (Some "al") (Some "Hi") (Some "hello") None
              (Some "2026-11-03T10:00:00") (Some 0))).
  - eexists. reflexivity.
  - reflexivity.
  - simpl. left. reflexivity.
  - reflexivity.
  - reflexivity.
  - discriminate.
Defined.

End ViewSpec.

(* ================================================================= *)
(** ** The counters and the series *)

Module SummarySpec.
Import Text Sql Store Mailbox Session Summary Calendar Analytics Views.
Import StoreSpec MailboxSpec SessionSpec TallySpec AnalyticsSpec.

Lemma select_count_ext (c1 : email -> tv) (p : email -> bool) (d : db) :
  (forall e, holds (c1 e) = p e) -> select_count c1 d = count p (emails d).
Proof.
  intro H. unfold select_count, count. f_equal. f_equal.
  apply filter_ext. exact H.
Qed.

(** X18: the counters of the main menu and of the analytics window agree
    with the folders: Received is the number of cards of the Inbox, Sent the
    number of cards of the Sent folder, and Spam Received the number of cards
    of the Spam folder. *)
Theorem counters_match_folders (user : string) (d : db) :
  total_received user d = Z.of_nat (List.length (fetch true false user d)) /\
  total_sent user d = Z.of_nat (List.length (fetch false false user d)) /\
  spam_received user d = Z.of_nat (List.length (fetch true true user d)).
Proof.
  unfold total_received, total_sent, spam_received, select_count, fetch.
  now rewrite !length_map.
Qed.

Lemma count_split {A} (p q : A -> bool) (l : list A) :
  count p l = count (fun x => p x && q x) l + count (fun x => p x && negb (q x)) l.
Proof.
  induction l as [|x l IH]; [reflexivity|].
  rewrite !count_cons, IH. cbv beta.
  destruct (p x), (q x); cbn [andb negb]; lia.
Qed.

Lemma count_same {A} (p q : A -> bool) (l : list A) :
  (forall x, In x l -> p x = q x) -> count p l = count q l.
Proof.
  intro H. induction l as [|x l IH]; [reflexivity|].
  rewrite !count_cons, H by now left. rewrite IH; [reflexivity|].
  intros y Hy. apply H. now right.
Qed.

Lemma count_nonneg {A} (p : A -> bool) (l : list A) : 0 <= count p l.
Proof. unfold count. lia. Qed.

Lemma holds_is_null {A} (col : option A) :
  holds (is_null col) = match col with None => true | Some _ => false end.
Proof. now destruct col. Qed.

(** X19: the two slices of the pie chart never count more than the Inbox
    holds, and in a store the program built they add up to it exactly: every
    received message is either Normal or Spam. *)
Theorem pie_covers_inbox (a : app) (user : string) :
  (forall d, normal_recv user d + spam_recv user d <= total_received user d) /\
  (reachable a ->
   normal_recv user (store a) + spam_recv user (store a)
   = total_received user (store a)).
Proof.
  assert (N : forall d, normal_recv user d
                = count (fun e => received_by user e
                          && match is_spam e with
                             | Some v => v =? 0
                             | None => true
                             end) (emails d)).
  { intro d. apply select_count_ext. intro e.
    rewrite holds_and3, holds_or3, holds_eq_recipient, holds_is_null.
    f_equal. destruct (is_spam e) as [v|]; simpl; [|reflexivity].
    destruct (v =? 0); reflexivity. }
  assert (S : forall d, spam_recv user d
                = count (fun e => received_by user e && flagged e) (emails d)).
  { intro d. apply select_count_ext. intro e.
    now rewrite holds_and3, holds_eq_recipient, holds_eq_spam. }
  assert (T : forall d, total_received user d
                = count (received_by user) (emails d)).
  { intro d. apply select_count_ext. intro e. apply holds_eq_recipient. }
  split.
  - intro d. rewrite N, S, T, (count_split (received_by user) flagged).
    enough (count (fun e => received_by user e
                            && match is_spam e with
                               | Some v => v =? 0
                               | None => true
                               end) (emails d)
            <= count (fun x => received_by user x && negb (flagged x)) (emails d))
      by lia.
    clear. induction (emails d) as [|e es IH]; [reflexivity|].
    rewrite !count_cons. cbv beta. unfold flagged in *.
    destruct (received_by user e); cbn [andb negb]; [|lia].
    destruct (is_spam e) as [v|]; cbn [andb negb]; [|lia].
    destruct (Z.eqb_spec v 0) as [->|];
      [change (0 =? 1) with false; cbn [negb]; lia|].
    destruct (negb (v =? 1)); lia.
  - intro Hr. rewrite N, S, T, (count_split (received_by user) flagged).
    rewrite Z.add_comm. f_equal. apply count_same. intros e He.
    destruct (reachable_ok a Hr) as [(_ & _ & _ & Hrows & _) _].
    rewrite Forall_forall in Hrows.
    destruct (Hrows e He) as (_ & _ & _ & _ & _ & _ & [E|E]);
      unfold flagged; rewrite E; reflexivity.
Qed.

Lemma pie_covers_inbox_witness :
  normal_recv "al"
    (store (run_all [Register "al" "pw"; Login "al" "pw";
                     Send "al" "Urgent" "note" None "2026-11-03T10:00:00";
                     Send "al" "Hi" "note" None "2026-11-03T10:01:00"] fresh))
  + spam_recv "al"
      (store (run_all [Register "al" "pw"; Login "al" "pw";
                       Send "al" "Urgent" "note" None "2026-11-03T10:00:00";
                       Send "al" "Hi" "note" None "2026-11-03T10:01:00"] fresh))
  = total_received "al"
      (store (run_all [Register "al" "pw"; Login "al" "pw";
                       Send "al" "Urgent" "note" None "2026-11-03T10:00:00";
                       Send "al" "Hi" "note" None "2026-11-03T10:01:00"] fresh)).
Proof.
  apply (pie_covers_inbox
           (run_all [Register "al" "pw"; Login "al" "pw";
                     Send "al" "Urgent" "note" None "2026-11-03T10:00:00";
                     Send "al" "Hi" "note" None "2026-11-03T10:01:00"] fresh)
           "al").
  eexists. reflexivity.
Defined.

(** X20: Total Spam counts a flagged message once even when the user is
    both its sender and its recipient: Spam Received plus Spam Sent exceeds
    Total Spam by exactly the number of flagged messages the user sent to
    themselves. *)
Theorem spam_totals (user : string) (d : db) :
  total_spam user d
  + count (fun e => sent_by user e && received_by user e && flagged e) (emails d)
  = spam_received user d + spam_sent user d.
Proof.
  unfold total_spam, spam_received, spam_sent.
  rewrite (select_count_ext _ (fun e => (sent_by user e || received_by user e)
                                        && flagged e))
    by (intro e; now rewrite holds_and3, holds_or3, holds_eq_sender,
                   holds_eq_recipient, holds_eq_spam).
  rewrite (select_count_ext _ (fun e => received_by user e && flagged e))
    by (intro e; now rewrite holds_and3, holds_eq_recipient, holds_eq_spam).
  rewrite (select_count_ext _ (fun e => sent_by user e && flagged e))
    by (intro e; now rewrite holds_and3, holds_eq_sender, holds_eq_spam).
  induction (emails d) as [|e es IH]; [reflexivity|].
  rewrite !count_cons. cbv beta.
  destruct (sent_by user e), (received_by user e), (flagged e);
    cbn [andb orb]; lia.
Qed.

(** X21: for a user who neither sent nor received any stored message, the
    per-day series is the 30 days of the window, each with count 0, and the
    per-month series is the 6 months of the window, each with count 0: the
    series are never empty. *)
Theorem quiet_user_series (user : string) (today : date) (d : db) :
  valid today -> valid (sub_days today 29) ->
  1 <= year (sub_days (first_of_month today) 180) ->
  (forall e, In e (emails d) ->
             sender e <> Some user /\ recipient e <> Some user) ->
  daily_counts user today d = map (fun k => (k, 0)) (day_window today) /\
  month_counts user today d = map (fun k => (k, 0)) (month_window today).
Proof.
  intros Ht Hs Hm Hq.
  assert (Z0 : forall q : email -> bool,
             count (fun e => involved user e && q e) (emails d) = 0).
  { intro q. rewrite (count_same _ (fun _ => false)).
    - unfold count. clear. induction (emails d); simpl; auto.
    - intros e He. destruct (Hq e He) as [H1 H2]. unfold involved.
      destruct (sent_by user e) eqn:E1;
        [apply sent_by_iff in E1; contradiction|].
      destruct (received_by user e) eqn:E2;
        [apply received_by_iff in E2; contradiction|]. reflexivity. }
  split.
  - rewrite (daily_counts_series today Ht Hs user d).
    apply map_ext. intro k. f_equal. apply Z0.
  - rewrite (month_counts_series today Ht Hm user d).
    apply map_ext. intro k. f_equal.
    rewrite (count_same _ (fun e => involved user e
                                    && (flagged e && stamp_is 7 k e)))
      by (intros e _; now rewrite andb_assoc).
    apply Z0.
Qed.

Lemma quiet_user_series_witness :
  daily_counts "carol" (mkDate 2026 11 3) Sample.two_users
  = map (fun k => (k, 0)) (day_window (mkDate 2026 11 3)).
Proof.
  apply (quiet_user_series "carol" (mkDate 2026 11 3) Sample.two_users).
  - unfold valid. repeat split; vm_compute; discriminate.
  - unfold valid. repeat split; vm_compute; discriminate.
  - vm_compute. discriminate.
  - intros e [<-|[<-|[]]]; split; discriminate.
Defined.

(** X22: the loop that brings a month number into the calendar ends, for
    any start not above 12, with a month between 1 and 12 and without
    changing the month it names: 12 * year + month is the same before and
    after. *)
Theorem wrap_month_normalises (fuel : nat) (y m : Z) :
  m <= 12 -> (Z.to_nat (1 - m) <= fuel)%nat ->
  1 <= snd (wrap_month fuel y m) <= 12 /\
  12 * fst (wrap_month fuel y m) + snd (wrap_month fuel y m) = 12 * y + m.
Proof.
  revert y m. induction fuel as [|fuel IH]; intros y m Hm Hf.
  - cbn [wrap_month]. destruct (Z.leb_spec m 0); simpl; lia.
  - cbn [wrap_month]. destruct (Z.leb_spec m 0) as [L|G]; [|simpl; lia].
    destruct (IH (y - 1) (m + 12)) as [B E]; lia.
Qed.

Lemma wrap_month_normalises_witness :
  1 <= snd (wrap_month 30 2026 (-29)) <= 12 /\
  12 * fst (wrap_month 30 2026 (-29)) + snd (wrap_month 30 2026 (-29))
  = 12 * 2026 + -29.
Proof.
  apply (wrap_month_normalises 30 2026 (-29)).
  - lia.
  - vm_compute. repeat constructor.
Defined.

End SummarySpec.

(* ================================================================= *)
(** ** The export of all messages *)

Module CsvExportSpec.
Import Text Store Session CsvExport.
Import StoreSpec SessionSpec.

Lemma write_rows_all (fault : io_fault) (es : list email) (k : nat) :
  (forall j, (k <= j < k + List.length es)%nat -> write_raises fault j = None) ->
  Forall (fun e => subject e <> None /\ body e <> None) es ->
  exists ls, write_rows fault k es = (ls, Completed) /\
             List.length ls = List.length es.
Proof.
  intros Hw Hall. revert k Hw.
  induction Hall as [|e es [Hs Hb] _ IH]; intros k Hw; simpl.
  - now exists [].
  - unfold export_row.
    destruct (subject e) as [s|]; [|contradiction].
    destruct (body e) as [b|]; [|contradiction].
    rewrite Hw by (simpl; lia).
    destruct (IH (S k)) as (ls & E & L).
    { intros j Hj. apply Hw. simpl. lia. }
    rewrite E. eexists. split; [reflexivity|]. simpl. now rewrite L.
Qed.

Lemma write_rows_stops (fault : io_fault) (es : list email) (k : nat) :
  (forall j, write_raises fault j = None) ->
  (exists e, In e es /\ (subject e = None \/ body e = None)) ->
  exists ls, write_rows fault k es = (ls, NullText) /\
             (List.length ls < List.length es)%nat.
Proof.
  intro Hw. revert k.
  induction es as [|x es IH]; intros k (e & He & Hn); [contradiction|].
  simpl. destruct (export_row x) as [line|] eqn:Ex.
  - rewrite Hw. destruct He as [<-|He].
    + exfalso. unfold export_row in Ex.
      destruct Hn as [Hn|Hn]; rewrite Hn in Ex;
        [|destruct (subject x)]; discriminate.
    + destruct (IH (S k)) as (ls & E & L); [now exists e|].
      rewrite E. eexists. split; [reflexivity|]. simpl. lia.
  - exists []. split; [reflexivity|]. simpl. lia.
Qed.

Lemma write_rows_raises (n : nat) (msg : string) (es : list email) (k : nat) :
  (k <= n < k + List.length es)%nat ->
  Forall (fun e => subject e <> None /\ body e <> None) es ->
  exists ls, write_rows (WriteFails n msg) k es = (ls, Raised msg) /\
             List.length ls = (n - k)%nat.
Proof.
  intros Hn Hall. revert k Hn.
  induction Hall as [|e es [Hs Hb] _ IH]; intros k Hn; simpl in *; [lia|].
  unfold export_row.
  destruct (subject e) as [s|]; [|contradiction].
  destruct (body e) as [b|]; [|contradiction].
  destruct (Nat.eqb_spec n k) as [->|Hne].
  - exists []. split; [reflexivity|]. simpl. lia.
  - destruct (IH (S k)) as (ls & E & L); [lia|].
    rewrite E. eexists. split; [reflexivity|]. simpl. lia.
Qed.

Lemma write_raises_fault (fault : io_fault) (k : nat) (msg : string) :
  write_raises fault k = Some msg -> exists n, fault = WriteFails n msg.
Proof.
  destruct fault as [|m|n m|m]; simpl; try discriminate.
  destruct (Nat.eqb n k); [|discriminate]. intros [= ->]. now exists n.
Qed.

(** Over rows without a NULL text the loop ends or a write raises. *)
Lemma write_rows_end (fault : io_fault) (es : list email) (k : nat) :
  Forall (fun e => subject e <> None /\ body e <> None) es ->
  snd (write_rows fault k es) = Completed \/
  exists n msg, fault = WriteFails n msg /\
                snd (write_rows fault k es) = Raised msg.
Proof.
  intro Hall. revert k.
  induction Hall as [|e es [Hs Hb] _ IH]; intro k; simpl; [now left|].
  unfold export_row.
  destruct (subject e) as [s|]; [|contradiction].
  destruct (body e) as [b|]; [|contradiction].
  destruct (write_raises fault k) as [msg|] eqn:W.
  - right. destruct (write_raises_fault _ _ _ W) as [n ->].
    now exists n, msg.
  - specialize (IH (S k)).
    destruct (write_rows fault (S k) es) as [ls r]. exact IH.
Qed.

(** X23: without a file name the export does nothing.  With one, and a file
    that can be opened and written, it hands over the header and then one
    line per message and reports success when no message has a NULL subject
    or body; at the first message that has one it stops with an error, after
    the header and the lines before it.  When the file cannot be opened
    nothing is written and the error is shown; when write number [k] fails
    (the header is write 0) exactly [k] pieces were handed over before the
    error; when closing the file fails the error is shown after every
    line. *)
Theorem export_all_outcome (d : db) (save_path : string) :
  (forall fault, export_all_emails d "" fault = ([], None)) /\
  (save_path <> "" ->
   Forall (fun e => subject e <> None /\ body e <> None) (emails d) ->
   exists ls,
     export_all_emails d save_path NoFault
     = (header :: ls,
        Some (ShowInfo "Exported" ("All emails exported to " ++ save_path))) /\
     List.length ls = List.length (emails d)) /\
  (save_path <> "" ->
   (exists e, In e (emails d) /\ (subject e = None \/ body e = None)) ->
   exists ls n,
     export_all_emails d save_path NoFault = (header :: ls, Some n) /\
     is_error n = true /\ (List.length ls < List.length (emails d))%nat) /\
  (save_path <> "" ->
   forall msg,
     export_all_emails d save_path (OpenFails msg)
     = ([], Some (ShowError "Error" ("Failed to export: " ++ msg)))) /\
  (save_path <> "" ->
   Forall (fun e => subject e <> None /\ body e <> None) (emails d) ->
   forall k msg, (k <= List.length (emails d))%nat ->
   exists ls,
     export_all_emails d save_path (WriteFails k msg)
     = (ls, Some (ShowError "Error" ("Failed to export: " ++ msg))) /\
     List.length ls = k) /\
  (save_path <> "" ->
   forall msg, exists ls,
     export_all_emails d save_path (CloseFails msg)
     = (header :: ls, Some (ShowError "Error" ("Failed to export: " ++ msg)))).
Proof.
  split; [intro fault; reflexivity|]. unfold export_all_emails.
  split; [|split; [|split; [|split]]].
  - intros Hp Hall. apply truthy_true_iff in Hp. rewrite Hp. simpl.
    destruct (write_rows_all NoFault (emails d) 1) as (ls & E & L);
      [reflexivity | exact Hall |].
    rewrite E. eauto.
  - intros Hp Hbad. apply truthy_true_iff in Hp. rewrite Hp. simpl.
    destruct (write_rows_stops NoFault (emails d) 1) as (ls & E & L);
      [reflexivity | exact Hbad |].
    rewrite E. exists ls. eexists.
    split; [reflexivity|]. split; [reflexivity | exact L].
  - intros Hp msg. apply truthy_true_iff in Hp. now rewrite Hp.
  - intros Hp Hall k msg Hk. apply truthy_true_iff in Hp. rewrite Hp.
    cbn [negb write_raises]. destruct k as [|k].
    + exists []. split; reflexivity.
    + cbn [Nat.eqb].
      destruct (write_rows_raises (S k) msg (emails d) 1) as (ls & E & L);
        [lia | exact Hall |].
      rewrite E. exists (header :: ls). split; [reflexivity|]. simpl. lia.
  - intros Hp msg. apply truthy_true_iff in Hp. rewrite Hp. simpl.
    destruct (write_rows (CloseFails msg) 1 (emails d)) as [ls r].
    now exists ls.
Qed.

Lemma export_all_outcome_witness :
  (exists ls,
     export_all_emails Sample.two_users "out.csv" NoFault
     = (header :: ls,
        Some (ShowInfo "Exported" "All emails exported to out.csv")) /\
     List.length ls = 2%nat) /\
  (exists ls n,
     export_all_emails
       (mkDb [] [mkEmail 1 (Some "bob") (Some "alice") None (Some "x") None
                   None (Some 0)] 1) "out.csv" NoFault
     = (header :: ls, Some n) /\ is_error n = true /\ (List.length ls < 1)%nat) /\
  export_all_emails Sample.two_users "/out.csv" (OpenFails "Permission denied")
  = ([], Some (ShowError "Error" "Failed to export: Permission denied")) /\
  (exists ls,
     export_all_emails Sample.two_users "out.csv"
       (WriteFails 2 "No space left on device")
     = (ls, Some (ShowError "Error" "Failed to export: No space left on device")) /\
     List.length ls = 2%nat) /\
  export_all_emails Sample.two_users "out.csv" (WriteFails 2 "No space left on device")
  = ([header;
      "1,bob,alice,Congratulations  you win money!,Claim your prize,0,2026-11-03T10:15:00.000000,1
"],
     Some (ShowError "Error" "Failed to export: No space left on device")).
Proof.
  split.
  { apply (export_all_outcome Sample.two_users "out.csv"); [discriminate|].
    repeat constructor; discriminate. }
  split.
  { apply (export_all_outcome
             (mkDb [] [mkEmail 1 (Some "bob") (Some "alice") None (Some "x")
                         None None (Some 0)] 1) "out.csv"); [discriminate|].
    eexists. split; [left; reflexivity | left; reflexivity]. }
  split.
  { apply (export_all_outcome Sample.two_users "/out.csv"). discriminate. }
  split; [|reflexivity].
  apply (export_all_outcome Sample.two_users "out.csv").
  - discriminate.
  - repeat constructor; discriminate.
  - simpl. lia.
Defined.

(** X24: on a store the program built no message has a NULL text, so the
    export can fail only through the file: with a file name chosen and a
    file that can be opened and written it reports success and hands over
    the header and one line for every stored message; and whenever it shows
    an error, the error is the one the file raised. *)
Theorem export_of_built_store (a : app) (save_path : string) :
  reachable a -> save_path <> "" ->
  (exists ls,
     export_all_emails (store a) save_path NoFault
     = (header :: ls,
        Some (ShowInfo "Exported" ("All emails exported to " ++ save_path))) /\
     List.length ls = List.length (emails (store a))) /\
  (forall fault ls n,
     export_all_emails (store a) save_path fault = (ls, Some n) ->
     is_error n = true ->
     exists msg,
       n = ShowError "Error" ("Failed to export: " ++ msg) /\
       (fault = OpenFails msg \/ (exists k, fault = WriteFails k msg)
        \/ fault = CloseFails msg)).
Proof.
  intros Hr Hp.
  destruct (reachable_ok a Hr) as [(_ & _ & _ & Hrows & _) _].
  assert (Hall : Forall (fun e => subject e <> None /\ body e <> None)
                   (emails (store a))).
  { eapply Forall_impl; [|exact Hrows].
    intros e (_ & _ & _ & (t & Et & _) & (b & Eb & _) & _).
    rewrite Et, Eb. split; discriminate. }
  unfold export_all_emails.
  apply truthy_true_iff in Hp. rewrite Hp. cbn [negb]. split.
  - cbn [write_raises].
    destruct (write_rows_all NoFault (emails (store a)) 1) as (ls & E & L);
      [reflexivity | exact Hall |].
    rewrite E. eauto.
  - intros fault ls n E Herr.
    pose proof (write_rows_end fault (emails (store a)) 1 Hall) as End.
    destruct fault as [|msg|k msg|msg]; cbn [write_raises] in E.
    + destruct (write_rows NoFault 1 (emails (store a))) as [ls' r].
      simpl in End. destruct End as [->|(k & msg & [=] & _)].
      injection E as _ <-. discriminate.
    + injection E as _ <-. exists msg. split; [reflexivity | now left].
    + destruct (Nat.eqb k 0).
      * injection E as _ <-. exists msg.
        split; [reflexivity | right; left; now exists k].
      * destruct (write_rows (WriteFails k msg) 1 (emails (store a))) as [ls' r].
        simpl in End. destruct End as [->|(k' & msg' & [= _ <-] & ->)].
        -- injection E as _ <-. discriminate.
        -- injection E as _ <-. exists msg.
           split; [reflexivity | right; left; now exists k].
    + destruct (write_rows (CloseFails msg) 1 (emails (store a))) as [ls' r].
      injection E as _ <-. exists msg. split; [reflexivity | now right; right].
Qed.

Lemma export_of_built_store_witness :
  (exists ls,
     export_all_emails
       (store (run_all [Register "al" "pw"; Login "al" "pw";
                        Send "al" "Hi, you" "a, b" None "2026-11-03T10:00:00"]
                 fresh)) "out.csv" NoFault
     = (header :: ls,
        Some (ShowInfo "Exported" "All emails exported to out.csv")) /\
     List.length ls = 1%nat) /\
  export_all_emails
    (store (run_all [Register "al" "pw"; Login "al" "pw";
                     Send "al" "Hi, you" "a, b" None "2026-11-03T10:00:00"]
              fresh)) "out.csv" NoFault
  = ([header; "1,al,al,Hi  you,a  b,0,2026-11-03T10:00:00,0
"],
     Some (ShowInfo "Exported" "All emails exported to out.csv")).
Proof.
  split; [|reflexivity].
  apply (export_of_built_store
           (run_all [Register "al" "pw"; Login "al" "pw";
                     Send "al" "Hi, you" "a, b" None "2026-11-03T10:00:00"]
              fresh) "out.csv").
  - eexists. reflexivity.
  - discriminate.
Defined.

Lemma commas_app (s t : string) : commas (s ++ t) = (commas s + commas t)%nat.
Proof. induction s as [|c s IH]; simpl; [reflexivity | rewrite IH; lia]. Qed.

Lemma commas_replace (s : string) : commas (replace_comma s) = 0%nat.
Proof.
  induction s as [|c s IH]; [reflexivity|]. simpl.
  destruct (Ascii.eqb c ",") eqn:E; [exact IH|]. now rewrite E.
Qed.

Lemma length_replace (s : string) :
  String.length (replace_comma s) = String.length s.
Proof. induction s as [|c s IH]; simpl; [reflexivity | now rewrite IH]. Qed.

Lemma commas_uint (u : Decimal.uint) : commas (NilEmpty.string_of_uint u) = 0%nat.
Proof. induction u; simpl; auto. Qed.

Lemma commas_fmt_int (z : Z) : commas (fmt_int z) = 0%nat.
Proof.
  unfold fmt_int, NilZero.string_of_int, NilZero.string_of_uint.
  destruct (Z.to_int z) as [u|u]; destruct u; simpl;
    try reflexivity; apply commas_uint.
Qed.

(** X25: the two free-text columns of a line never carry a comma (each one
    is replaced with a space, the text keeping its length), but the recipient,
    the sender and the timestamp are written as they are: a line has its 7
    separating commas plus the commas of these three fields. *)
Theorem export_row_commas (e : email) (line : string) :
  export_row e = Some line ->
  commas line
  = (7 + commas (fmt_text (recipient e)) + commas (fmt_text (sender e))
     + commas (fmt_text (timestamp e)))%nat /\
  (forall s, commas (replace_comma s) = 0%nat /\
             String.length (replace_comma s) = String.length s).
Proof.
  intro E. split; [|intro s; split; [apply commas_replace | apply length_replace]].
  unfold export_row in E.
  destruct (subject e) as [s|]; [|discriminate].
  destruct (body e) as [b|]; [|discriminate].
  injection E as <-.
  assert (C : forall t, commas (String "," t) = S (commas t)) by reflexivity.
  repeat (rewrite commas_app || rewrite C).
  rewrite !commas_replace, commas_fmt_int.
  assert (P : commas (present (attachment e)) = 0%nat).
  { unfold present. destruct (attachment e) as [t|]; [|reflexivity].
    now destruct (truthy t). }
  assert (F : commas (fmt_opt_int (is_spam e)) = 0%nat).
  { unfold fmt_opt_int. destruct (is_spam e); [apply commas_fmt_int|reflexivity]. }
  rewrite P, F. change (commas newline) with 0%nat. lia.
Qed.

Lemma export_row_commas_witness :
  commas "1,bob,alice,Congratulations  you win money!,Claim your prize,0,2026-11-03T10:15:00.000000,1
" = (7 + 0 + 0 + 0)%nat.
Proof.
  apply (export_row_commas Sample.alice_to_bob). reflexivity.
Defined.

End CsvExportSpec.


(* ================================================================= *)
(** ** More on the stored attachment text and on the classifier *)

Module MoreSpec.
Import Text Classifier Base64.
Import TextFacts ClassifierSpec Base64Spec ViewSpec.

(** X27: the text stored for an attached file of [n] bytes has exactly
    4 * ceil(n / 3) characters. *)
Theorem encoded_length (data : list byte) :
  String.length (b64encode data) = (4 * ((List.length data + 2) / 3))%nat.
Proof.
  induction data as [|a|a b|a b c rest IH] using list_ind3;
    try reflexivity.
  cbn [b64encode String.length List.length]. rewrite IH.
  replace (S (S (S (List.length rest))) + 2)%nat
    with (List.length rest + 2 + 1 * 3)%nat by lia.
  rewrite Nat.div_add by lia. lia.
Qed.

(** X28: the verdict of the classifier does not depend on the case of the
    letters: two subjects, and two bodies, that differ only in case get the
    same verdict. *)
Theorem detect_spam_ignores_case (s s' b b' : string) :
  lower s = lower s' -> lower b = lower b' ->
  detect_spam s b = detect_spam s' b'.
Proof.
  intros Hs Hb. unfold detect_spam, spam_text.
  now rewrite !lower_app, Hs, Hb.
Qed.

Lemma detect_spam_ignores_case_witness :
  detect_spam "URGENT" "Call Me" = detect_spam "urgent" "call me".
Proof.
  apply (detect_spam_ignores_case "URGENT" "urgent" "Call Me" "call me");
    reflexivity.
Defined.

Lemma append_assoc (a b c : string) : (a ++ b) ++ c = a ++ b ++ c.
Proof. induction a as [|x a IH]; simpl; [reflexivity | now rewrite IH]. Qed.

Lemma is_substring_wider (w x p q : string) :
  is_substring w x -> is_substring w (p ++ x ++ q).
Proof.
  intros (pre & post & ->). exists (p ++ pre), (post ++ q).
  now rewrite !append_assoc.
Qed.

(** X29: text cannot be made to pass by adding to it: when a subject and
    a body are flagged, they stay flagged whatever is put before the subject
    and after the body. *)
Theorem detect_spam_monotone (s b pre post : string) :
  detect_spam s b = true -> detect_spam (pre ++ s) (b ++ post) = true.
Proof.
  unfold detect_spam, spam_text. rewrite !scan_iff.
  intros (w & Hin & Hs). exists w. split; [assumption|].
  replace ((pre ++ s) ++ " " ++ b ++ post)
    with (pre ++ (s ++ " " ++ b) ++ post).
  - rewrite !lower_app. apply is_substring_wider.
    now rewrite <- !lower_app.
  - rewrite !append_assoc. reflexivity.
Qed.

Lemma detect_spam_monotone_witness :
  detect_spam ("Fwd: " ++ "You won a prize") ("see below" ++ " -- regards")
  = true.
Proof.
  apply (detect_spam_monotone "You won a prize" "see below" "Fwd: "
           " -- regards").
  reflexivity.
Defined.

End MoreSpec.
